(** * ClickRec_60: a shallow embedding of the capture / filter / encode core

    The development follows [src/ClickRec_60_test.py] (the variant of
    [src/ClickRec_60.py] that carries the filter chain); both files share the
    probing, preview and recording code.

    Conventions.
    - Python [str] values are Rocq strings whose characters are read as the
      code points U+0000 .. U+00FF.
    - Python [int] values are [Z]; Python [float] values are binary64
      primitive floats.
    - The external world (the ffmpeg subprocesses, the file system, the
      camera, the clock) is an explicit oracle threaded through the code.
    - Console logging is left out of the methods ([print_color] is modelled
      on its own), as are the purely decorative widgets; message boxes, the
      preview canvas size and the two buttons that gate recording are kept. *)

From Stdlib Require Import ZArith List Ascii String Bool Lia.
From Stdlib Require Import PrimFloat Uint63 FloatOps SpecFloat FloatAxioms.
From stdpp Require Import base option list gmap strings pretty.

Local Open Scope Z_scope.

(* Decimal constants of the source (1.2, 1.1, 1.3) are read as the nearest
   binary64 values, as Python reads them. *)
Set Warnings "-inexact-float".

(* ===================================================================== *)
(** * Python string primitives used by the source                         *)
(* ===================================================================== *)

Module Py.

(** [c.isspace()] for a code point below 256. *)
Definition isspace (c : ascii) : bool :=
  let n := N_of_ascii c in
  ((9 <=? n) && (n <=? 13) || (28 <=? n) && (n <=? 32) || (n =? 133) || (n =? 160))%N.

(** [\d] of the [re] module, and the digits [int] accepts, below 256. *)
Definition isdigit (c : ascii) : bool :=
  let n := N_of_ascii c in ((48 <=? n) && (n <=? 57))%N.

Definition digit_value (c : ascii) : Z := Z.of_N (N_of_ascii c) - 48.

(** The line boundaries [str.splitlines] knows below 256. *)
Definition is_linebreak (c : ascii) : bool :=
  let n := N_of_ascii c in
  ((10 <=? n) && (n <=? 13) || (28 <=? n) && (n <=? 30) || (n =? 133))%N.

Definition is_empty (s : string) : bool :=
  match s with EmptyString => true | String _ _ => false end.

Definition snoc (s : string) (c : ascii) : string := s +:+ String c EmptyString.

(** [needle in hay]. *)
Fixpoint contains (needle hay : string) : bool :=
  String.prefix needle hay ||
  match hay with
  | EmptyString => false
  | String _ rest => contains needle rest
  end.

(** [s.splitlines()]: [line] is the line read so far. A carriage return
    directly followed by a line feed is one boundary; a last line that is
    empty is not reported. *)
Fixpoint splitlines_from (line s : string) : list string :=
  match s with
  | EmptyString => if is_empty line then [] else [line]
  | String c rest =>
      if is_linebreak c then
        match c, rest with
        | "013"%char, String "010"%char rest' => line :: splitlines_from EmptyString rest'
        | _, _ => line :: splitlines_from EmptyString rest
        end
      else splitlines_from (snoc line c) rest
  end.

Definition splitlines (s : string) : list string := splitlines_from EmptyString s.

(** [s.split(sep)] for a separator of one character. *)
Fixpoint split_from (sep : ascii) (cur s : string) : list string :=
  match s with
  | EmptyString => [cur]
  | String c rest =>
      if Ascii.eqb c sep then cur :: split_from sep EmptyString rest
      else split_from sep (snoc cur c) rest
  end.

Definition split (sep : ascii) (s : string) : list string := split_from sep EmptyString s.

(** [s.replace(old, "")] for a non-empty [old]: [skip] characters of a match
    found earlier remain to be dropped. *)
Fixpoint remove_from (old : string) (skip : nat) (s : string) : string :=
  match s with
  | EmptyString => EmptyString
  | String c rest =>
      match skip with
      | S k => remove_from old k rest
      | O =>
          if String.prefix old s then remove_from old (Nat.pred (String.length old)) rest
          else String c (remove_from old 0 rest)
      end
  end.

Definition remove (old s : string) : string := remove_from old 0 s.

Fixpoint lstrip (s : string) : string :=
  match s with
  | EmptyString => EmptyString
  | String c rest => if isspace c then lstrip rest else s
  end.

Fixpoint rstrip (s : string) : string :=
  match s with
  | EmptyString => EmptyString
  | String c rest =>
      let rest' := rstrip rest in
      if isspace c && is_empty rest' then EmptyString else String c rest'
  end.

(** [s.strip()]. *)
Definition strip (s : string) : string := rstrip (lstrip s).

(** [c.lower()] below 256: the ASCII capitals and the Latin-1 capitals
    (U+00C0 .. U+00DE without the multiplication sign). *)
Definition lower_char (c : ascii) : ascii :=
  let n := N_of_ascii c in
  if ((65 <=? n) && (n <=? 90) || (192 <=? n) && (n <=? 222) && negb (n =? 215))%N
  then ascii_of_N (n + 32) else c.

Fixpoint lower (s : string) : string :=
  match s with
  | EmptyString => EmptyString
  | String c rest => String (lower_char c) (lower rest)
  end.

(** [s.endswith(suffix)]. *)
Fixpoint endswith (s suffix : string) : bool :=
  String.eqb s suffix ||
  match s with
  | EmptyString => false
  | String _ rest => endswith rest suffix
  end.

(** The digits of an [int] literal: decimal digits, single underscores
    allowed between two digits only. [seen] says that the previous character
    was a digit. *)
Fixpoint int_digits (acc : Z) (seen : bool) (s : string) : option Z :=
  match s with
  | EmptyString => if seen then Some acc else None
  | String c rest =>
      if isdigit c then int_digits (10 * acc + digit_value c) true rest
      else if Ascii.eqb c "_"%char then
        if seen then int_digits acc false rest else None
      else None
  end.

(** [int(s)] in base ten; [None] stands for [ValueError]. *)
Definition int (s : string) : option Z :=
  match strip s with
  | String "-"%char rest => Z.opp <$> int_digits 0 false rest
  | String "+"%char rest => int_digits 0 false rest
  | t => int_digits 0 false t
  end.

(** [str(n)]. *)
Definition str (n : Z) : string := pretty n.

(** The longest prefix of [s] whose characters satisfy [p], and what
    follows it. *)
Fixpoint span (p : ascii -> bool) (s : string) : string * string :=
  match s with
  | EmptyString => (EmptyString, EmptyString)
  | String c rest =>
      if p c then let '(a, b) := span p rest in (String c a, b)
      else (EmptyString, s)
  end.

(** [s] without the prefix [pre], when it starts with it. *)
Fixpoint strip_prefix (pre s : string) : option string :=
  match pre, s with
  | EmptyString, _ => Some s
  | String a pre', String b s' => if Ascii.eqb a b then strip_prefix pre' s' else None
  | String _ _, EmptyString => None
  end.

End Py.

(* ===================================================================== *)
(** * The capability pattern [max s=(\d+)x(\d+)\s+fps=(\d+)]              *)
(* ===================================================================== *)

Module Re.

(** The pieces the pattern is made of: a literal text, or one or more
    characters of a class, greedy, which may be a group. *)
Inductive Item : Type :=
| Lit (text : string)
| Plus (cls : ascii -> bool) (group : bool).

Fixpoint take (n : nat) (s : string) : string :=
  match n, s with
  | S k, String c rest => String c (take k rest)
  | _, _ => EmptyString
  end.

Fixpoint drop (n : nat) (s : string) : string :=
  match n, s with
  | S k, String _ rest => drop k rest
  | _, _ => s
  end.

(** A greedy repetition, as the backtracking matcher of [re] runs it: the
    longest run is tried first, then one character less, down to one
    character; [cont] matches what follows. *)
Fixpoint backtrack (k : nat) (cont : string -> option (list string)) (group : bool)
    (s : string) : option (list string) :=
  match k with
  | O => None
  | S k' =>
      match cont (drop k s) with
      | Some groups => Some (if group then take k s :: groups else groups)
      | None => backtrack k' cont group s
      end
  end.

(** A match of the items that starts at the first character of [s]; the
    texts of its groups. *)
Fixpoint match_at (items : list Item) (s : string) : option (list string) :=
  match items with
  | [] => Some []
  | Lit text :: rest =>
      match Py.strip_prefix text s with
      | Some s' => match_at rest s'
      | None => None
      end
  | Plus cls group :: rest =>
      backtrack (String.length (fst (Py.span cls s))) (match_at rest) group s
  end.

(** [max s=(\d+)x(\d+)\s+fps=(\d+)]. *)
Definition capability_pattern : list Item :=
  [Lit "max s="; Plus Py.isdigit true; Lit "x"; Plus Py.isdigit true;
   Plus Py.isspace false; Lit "fps="; Plus Py.isdigit true].

Definition groups3 (groups : list string) : option (string * string * string) :=
  match groups with
  | [a; b; c] => Some (a, b, c)
  | _ => None
  end.

(** [re.search(pattern, s)]: the leftmost match; its three groups. *)
Fixpoint search (s : string) : option (string * string * string) :=
  match match_at capability_pattern s ≫= groups3 with
  | Some groups => Some groups
  | None =>
      match s with
      | EmptyString => None
      | String _ rest => search rest
      end
  end.

(** The same match read without backtracking: every repetition takes its
    longest run. [match_at_capability] shows that the two agree, since the
    character that must follow a repetition can not belong to it. *)
Definition match_here (s : string) : option (string * string * string) :=
  s1 ← Py.strip_prefix "max s=" s;
  let '(gw, s2) := Py.span Py.isdigit s1 in
  if Py.is_empty gw then None else
  s3 ← Py.strip_prefix "x" s2;
  let '(gh, s4) := Py.span Py.isdigit s3 in
  if Py.is_empty gh then None else
  let '(blank, s5) := Py.span Py.isspace s4 in
  if Py.is_empty blank then None else
  s6 ← Py.strip_prefix "fps=" s5;
  let '(gf, _) := Py.span Py.isdigit s6 in
  if Py.is_empty gf then None else Some (gw, gh, gf).

End Re.

(* ===================================================================== *)
(** * The external tool and the file system                               *)
(* ===================================================================== *)

(** A state monad; [x ← m; k] is stdpp's bind notation. *)
Definition St (S A : Type) : Type := S -> A * S.

Global Instance St_ret {S} : MRet (St S) := fun A a s => (a, s).
Global Instance St_bind {S} : MBind (St S) :=
  fun A B f m s => let '(a, s') := m s in f a s'.

(** How one [subprocess.run] ends. *)
Inductive ProcOutcome : Type :=
| NotStarted                                         (* the call raised *)
| Exited (returncode : Z) (out err : string).

Record CompletedProcess : Type := { stdout : string; stderr : string }.

(** What the file system answers at one moment of the codec smoke test. *)
Record FsAnswer : Type := {
  mktemp : option string;     (* NamedTemporaryFile: the name, or it raised *)
  out_size : option Z;        (* size of the test output, [None] when absent *)
  remove_ok : bool            (* os.remove succeeds *)
}.

(** The machine the program runs on. The answer of the backend may depend on
    how many subprocesses ran before ([length ran]) and on the command. *)
Record World : Type := {
  ffmpeg_lookup : option string;              (* what the search for ffmpeg finds *)
  ffmpeg_path_attr : option (option string);  (* RecorderApp._ffmpeg_path, once set *)
  backend : nat -> list string -> ProcOutcome;
  fs : nat -> FsAnswer;
  ran : list (list string)                    (* every command run, oldest first *)
}.

Definition set_ffmpeg_path_attr (p : option string) (w : World) : World :=
  {| ffmpeg_lookup := ffmpeg_lookup w; ffmpeg_path_attr := Some p;
     backend := backend w; fs := fs w; ran := ran w |}.

Definition log_run (argv : list string) (w : World) : World :=
  {| ffmpeg_lookup := ffmpeg_lookup w; ffmpeg_path_attr := ffmpeg_path_attr w;
     backend := backend w; fs := fs w; ran := ran w ++ [argv] |}.

(** [RecorderApp.get_ffmpeg_path]: the search runs on the first call only;
    its result, found or not, is kept on the class. *)
Definition get_ffmpeg_path : St World (option string) := fun w =>
  match ffmpeg_path_attr w with
  | Some p => (p, w)
  | None => (ffmpeg_lookup w, set_ffmpeg_path_attr (ffmpeg_lookup w) w)
  end.

(** [subprocess.run([cmd] + args, check=check)]; [None] stands for any
    exception: no executable, a failed spawn, or with [check] a non-zero
    return code. *)
Definition subprocess_run (check : bool) (cmd : option string) (args : list string)
  : St World (option CompletedProcess) := fun w =>
  match cmd with
  | None => (None, w)
  | Some exe =>
      let argv := exe :: args in
      let w' := log_run argv w in
      match backend w (length (ran w)) argv with
      | NotStarted => (None, w')
      | Exited rc out err =>
          if check && negb (rc =? 0) then (None, w')
          else (Some {| stdout := out; stderr := err |}, w')
      end
  end.

Definition fs_now : St World FsAnswer := fun w => (fs w (length (ran w)), w).

Definition preferred_codec : string := "h264_qsv".
Definition fallback_codec : string := "libx264".

Definition encoders_args : list string := ["-hide_banner"; "-encoders"].

Definition smoke_args (test_output : string) : list string :=
  ["-f"; "lavfi"; "-i"; "color=black:s=128x128:d=0.1:r=30";
   "-vcodec"; preferred_codec; "-t"; "0.1"; "-y"; test_output].

(** The second [try] block of [select_codec]. *)
Definition smoke_test (ffmpeg_cmd : option string) : St World string :=
  tmp ← fs_now;
  match mktemp tmp with
  | None => mret fallback_codec
  | Some test_output =>
      r ← subprocess_run true ffmpeg_cmd (smoke_args test_output);
      match r with
      | None => mret fallback_codec
      | Some _ =>
          after ← fs_now;
          match out_size after with
          | Some size =>
              if (0 <? size) && remove_ok after then mret preferred_codec
              else mret fallback_codec
          | None => mret fallback_codec
          end
      end
  end.

(** [RecorderApp.select_codec]. *)
Definition select_codec : St World string :=
  ffmpeg_cmd ← get_ffmpeg_path;
  listing ← subprocess_run true ffmpeg_cmd encoders_args;
  match listing with
  | None => mret fallback_codec
  | Some result =>
      if existsb (Py.contains preferred_codec) (Py.splitlines (stdout result))
      then smoke_test ffmpeg_cmd
      else mret fallback_codec
  end.

Definition default_camera : string := "Default Camera".

Definition quote : ascii := "034"%char.

Definition list_devices_args : list string :=
  ["-hide_banner"; "-f"; "dshow"; "-list_devices"; "true"; "-i"; "dummy"].

(** The loop of [detect_devices] over the lines of stderr; [None] stands for
    an [IndexError] of the second field of the line split at its double
    quotes. *)
Fixpoint device_names (lines : list string) (devices : list string) : option (list string) :=
  match lines with
  | [] => Some devices
  | line :: rest =>
      if Py.contains "(video)" line && Py.contains (String quote EmptyString) line then
        match Py.split quote line with
        | _ :: name :: _ => device_names rest (devices ++ [name])
        | _ => None
        end
      else device_names rest devices
  end.

(** [RecorderApp.detect_devices]. *)
Definition detect_devices : St World (list string) :=
  ffmpeg_cmd ← get_ffmpeg_path;
  r ← subprocess_run true ffmpeg_cmd list_devices_args;
  mret (match r with
        | None => [default_camera]
        | Some result =>
            match device_names (Py.splitlines (stderr result)) [] with
            | None => [default_camera]
            | Some [] => [default_camera]
            | Some devices => devices
            end
        end).

Definition list_options_args (device_name : string) : list string :=
  ["-hide_banner"; "-f"; "dshow"; "-list_options"; "true"; "-i"; "video=" +:+ device_name].

(** The loop of [get_supported_resolutions] over the lines of stderr; [None]
    stands for a [ValueError] of [int]. *)
Fixpoint collect_modes (lines : list string) (supported : list (Z * Z * Z))
  : option (list (Z * Z * Z)) :=
  match lines with
  | [] => Some supported
  | line :: rest =>
      if Py.contains "vcodec=mjpeg" line && Py.contains "fps=" line then
        match Re.search line with
        | Some (gw, gh, gf) =>
            match Py.int gw, Py.int gh, Py.int gf with
            | Some w, Some h, Some fps => collect_modes rest (supported ++ [(w, h, fps)])
            | _, _, _ => None
            end
        | None => collect_modes rest supported
        end
      else collect_modes rest supported
  end.

(** [RecorderApp.get_supported_resolutions]. *)
Definition get_supported_resolutions (device_index : nat) : St World (list (Z * Z * Z)) :=
  ffmpeg_cmd ← get_ffmpeg_path;
  devices ← detect_devices;
  match devices !! device_index with
  | None => mret []
  | Some device_name =>
      r ← subprocess_run false ffmpeg_cmd (list_options_args device_name);
      mret (match r with
            | None => []
            | Some result =>
                let lines := Py.splitlines (stderr result) in
                if existsb (Py.contains "vcodec=mjpeg") lines then
                  match collect_modes lines [] with
                  | Some supported => supported
                  | None => []
                  end
                else []
            end)
  end.

(* ===================================================================== *)
(** * Frames, the OpenCV interface and the filter chain                   *)
(* ===================================================================== *)

(** The content of a numpy array or of a [cv2.UMat]: its shape and its
    bytes. *)
Record Mat : Type := {
  rows : nat;
  cols : nat;
  channels : nat;
  data : list Byte.byte
}.

Inductive ColorCode : Type :=
| COLOR_BGR2GRAY | COLOR_BGR2LAB | COLOR_LAB2BGR | COLOR_BGR2YCrCb
| COLOR_BGR2HSV | COLOR_BGR2RGB.

Inductive CmpOp : Type := CMP_GT | CMP_LT.

(** What the OpenCV calls of the source compute, on contents. The library is
    not part of the repository: the chain is verified for every
    implementation of this interface. *)
Class Cv2 : Type := {
  cvtColor : Mat -> ColorCode -> Mat;
  cv_split : Mat -> Mat * Mat * Mat;
  cv_merge : Mat -> Mat -> Mat -> Mat;
  clahe_apply : float -> Z * Z -> Mat -> Mat;   (* createCLAHE(clip, grid).apply *)
  GaussianBlur : Mat -> Z * Z -> float -> Mat;
  addWeighted : Mat -> float -> Mat -> float -> float -> Mat;
  cv_compare : Mat -> Z -> CmpOp -> Mat;
  bitwise_and : Mat -> Mat -> Mat;
  bitwise_or : Mat -> Mat -> Mat;
  bitwise_not : Mat -> Mat;
  cv_min : Mat -> Mat -> Mat;
  cv_max : Mat -> Mat -> Mat;
  cv_resize : Mat -> Z * Z -> Mat
}.

(** [np.full_like(a, v)]; [np.zeros_like(a)] is [full_like a x00]. *)
Definition full_like (a : Mat) (v : Byte.byte) : Mat :=
  {| rows := rows a; cols := cols a; channels := channels a;
     data := map (fun _ => v) (data a) |}.

(** ** The store of buffers

    Host arrays and device buffers live in one store, so that sharing and
    in-place writes can be expressed. *)
Inductive Obj : Type :=
| NdArray (m : Mat)      (* a numpy array *)
| UMat (m : Mat).        (* a cv2.UMat *)

Abbreviation loc := nat (only parsing).
Abbreviation Heap := (gmap nat Obj) (only parsing).

(** A computation over the store; [None] is a reference used at the wrong
    type or not allocated. *)
Definition Cv (A : Type) : Type := Heap -> option (A * Heap).

Global Instance Cv_ret : MRet Cv := fun A a h => Some (a, h).
Global Instance Cv_bind : MBind Cv :=
  fun A B f m h => match m h with Some (a, h') => f a h' | None => None end.

Definition alloc (o : Obj) : Cv loc := fun h =>
  let l := fresh (dom h) in Some (l, <[l := o]> h).

Definition read_obj (l : loc) : Cv Obj := fun h =>
  match h !! l with Some o => Some (o, h) | None => None end.

Definition read_umat (l : loc) : Cv Mat := fun h =>
  match h !! l with Some (UMat m) => Some (m, h) | _ => None end.

Definition read_ndarray (l : loc) : Cv Mat := fun h =>
  match h !! l with Some (NdArray m) => Some (m, h) | _ => None end.

(** [cv2.UMat(array)]: the binding copies the array into a new buffer. *)
Definition umat_of (array : loc) : Cv loc :=
  m ← read_ndarray array; alloc (UMat m).

(** [u.get()]: the binding copies the buffer into a new array. *)
Definition umat_get (u : loc) : Cv loc :=
  m ← read_umat u; alloc (NdArray m).

(** An OpenCV call with no [dst] argument: the result is a new buffer. *)
Definition op1 (f : Mat -> Mat) (a : loc) : Cv loc :=
  ma ← read_umat a; alloc (UMat (f ma)).

Definition op2 (f : Mat -> Mat -> Mat) (a b : loc) : Cv loc :=
  ma ← read_umat a; mb ← read_umat b; alloc (UMat (f ma mb)).

Definition op3 (f : Mat -> Mat -> Mat -> Mat) (a b c : loc) : Cv loc :=
  ma ← read_umat a; mb ← read_umat b; mc ← read_umat c; alloc (UMat (f ma mb mc)).

(** [cv2.split]: three new buffers. *)
Definition split3 {cv : Cv2} (src : loc) : Cv (loc * loc * loc) :=
  m ← read_umat src;
  let '(x, y, z) := cv_split m in
  a ← alloc (UMat x); b ← alloc (UMat y); c ← alloc (UMat z);
  mret (a, b, c).

(** [cv2.UMat(np.full_like(u.get(), v))]. *)
Definition umat_full_like (u : loc) (v : Byte.byte) : Cv loc :=
  host ← umat_get u;
  m ← read_ndarray host;
  filled ← alloc (NdArray (full_like m v));
  umat_of filled.

Definition grid_size : Z * Z := (3, 3).

Section Filters.
Context {cv : Cv2}.

Definition gray_filter (src : loc) : Cv loc :=
  gray ← op1 (fun m => cvtColor m COLOR_BGR2GRAY) src;
  op3 cv_merge gray gray gray.

Definition simple_CLAHE_RGB (src_bgr_umat : loc) : Cv loc :=
  let clip := 2%float in
  '(b_chan, g_chan, r_chan) ← split3 src_bgr_umat;
  b_eq ← op1 (clahe_apply clip grid_size) b_chan;
  g_eq ← op1 (clahe_apply clip grid_size) g_chan;
  r_eq ← op1 (clahe_apply clip grid_size) r_chan;
  op3 cv_merge b_eq g_eq r_eq.

Definition simple_CLAHE_L (src_bgr_umat : loc) : Cv loc :=
  let clip := 2%float in
  lab ← op1 (fun m => cvtColor m COLOR_BGR2LAB) src_bgr_umat;
  '(l, a, b) ← split3 lab;
  l_eq ← op1 (clahe_apply clip grid_size) l;
  lab_eq ← op3 cv_merge l_eq a b;
  op1 (fun m => cvtColor m COLOR_LAB2BGR) lab_eq.

Definition vascular_enhance_filter_ocl (src : loc) : Cv loc :=
  let clahe_clip := 2%float in
  let a_boost := 1.2%float in
  let b_boost := 1.1%float in
  let l_smooth_ksize := 5 in
  let multiscale_weight := 0.5%float in
  let vessel_extra_boost := 1.3%float in
  lab ← op1 (fun m => cvtColor m COLOR_BGR2LAB) src;
  '(L, A, B) ← split3 lab;
  L_blur ← op1 (fun m => GaussianBlur m (l_smooth_ksize, l_smooth_ksize) 0%float) L;
  L_eq ← op1 (clahe_apply clahe_clip grid_size) L_blur;
  L_large ← op1 (clahe_apply clahe_clip (fst grid_size * 2, snd grid_size * 2)) L;
  L_combined ← op2 (fun x y => addWeighted x (1 - multiscale_weight)%float
                                 y multiscale_weight 0%float) L_eq L_large;
  A_boosted ← op2 (fun x y => addWeighted x a_boost y 0%float
                                (128 * (1 - a_boost))%float) A A;
  B_boosted ← op2 (fun x y => addWeighted x b_boost y 0%float
                                (128 * (1 - b_boost))%float) B B;
  mask_a ← op1 (fun m => cv_compare m 135 CMP_GT) A_boosted;
  mask_l ← op1 (fun m => cv_compare m 120 CMP_LT) L_eq;
  vessel_mask_lab ← op2 bitwise_and mask_a mask_l;
  ycrcb ← op1 (fun m => cvtColor m COLOR_BGR2YCrCb) src;
  '(_, Cr, _) ← split3 ycrcb;
  vessel_mask_cr ← op1 (fun m => cv_compare m 145 CMP_GT) Cr;
  hsv ← op1 (fun m => cvtColor m COLOR_BGR2HSV) src;
  '(Hue, Sat, _) ← split3 hsv;
  mask_h_low ← op1 (fun m => cv_compare m 10 CMP_LT) Hue;
  mask_h_high ← op1 (fun m => cv_compare m 170 CMP_GT) Hue;
  mask_h ← op2 bitwise_or mask_h_low mask_h_high;
  mask_s ← op1 (fun m => cv_compare m 70 CMP_GT) Sat;
  vessel_mask_hsv ← op2 bitwise_and mask_h mask_s;
  lab_or_cr ← op2 bitwise_or vessel_mask_lab vessel_mask_cr;
  vessel_mask ← op2 bitwise_or lab_or_cr vessel_mask_hsv;
  vessel_extra ← op2 (fun x y => addWeighted x vessel_extra_boost y 0%float
                                   (128 * (1 - vessel_extra_boost))%float)
                     A_boosted A_boosted;
  inside ← op2 bitwise_and vessel_mask vessel_extra;
  not_mask ← op1 bitwise_not vessel_mask;
  outside ← op2 bitwise_and not_mask A_boosted;
  A_boosted ← op2 bitwise_or inside outside;
  zero_u ← umat_full_like A_boosted Byte.x00;
  full_u ← umat_full_like A_boosted Byte.xff;
  A_low ← op2 cv_max A_boosted zero_u;
  A_boosted ← op2 cv_min A_low full_u;
  B_low ← op2 cv_max B_boosted zero_u;
  B_boosted ← op2 cv_min B_low full_u;
  lab_boosted ← op3 cv_merge L_combined A_boosted B_boosted;
  op1 (fun m => cvtColor m COLOR_LAB2BGR) lab_boosted.

(** The four toggles of the chain. *)
Record Flags : Type := {
  vascular : bool;
  gray : bool;
  clahe_color : bool;
  clahe_l : bool
}.

(** [filters(image, vascular, gray, clahe_color, clahe_l)]. *)
Definition filters (image : loc) (fl : Flags) : Cv loc :=
  image ← umat_of image;
  image ← (if vascular fl then vascular_enhance_filter_ocl image else mret image);
  image ← (if clahe_color fl then simple_CLAHE_RGB image else mret image);
  image ← (if clahe_l fl then simple_CLAHE_L image else mret image);
  image ← (if gray fl then gray_filter image else mret image);
  o ← read_obj image;
  match o with
  | UMat m => alloc (NdArray m)
  | NdArray _ => mret image
  end.

(** The chain on a frame held by value: the frame is placed alone in a
    store, filtered there, and the returned array is read back. [None] is an
    exception of the chain. *)
Definition filters_frame (frame : Mat) (fl : Flags) : option Mat :=
  match filters 0%nat fl {[ 0%nat := NdArray frame ]} with
  | Some (out, h) =>
      match h !! out with
      | Some (NdArray m) => Some m
      | _ => None
      end
  | None => None
  end.

End Filters.

Definition no_flags : Flags :=
  {| vascular := false; gray := false; clahe_color := false; clahe_l := false |}.

(* ===================================================================== *)
(** * Python numbers                                                      *)
(* ===================================================================== *)

(** [float(z)], for an integer below 2^63 in absolute value. *)
Definition float_of_int (z : Z) : float :=
  match z with
  | Z0 => 0%float
  | Zpos _ => of_uint63 (Uint63.of_Z z)
  | Zneg _ => (- of_uint63 (Uint63.of_Z (- z)))%float
  end.

(** [a / b] on two integers (exact operands up to 2^53, one rounding);
    [None] stands for [ZeroDivisionError]. *)
Definition truediv_int (a b : Z) : option float :=
  if b =? 0 then None else Some (float_of_int a / float_of_int b)%float.

(** [x / y] on floats. *)
Definition truediv_float (x y : float) : option float :=
  if PrimFloat.eqb y 0%float then None else Some (x / y)%float.

(** [int(x)]: truncation toward zero; [None] for an infinity or a NaN. *)
Definition int_of_float (x : float) : option Z :=
  match Prim2SF x with
  | S754_zero _ => Some 0
  | S754_finite s m e =>
      let mag := if 0 <=? e then Z.pos m * 2 ^ e else Z.pos m / 2 ^ (- e) in
      Some (if s then - mag else mag)
  | S754_infinity _ => None
  | S754_nan => None
  end.

Definition PREVIEW_WIDTH : Z := 1280.
Definition PREVIEW_HEIGHT : Z := 720.
Definition EXT : string := ".mp4".
Definition DEFAULT_SAVE_DIR : string := "recordings".

(** The canvas size [start_preview] configures for a capture size [w] x [h]:
<<
    aspect_ratio = w / h
    canvas_width = PREVIEW_WIDTH
    canvas_height = int(canvas_width / aspect_ratio)
>>
    [None] stands for the exception of a division by zero. *)
Definition preview_canvas_size (w h : Z) : option (Z * Z) :=
  aspect_ratio ← truediv_int w h;
  let canvas_width := PREVIEW_WIDTH in
  q ← truediv_float (float_of_int canvas_width) aspect_ratio;
  canvas_height ← int_of_float q;
  Some (canvas_width, canvas_height).

(** The text of the resolution box, [WxH@Ffps], read as both [start_preview]
    and [start_record] read it; [None] stands for any exception of the
    inner [try]. *)
Definition parse_resolution (res_text : string) : option (Z * Z * Z) :=
  match Py.split "@" res_text with
  | [size; fps_text] =>
      match Py.split "x" size with
      | [ws; hs] =>
          w ← Py.int ws;
          h ← Py.int hs;
          fps ← Py.int (Py.remove "fps" fps_text);
          Some (w, h, fps)
      | _ => None
      end
  | _ => None
  end.

(** An entry of the resolution list, as [update_resolution_list] prints it. *)
Definition format_resolution (r : Z * Z * Z) : string :=
  let '(w, h, fps) := r in
  Py.str w +:+ "x" +:+ Py.str h +:+ "@" +:+ Py.str fps +:+ "fps".

(* ===================================================================== *)
(** * The encoder options                                                 *)
(* ===================================================================== *)

(** A value of the options dictionary handed to [WriteGear]. *)
Inductive OptVal : Type :=
| VStr (s : string)
| VInt (n : Z).

(** The dictionary [options] of [start_record], with the quality entry the
    codec selects. *)
Definition encoder_options (codec : string) (quality f : Z) : gmap string OptVal :=
  let options : gmap string OptVal :=
    <["-input_framerate" := VInt f]>
    (<["-movflags" := VStr "+faststart"]>
    (<["-pix_fmt" := VStr "yuv420p"]>
    (<["-preset" := VStr "medium"]>
    (<["-vcodec" := VStr codec]> ∅)))) in
  if String.eqb codec "libx264" then <["-crf" := VStr (Py.str quality)]> options
  else if String.eqb codec "h264_qsv" then <["-global_quality" := VStr (Py.str quality)]> options
  else options.

(** The test of the parameters in [start_record]: [true] when the
    [ValueError] is raised. *)
Definition bad_parameters (w h f dur : Z) (out : string) : bool :=
  (w <=? 0) || (h <=? 0) || (f <=? 0) || (dur <=? 0)
  || negb (Py.endswith (Py.lower out) EXT).

(** [os.path.join(target_dir, name)] for a relative [name] (Windows rules:
    no separator is added after a separator or a drive colon). *)
Definition path_join (target_dir name : string) : string :=
  match String.get (Nat.pred (String.length target_dir)) target_dir with
  | None => name
  | Some c =>
      if Ascii.eqb c "\"%char || Ascii.eqb c "/"%char || Ascii.eqb c ":"%char
      then target_dir +:+ name
      else target_dir +:+ "\" +:+ name
  end.

(* ===================================================================== *)
(** * The application                                                     *)
(* ===================================================================== *)

Inductive Exn : Type :=
| ValueError | TclError | AttributeError | UnboundLocalError
| ZeroDivisionError | RuntimeError | OSError | CvError.

Inductive Result (A : Type) : Type :=
| Ok (a : A)
| Raised (e : Exn).
Arguments Ok {A} a.
Arguments Raised {A} e.

(** The two consumers of frames. *)
Inductive Sink : Type := Preview | Recording.

Inductive Dialog : Type :=
| ErrDeviceNotFound      (* showerror: the selected device is not found *)
| ErrBadParameters       (* showerror: the parameters are invalid *)
| ErrRecordStart         (* showerror: the recording could not start *)
| InfoRecordStopped.     (* showinfo: the recording was stopped *)

(** What an observer of the program sees. [EvFilters] is a ghost event: one
    per call of [filters]. *)
Inductive Event : Type :=
| EvRead (by_ : Sink) (frame : option Mat)                  (* stream.read() *)
| EvFilters (by_ : Sink) (input : Mat) (fl : Flags) (result : Mat)
| EvShow (frame image : Mat)        (* the filtered frame drawn as image *)
| EvOpen (out : string) (options : gmap string OptVal)      (* WriteGear(...) *)
| EvWrite (frame : Mat)                                     (* writer.write *)
| EvClose                                                   (* writer.close *)
| EvDialog (d : Dialog).

(** A [CamGear] stream in queue mode: [read] hands out each frame once. *)
Record CamGear : Type := {
  source : nat;
  cam_size : Z * Z;
  cam_fps : Z;
  pending : list Mat          (* the frames the camera still delivers *)
}.

Definition set_pending (v : list Mat) (c : CamGear) : CamGear :=
  {| source := source c; cam_size := cam_size c; cam_fps := cam_fps c; pending := v |}.

(** A [WriteGear] encoder sink. *)
Record WriteGear : Type := {
  w_output : string;
  w_options : gmap string OptVal;
  w_frames : list Mat;        (* frames written, oldest first *)
  w_closes : nat              (* how many times close() was called *)
}.

Definition wg_write (frame : Mat) (g : WriteGear) : WriteGear :=
  {| w_output := w_output g; w_options := w_options g;
     w_frames := w_frames g ++ [frame]; w_closes := w_closes g |}.

Definition wg_close (g : WriteGear) : WriteGear :=
  {| w_output := w_output g; w_options := w_options g;
     w_frames := w_frames g; w_closes := S (w_closes g) |}.

(** A background thread: the preview loop, or the record loop with its
    arguments and, once it has started, its [start_time]. *)
Inductive Thread : Type :=
| PreviewLoop
| RecordLoop (start_time : option Z) (w h dur : Z).

(** The attributes of the [RecorderApp] object the core reads and writes. *)
Record RecorderApp : Type := {
  CODEC : string;                 (* the codec resolved at construction *)
  devices : option (list string); (* attribute devices: unset until the list is refreshed *)
  device_menu : string;           (* the device name selected in the box *)
  resolution_var : string;        (* the text of the resolution box *)
  fps : Z;
  duration : option Z;            (* what duration.get() returns; None: it raises *)
  output : string;
  quality : Z;
  save_dir_var : string;
  toggles : Flags;                (* the BooleanVars filter, gray_mode, clahe_color, clahe_l *)
  recording : bool;
  previewing : bool;
  stream : option CamGear;
  writer : option WriteGear;
  latest_frame : option Mat;
  canvas : Z * Z;                 (* configured size of the preview canvas *)
  start_btn : bool;               (* the two buttons: true when enabled *)
  stop_btn : bool;
  destroyed : bool                (* the window is destroyed: every Tk call raises *)
}.

Definition set_fps (v : Z) (a : RecorderApp) : RecorderApp :=
  {| CODEC := CODEC a; devices := devices a; device_menu := device_menu a;
     resolution_var := resolution_var a; fps := v; duration := duration a;
     output := output a; quality := quality a; save_dir_var := save_dir_var a;
     toggles := toggles a; recording := recording a; previewing := previewing a;
     stream := stream a; writer := writer a; latest_frame := latest_frame a;
     canvas := canvas a; start_btn := start_btn a; stop_btn := stop_btn a;
     destroyed := destroyed a |}.

Definition set_output (v : string) (a : RecorderApp) : RecorderApp :=
  {| CODEC := CODEC a; devices := devices a; device_menu := device_menu a;
     resolution_var := resolution_var a; fps := fps a; duration := duration a;
     output := v; quality := quality a; save_dir_var := save_dir_var a;
     toggles := toggles a; recording := recording a; previewing := previewing a;
     stream := stream a; writer := writer a; latest_frame := latest_frame a;
     canvas := canvas a; start_btn := start_btn a; stop_btn := stop_btn a;
     destroyed := destroyed a |}.

Definition set_toggles (v : Flags) (a : RecorderApp) : RecorderApp :=
  {| CODEC := CODEC a; devices := devices a; device_menu := device_menu a;
     resolution_var := resolution_var a; fps := fps a; duration := duration a;
     output := output a; quality := quality a; save_dir_var := save_dir_var a;
     toggles := v; recording := recording a; previewing := previewing a;
     stream := stream a; writer := writer a; latest_frame := latest_frame a;
     canvas := canvas a; start_btn := start_btn a; stop_btn := stop_btn a;
     destroyed := destroyed a |}.

Definition set_recording (v : bool) (a : RecorderApp) : RecorderApp :=
  {| CODEC := CODEC a; devices := devices a; device_menu := device_menu a;
     resolution_var := resolution_var a; fps := fps a; duration := duration a;
     output := output a; quality := quality a; save_dir_var := save_dir_var a;
     toggles := toggles a; recording := v; previewing := previewing a;
     stream := stream a; writer := writer a; latest_frame := latest_frame a;
     canvas := canvas a; start_btn := start_btn a; stop_btn := stop_btn a;
     destroyed := destroyed a |}.

Definition set_previewing (v : bool) (a : RecorderApp) : RecorderApp :=
  {| CODEC := CODEC a; devices := devices a; device_menu := device_menu a;
     resolution_var := resolution_var a; fps := fps a; duration := duration a;
     output := output a; quality := quality a; save_dir_var := save_dir_var a;
     toggles := toggles a; recording := recording a; previewing := v;
     stream := stream a; writer := writer a; latest_frame := latest_frame a;
     canvas := canvas a; start_btn := start_btn a; stop_btn := stop_btn a;
     destroyed := destroyed a |}.

Definition set_stream (v : option CamGear) (a : RecorderApp) : RecorderApp :=
  {| CODEC := CODEC a; devices := devices a; device_menu := device_menu a;
     resolution_var := resolution_var a; fps := fps a; duration := duration a;
     output := output a; quality := quality a; save_dir_var := save_dir_var a;
     toggles := toggles a; recording := recording a; previewing := previewing a;
     stream := v; writer := writer a; latest_frame := latest_frame a;
     canvas := canvas a; start_btn := start_btn a; stop_btn := stop_btn a;
     destroyed := destroyed a |}.

Definition set_writer (v : option WriteGear) (a : RecorderApp) : RecorderApp :=
  {| CODEC := CODEC a; devices := devices a; device_menu := device_menu a;
     resolution_var := resolution_var a; fps := fps a; duration := duration a;
     output := output a; quality := quality a; save_dir_var := save_dir_var a;
     toggles := toggles a; recording := recording a; previewing := previewing a;
     stream := stream a; writer := v; latest_frame := latest_frame a;
     canvas := canvas a; start_btn := start_btn a; stop_btn := stop_btn a;
     destroyed := destroyed a |}.

Definition set_latest_frame (v : option Mat) (a : RecorderApp) : RecorderApp :=
  {| CODEC := CODEC a; devices := devices a; device_menu := device_menu a;
     resolution_var := resolution_var a; fps := fps a; duration := duration a;
     output := output a; quality := quality a; save_dir_var := save_dir_var a;
     toggles := toggles a; recording := recording a; previewing := previewing a;
     stream := stream a; writer := writer a; latest_frame := v; canvas := canvas a;
     start_btn := start_btn a; stop_btn := stop_btn a; destroyed := destroyed a |}.

Definition set_canvas (v : Z * Z) (a : RecorderApp) : RecorderApp :=
  {| CODEC := CODEC a; devices := devices a; device_menu := device_menu a;
     resolution_var := resolution_var a; fps := fps a; duration := duration a;
     output := output a; quality := quality a; save_dir_var := save_dir_var a;
     toggles := toggles a; recording := recording a; previewing := previewing a;
     stream := stream a; writer := writer a; latest_frame := latest_frame a;
     canvas := v; start_btn := start_btn a; stop_btn := stop_btn a;
     destroyed := destroyed a |}.

Definition set_start_btn (v : bool) (a : RecorderApp) : RecorderApp :=
  {| CODEC := CODEC a; devices := devices a; device_menu := device_menu a;
     resolution_var := resolution_var a; fps := fps a; duration := duration a;
     output := output a; quality := quality a; save_dir_var := save_dir_var a;
     toggles := toggles a; recording := recording a; previewing := previewing a;
     stream := stream a; writer := writer a; latest_frame := latest_frame a;
     canvas := canvas a; start_btn := v; stop_btn := stop_btn a;
     destroyed := destroyed a |}.

Definition set_stop_btn (v : bool) (a : RecorderApp) : RecorderApp :=
  {| CODEC := CODEC a; devices := devices a; device_menu := device_menu a;
     resolution_var := resolution_var a; fps := fps a; duration := duration a;
     output := output a; quality := quality a; save_dir_var := save_dir_var a;
     toggles := toggles a; recording := recording a; previewing := previewing a;
     stream := stream a; writer := writer a; latest_frame := latest_frame a;
     canvas := canvas a; start_btn := start_btn a; stop_btn := v;
     destroyed := destroyed a |}.

Definition set_destroyed (v : bool) (a : RecorderApp) : RecorderApp :=
  {| CODEC := CODEC a; devices := devices a; device_menu := device_menu a;
     resolution_var := resolution_var a; fps := fps a; duration := duration a;
     output := output a; quality := quality a; save_dir_var := save_dir_var a;
     toggles := toggles a; recording := recording a; previewing := previewing a;
     stream := stream a; writer := writer a; latest_frame := latest_frame a;
     canvas := canvas a; start_btn := start_btn a; stop_btn := stop_btn a;
     destroyed := v |}.

(** The running program: the application object, the machine, the clock,
    the background threads and the trace of observable events. *)
Record Sys : Type := {
  app : RecorderApp;
  world : World;
  clock : Z;                      (* wall clock, in milliseconds *)
  threads : list Thread;          (* the background threads alive *)
  trace : list Event              (* what happened so far, oldest first *)
}.

Definition set_app (v : RecorderApp) (s : Sys) : Sys :=
  {| app := v; world := world s; clock := clock s; threads := threads s;
     trace := trace s |}.

Definition set_world (v : World) (s : Sys) : Sys :=
  {| app := app s; world := v; clock := clock s; threads := threads s;
     trace := trace s |}.

Definition set_clock (v : Z) (s : Sys) : Sys :=
  {| app := app s; world := world s; clock := v; threads := threads s;
     trace := trace s |}.

Definition set_threads (v : list Thread) (s : Sys) : Sys :=
  {| app := app s; world := world s; clock := clock s; threads := v;
     trace := trace s |}.

Definition set_trace (v : list Event) (s : Sys) : Sys :=
  {| app := app s; world := world s; clock := clock s; threads := threads s;
     trace := v |}.

(** What the program is given by its surroundings and does not change. *)
Record Env : Type := {
  camera : nat -> option (list Mat);   (* the frames of device idx; None: it does not open *)
  strftime : Z -> string;              (* the timestamp text at a clock value *)
  abspath : string -> string;
  makedirs_ok : string -> bool;        (* the folder exists or can be created *)
  writegear_ok : string -> bool;       (* WriteGear can be constructed for the path *)
  winfo : Z * Z -> Z * Z               (* realised canvas size for a configured size *)
}.

(** An action of the program: it may raise, and it changes the state. *)
Definition Act (A : Type) : Type := Sys -> Result A * Sys.

Global Instance Act_ret : MRet Act := fun A a s => (Ok a, s).
Global Instance Act_bind : MBind Act :=
  fun A B f m s =>
    match m s with
    | (Ok a, s') => f a s'
    | (Raised e, s') => (Raised e, s')
    end.

Definition raise {A : Type} (e : Exn) : Act A := fun s => (Raised e, s).

(** [try: body  except Exception: handler]. *)
Definition try_except {A : Type} (body : Act A) (handler : Exn -> Act A) : Act A :=
  fun s =>
    match body s with
    | (Ok a, s') => (Ok a, s')
    | (Raised e, s') => handler e s'
    end.

Definition get_app : Act RecorderApp := fun s => (Ok (app s), s).

Definition update (f : RecorderApp -> RecorderApp) : Act unit :=
  fun s => (Ok tt, set_app (f (app s)) s).

Definition emit (ev : Event) : Act unit :=
  fun s => (Ok tt, set_trace (trace s ++ [ev]) s).

Definition in_world {A : Type} (m : St World A) : Act A :=
  fun s => let '(a, w) := m (world s) in (Ok a, set_world w s).

Definition time_ms : Act Z := fun s => (Ok (clock s), s).

Definition spawn (t : Thread) : Act unit :=
  fun s => (Ok tt, set_threads (threads s ++ [t]) s).

(** Any call into Tk (a widget method, a variable read): it raises once the
    window is destroyed. *)
Definition tk_call : Act unit :=
  a ← get_app;
  if destroyed a then raise TclError else mret tt.

Definition messagebox (d : Dialog) : Act unit :=
  _ ← tk_call; emit (EvDialog d).

(** [l.index(x)]. *)
Fixpoint index_of (x : string) (l : list string) : option nat :=
  match l with
  | [] => None
  | y :: rest => if String.eqb y x then Some 0%nat else S <$> index_of x rest
  end.

Section Program.
Context {cv : Cv2} (env : Env).

(** [RecorderApp.start_preview]. *)
Definition start_preview : Act unit :=
  a ← get_app;
  let selected_name := device_menu a in
  devices ← match devices a with
            | Some (d :: ds) => mret (d :: ds)
            | _ => in_world detect_devices
            end;
  match index_of selected_name devices with
  | None => messagebox ErrDeviceNotFound
  | Some idx =>
      let parsed := parse_resolution (resolution_var a) in
      _ ← match parsed with
          | Some (_, _, fps) => update (set_fps fps)
          | None => mret tt
          end;
      let '(w, h) := match parsed with
                     | Some (w, h, _) => (w, h)
                     | None => (640, 480)
                     end in
      match parsed with
      | None => raise UnboundLocalError          (* fps was never assigned *)
      | Some (_, _, fps) =>
          match camera env idx with
          | None => raise RuntimeError
          | Some frames =>
              _ ← update (set_stream (Some {| source := idx; cam_size := (w, h);
                                              cam_fps := fps; pending := frames |}));
              _ ← update (set_previewing true);
              _ ← tk_call;
              match preview_canvas_size w h with
              | None => raise ZeroDivisionError
              | Some size =>
                  _ ← tk_call;
                  _ ← update (set_canvas size);
                  spawn PreviewLoop
              end
          end
      end
  end.

(** [self.stream.read()], by the loop of sink [by_]. *)
Definition read_stream (by_ : Sink) : Act (option Mat) :=
  a ← get_app;
  match stream a with
  | None => raise AttributeError
  | Some cam =>
      match pending cam with
      | [] => _ ← emit (EvRead by_ None); mret None
      | frame :: rest =>
          _ ← update (set_stream (Some (set_pending rest cam)));
          _ ← emit (EvRead by_ (Some frame));
          mret (Some frame)
      end
  end.

(** [filters(frame, vascular=self.filter.get(), ...)], by the loop of sink
    [by_]. *)
Definition apply_filters (by_ : Sink) (frame : Mat) : Act Mat :=
  _ ← tk_call;
  a ← get_app;
  match filters_frame frame (toggles a) with
  | None => raise CvError
  | Some result => _ ← emit (EvFilters by_ frame (toggles a) result); mret result
  end.

(** One turn of the [while] of [preview_loop]; [None] when the loop is
    left. *)
Definition preview_loop : Act (option Thread) :=
  a ← get_app;
  if negb (previewing a) then mret None else
  frame ← read_stream Preview;
  match frame with
  | None => mret None
  | Some frame =>
      frame ← apply_filters Preview frame;
      _ ← tk_call;
      a ← get_app;
      let pv := cv_resize frame (winfo env (canvas a)) in
      let image := cvtColor pv COLOR_BGR2RGB in
      _ ← update (set_latest_frame (Some image));
      _ ← tk_call;
      _ ← emit (EvShow frame image);
      mret (Some PreviewLoop)
  end.

(** [RecorderApp.stop_preview]. *)
Definition stop_preview : Act unit :=
  _ ← update (set_previewing false);
  _ ← tk_call;
  _ ← update (set_stream None);
  tk_call.

(** [RecorderApp.stop_record]. *)
Definition stop_record : Act unit :=
  _ ← update (set_recording false);
  _ ← tk_call;
  _ ← update (set_start_btn true);
  _ ← update (set_stop_btn false);
  a ← get_app;
  _ ← match writer a with
      | Some g => _ ← update (set_writer (Some (wg_close g))); emit EvClose
      | None => mret tt
      end;
  messagebox InfoRecordStopped.

(** The outer [try] of [start_record]: the parameters are read and tested. *)
Definition check_parameters : Act (Z * Z * Z * Z * string * Z) :=
  a ← get_app;
  let parsed := parse_resolution (resolution_var a) in
  '(w, h) ← match parsed with
            | Some (w, h, fps) => _ ← update (set_fps fps); mret (w, h)
            | None => mret (640, 480)
            end;
  a ← get_app;
  let f := fps a in
  dur ← match duration a with
        | Some d => mret d
        | None => raise TclError
        end;
  let out := Py.strip (output a) in
  let quality := quality a in
  if bad_parameters w h f dur out then raise ValueError
  else mret (w, h, f, dur, out, quality).

(** [RecorderApp.start_record] from the construction of the options on. *)
Definition begin_record (p : Z * Z * Z * Z * string * Z) : Act unit :=
  let '(w, h, f, dur, out, quality) := p in
  a ← get_app;
  let options := encoder_options (CODEC a) quality f in
  _ ← (if previewing a then mret tt else start_preview);
  opened ← try_except (A := bool)
             (if writegear_ok env out then
                _ ← update (set_writer (Some {| w_output := out; w_options := options;
                                                w_frames := []; w_closes := 0%nat |}));
                _ ← emit (EvOpen out options);
                mret true
              else raise RuntimeError)
             (fun _ => _ ← messagebox ErrRecordStart; mret false);
  if (opened : bool) then
    _ ← update (set_recording true);
    _ ← update (set_start_btn false);
    _ ← update (set_stop_btn true);
    spawn (RecordLoop None w h dur)
  else mret tt.

(** [RecorderApp.start_record]. *)
Definition start_record : Act unit :=
  t ← time_ms;
  let now := strftime env t in
  a ← get_app;
  let target_dir := abspath env (save_dir_var a) in
  _ ← (if makedirs_ok env target_dir then mret tt else raise OSError);
  let output_path := path_join target_dir (now +:+ EXT) in
  _ ← update (set_output output_path);
  checked ← try_except (A := option (Z * Z * Z * Z * string * Z))
                       (p ← check_parameters; mret (Some p))
                       (fun _ => _ ← messagebox ErrBadParameters; mret None);
  match checked with
  | None => mret tt
  | Some p => begin_record p
  end.

(** One turn of the [while] of [record_loop]; [None] when the loop is left
    and [stop_record] has run. *)
Definition record_loop (start_time : option Z) (w h dur : Z) : Act (option Thread) :=
  t ← time_ms;
  let start_time := default t start_time in
  a ← get_app;
  if recording a && (t - start_time <? dur * 1000) then
    frame ← read_stream Recording;
    match frame with
    | None => _ ← stop_record; mret None
    | Some frame =>
        frame ← apply_filters Recording frame;
        a ← get_app;
        match writer a with
        | None => raise AttributeError
        | Some g =>
            _ ← update (set_writer (Some (wg_write frame g)));
            _ ← emit (EvWrite frame);
            mret (Some (RecordLoop (Some start_time) w h dur))
        end
    end
  else _ ← stop_record; mret None.

(** [RecorderApp.toggle_preview]. *)
Definition toggle_preview : Act unit :=
  a ← get_app;
  if previewing a then stop_preview else start_preview.

(** [RecorderApp.on_close]. *)
Definition on_close : Act unit :=
  a ← get_app;
  _ ← (if recording a then stop_record else mret tt);
  a ← get_app;
  _ ← (if previewing a then stop_preview else mret tt);
  update (set_destroyed true).

(** What can happen next: the user acts on the window, a background thread
    runs one turn of its loop, or time passes. *)
Inductive Action : Type :=
| PressPreview
| PressStart
| PressStop
| CloseWindow
| SetToggles (fl : Flags)
| Step (i : nat)
| Tick (ms : Z).

Definition run_thread (t : Thread) : Act (option Thread) :=
  match t with
  | PreviewLoop => preview_loop
  | RecordLoop start_time w h dur => record_loop start_time w h dur
  end.

(** A callback of the window: an exception it raises is reported by Tk and
    the program goes on. *)
Definition callback (m : Act unit) (s : Sys) : Sys := snd (m s).

(** One step of the program. The window takes no input once destroyed, and
    a disabled button does nothing. A thread that leaves its loop, or dies
    of an exception, is removed. *)
Definition exec (act : Action) (s : Sys) : Sys :=
  match act with
  | PressPreview =>
      if destroyed (app s) then s else callback toggle_preview s
  | PressStart =>
      if destroyed (app s) || negb (start_btn (app s)) then s
      else callback start_record s
  | PressStop =>
      if destroyed (app s) || negb (stop_btn (app s)) then s
      else callback stop_record s
  | CloseWindow =>
      if destroyed (app s) then s else callback on_close s
  | SetToggles fl =>
      if destroyed (app s) then s else set_app (set_toggles fl (app s)) s
  | Step i =>
      match threads s !! i with
      | None => s
      | Some t =>
          match run_thread t s with
          | (Ok (Some t'), s') => set_threads (<[i := t']> (threads s')) s'
          | (_, s') => set_threads (delete i (threads s')) s'
          end
      end
  | Tick ms => set_clock (clock s + Z.max 0 ms) s
  end.

Definition run (acts : list Action) (s : Sys) : Sys :=
  fold_left (fun s act => exec act s) acts s.

End Program.

(** [RecorderApp.__init__]: the codec is resolved, then the widgets are
    built, which probes the devices and the modes of the first device. *)
Definition init (w : World) : Sys :=
  let '(codec, w) := select_codec w in
  let '(_, w) := detect_devices w in
  let '(names, w) := detect_devices w in
  let '(resolutions, w) := get_supported_resolutions 0 w in
  let '(_, w) := detect_devices w in
  {| app := {| CODEC := codec; devices := None;
               device_menu := hd EmptyString names;
               resolution_var := match resolutions with
                                 | r :: _ => format_resolution r
                                 | [] => EmptyString
                                 end;
               fps := 30; duration := Some 60; output := EmptyString; quality := 23;
               save_dir_var := DEFAULT_SAVE_DIR; toggles := no_flags;
               recording := false; previewing := false; stream := None;
               writer := None; latest_frame := None;
               canvas := (PREVIEW_WIDTH, PREVIEW_HEIGHT);
               start_btn := true; stop_btn := false; destroyed := false |};
     world := w; clock := 0; threads := []; trace := [] |}.

(** ** Readings of a trace *)

Definition sink_eqb (a b : Sink) : bool :=
  match a, b with
  | Preview, Preview => true
  | Recording, Recording => true
  | _, _ => false
  end.

(** The frames the loop of sink [k] pulled from the stream. *)
Definition pulled_by (k : Sink) (tr : list Event) : list Mat :=
  omap (fun ev => match ev with
                  | EvRead k' (Some f) => if sink_eqb k k' then Some f else None
                  | _ => None
                  end) tr.

(** The inputs and the results of the calls of [filters] made by the loop
    of sink [k]. *)
Definition filter_inputs (k : Sink) (tr : list Event) : list Mat :=
  omap (fun ev => match ev with
                  | EvFilters k' f _ _ => if sink_eqb k k' then Some f else None
                  | _ => None
                  end) tr.

Definition filter_results (k : Sink) (tr : list Event) : list Mat :=
  omap (fun ev => match ev with
                  | EvFilters k' _ _ r => if sink_eqb k k' then Some r else None
                  | _ => None
                  end) tr.

(** The frames delivered to the preview, and to the encoder. *)
Definition shown (tr : list Event) : list Mat :=
  omap (fun ev => match ev with EvShow f _ => Some f | _ => None end) tr.

Definition written (tr : list Event) : list Mat :=
  omap (fun ev => match ev with EvWrite f => Some f | _ => None end) tr.

Definition delivered (k : Sink) (tr : list Event) : list Mat :=
  match k with
  | Preview => shown tr
  | Recording => written tr
  end.

Definition closes (tr : list Event) : nat :=
  length (omap (fun ev => match ev with EvClose => Some tt | _ => None end) tr).

Definition dialogs (tr : list Event) : list Dialog :=
  omap (fun ev => match ev with EvDialog d => Some d | _ => None end) tr.

Definition opens (tr : list Event) : nat :=
  length (omap (fun ev => match ev with EvOpen _ _ => Some tt | _ => None end) tr).

(** In a trace, each loop filtered exactly the frames it pulled, in order,
    and the results of its calls of [filters] are exactly the frames its own
    sink received, in order. *)
Definition balanced (tr : list Event) : Prop :=
  forall k, pulled_by k tr = filter_inputs k tr /\ filter_results k tr = delivered k tr.

(** An event that moves no frame. *)
Definition is_control (ev : Event) : Prop :=
  match ev with
  | EvRead _ (Some _) => False
  | EvFilters _ _ _ _ => False
  | EvShow _ _ => False
  | EvWrite _ => False
  | _ => True
  end.

(* ===================================================================== *)
(** * Notions used by the statements                                      *)
(* ===================================================================== *)

(** The answer of the device query of [detect_devices], as the code sees
    it: [None] when [subprocess.run] raised. *)
Definition device_query (w : World) : option CompletedProcess :=
  let '(ffmpeg_cmd, w1) := get_ffmpeg_path w in
  fst (subprocess_run true ffmpeg_cmd list_devices_args w1).

(** A command of the codec probe: the encoder listing or the smoke
    encode. *)
Definition is_codec_probe (argv : list string) : bool :=
  match argv with
  | _ :: a :: b :: _ =>
      String.eqb a "-hide_banner" && String.eqb b "-encoders"
      || String.eqb a "-f" && String.eqb b "lavfi"
  | _ => false
  end.

Definition codec_probes (w : World) : list (list string) :=
  List.filter is_codec_probe (ran w).

(** The entries of the options dictionary that do not depend on the
    codec choice. *)
Definition base_keys : gset string :=
  {[ "-vcodec"; "-preset"; "-pix_fmt"; "-movflags"; "-input_framerate" ]}.

(** A string that starts with a decimal digit. *)
Definition digit_led (s : string) : Prop :=
  exists c rest, s = String c rest /\ Py.isdigit c = true.

Definition nonneg_mode (t : Z * Z * Z) : Prop :=
  let '(w, h, fps) := t in 0 <= w /\ 0 <= h /\ 0 <= fps.

(** [m], run from the store [h], returns; it only adds buffers to the
    store; its result and the final store satisfy [Q]. *)
Definition returns {A : Type} (m : Cv A) (h : gmap nat Obj)
    (Q : A -> gmap nat Obj -> Prop) : Prop :=
  exists a h', m h = Some (a, h') /\ h ⊆ h' /\ Q a h'.

Definition is_umat (h : gmap nat Obj) (l : nat) : Prop :=
  exists m, h !! l = Some (UMat m).

(** [m] relates every state to the state it leaves, also when it raises. *)
Definition keeps {A : Type} (R : relation Sys) (m : Act A) : Prop :=
  forall s, R s (snd (m s)).

Definition same_codec : relation Sys :=
  fun s s' => CODEC (app s') = CODEC (app s).

Definition same_probes : relation Sys :=
  fun s s' => codec_probes (world s') = codec_probes (world s).

(** The trace grew by events that move no frame. *)
Definition control_only : relation Sys :=
  fun s s' => exists tr, trace s' = trace s ++ tr /\ Forall is_control tr.

(** The session is untouched: same recording flag, same writer, and the
    window is as alive as before. *)
Definition same_session : relation Sys :=
  fun s s' =>
    recording (app s') = recording (app s) /\
    writer (app s') = writer (app s) /\
    destroyed (app s') = destroyed (app s).

(** Activity only settles: no flag is raised, and a writer once set stays
    set. *)
Definition settles : relation Sys :=
  fun s s' =>
    (previewing (app s') = true -> previewing (app s) = true) /\
    (recording (app s') = true -> recording (app s) = true) /\
    (is_Some (writer (app s)) -> is_Some (writer (app s'))).

(** The window is as alive as before. *)
Definition same_window : relation Sys :=
  fun s s' => destroyed (app s') = destroyed (app s).

(** A destroyed window has no active loop. *)
Definition quiet_when_destroyed (s : Sys) : Prop :=
  destroyed (app s) = true -> previewing (app s) = false /\ recording (app s) = false.

(** A recording in progress has a writer. *)
Definition writer_ready (s : Sys) : Prop :=
  recording (app s) = true -> is_Some (writer (app s)).

Definition Inv (s : Sys) : Prop :=
  quiet_when_destroyed s /\ writer_ready s /\ balanced (trace s).

(** [m] preserves the invariant [I], also when it raises. *)
Definition preserves {A : Type} (I : Sys -> Prop) (m : Act A) : Prop :=
  forall s, I s -> I (snd (m s)).

(** The path [start_record] gives the new file. *)
Definition output_path (env : Env) (s : Sys) : string :=
  path_join (abspath env (save_dir_var (app s))) (strftime env (clock s) +:+ EXT).

(** The values [start_record] tests, read from the application once the
    output path is set; [None] when the duration box can not be read. *)
Definition parameters_read (a : RecorderApp) (output_path : string)
  : option (Z * Z * Z * Z * string * Z) :=
  let parsed := parse_resolution (resolution_var a) in
  let '(w, h) := match parsed with
                 | Some (w, h, _) => (w, h)
                 | None => (640, 480)
                 end in
  let f := match parsed with
           | Some (_, _, fps) => fps
           | None => fps a
           end in
  match duration a with
  | Some dur => Some (w, h, f, dur, Py.strip output_path, quality a)
  | None => None
  end.

(** The capture sizes of the usual 4:3 and 16:9 camera modes. *)
Definition standard_modes : list (Z * Z) :=
  [(160, 120); (320, 240); (640, 480); (800, 600); (1024, 768); (1280, 960);
   (1600, 1200); (640, 360); (1280, 720); (1920, 1080); (2560, 1440); (3840, 2160)].

(* ===================================================================== *)
(** * Concrete machines, for the examples                                 *)
(* ===================================================================== *)

Definition quoted (s : string) : string :=
  String quote (s +:+ String quote EmptyString).

(** A line of the device listing of the capture backend. *)
Definition device_line (name : string) : string :=
  "[dshow @ 0a]  " +:+ quoted name +:+ " (video)".

(** A line of the option listing of the capture backend. *)
Definition mode_line (size rate : string) : string :=
  "[dshow @ 0a]   vcodec=mjpeg  min s=" +:+ size +:+ " fps=5 max s=" +:+ size
  +:+ " fps=" +:+ rate.

(** A machine with ffmpeg on the path and one camera, [Cam A]: the encoder
    listing prints [encoders], the option listing prints [modes] (and exits
    with an error, as ffmpeg does after listing), the smoke encode leaves a
    file of [smoke_size] bytes. *)
Definition dshow_machine (encoders modes : string) (smoke_size : Z) : World :=
  {| ffmpeg_lookup := Some "ffmpeg";
     ffmpeg_path_attr := None;
     backend := fun _ argv =>
       if String.eqb (nth 2 argv EmptyString) "-encoders"
       then Exited 0 encoders EmptyString
       else if String.eqb (nth 4 argv EmptyString) "-list_devices"
       then Exited 0 EmptyString (device_line "Cam A")
       else if String.eqb (nth 4 argv EmptyString) "-list_options"
       then Exited 1 EmptyString modes
       else Exited 0 EmptyString EmptyString;
     fs := fun _ => {| mktemp := Some "tmp0.mp4"; out_size := Some smoke_size;
                       remove_ok := true |};
     ran := [] |}.

(** The same machine, on which the hardware encoder disappears from the
    encoder listing after the first two commands. *)
Definition unplugged_machine : World :=
  {| ffmpeg_lookup := Some "ffmpeg";
     ffmpeg_path_attr := None;
     backend := fun n argv =>
       if String.eqb (nth 2 argv EmptyString) "-encoders" then
         if (n <? 2)%nat
         then Exited 0 " V..... h264_qsv  H.264 (Intel Quick Sync)" EmptyString
         else Exited 0 " V..... libx264  H.264" EmptyString
       else Exited 0 EmptyString EmptyString;
     fs := fun _ => {| mktemp := Some "tmp0.mp4"; out_size := Some 2048;
                       remove_ok := true |};
     ran := [] |}.

(** A frame of one pixel. *)
Definition pixel (b : Byte.byte) : Mat :=
  {| rows := 1; cols := 1; channels := 3; data := [b; b; b] |}.

(** Surroundings in which every camera delivers [frames] and every folder
    and encoder can be opened. *)
Definition studio (frames : list Mat) : Env :=
  {| camera := fun _ => Some frames;
     strftime := fun _ => "20250101_120000";
     abspath := fun d => "C:\clickrec\" +:+ d;
     makedirs_ok := fun _ => true;
     writegear_ok := fun _ => true;
     winfo := fun size => size |}.

(** An OpenCV whose operations hand back their first argument; it serves in
    examples where no filter is switched on. *)
Definition plain_cv2 : Cv2 :=
  {| cvtColor := fun m _ => m;
     cv_split := fun m => (m, m, m);
     cv_merge := fun a _ _ => a;
     clahe_apply := fun _ _ m => m;
     GaussianBlur := fun m _ _ => m;
     addWeighted := fun m _ _ _ _ => m;
     cv_compare := fun m _ _ => m;
     bitwise_and := fun m _ => m;
     bitwise_or := fun m _ => m;
     bitwise_not := fun m => m;
     cv_min := fun m _ => m;
     cv_max := fun m _ => m;
     cv_resize := fun m _ => m |}.

(** The program just started on a machine whose camera offers one mode. *)
Definition started (size rate : string) : Sys :=
  init (dshow_machine " V..... libx264  H.264" (mode_line size rate) 0).

(* ===================================================================== *)
(** * More of the window: the lists, the timer, the log                    *)
(* ===================================================================== *)

Definition set_devices (v : option (list string)) (a : RecorderApp) : RecorderApp :=
  {| CODEC := CODEC a; devices := v; device_menu := device_menu a;
     resolution_var := resolution_var a; fps := fps a; duration := duration a;
     output := output a; quality := quality a; save_dir_var := save_dir_var a;
     toggles := toggles a; recording := recording a; previewing := previewing a;
     stream := stream a; writer := writer a; latest_frame := latest_frame a;
     canvas := canvas a; start_btn := start_btn a; stop_btn := stop_btn a;
     destroyed := destroyed a |}.

Definition set_device_menu (v : string) (a : RecorderApp) : RecorderApp :=
  {| CODEC := CODEC a; devices := devices a; device_menu := v;
     resolution_var := resolution_var a; fps := fps a; duration := duration a;
     output := output a; quality := quality a; save_dir_var := save_dir_var a;
     toggles := toggles a; recording := recording a; previewing := previewing a;
     stream := stream a; writer := writer a; latest_frame := latest_frame a;
     canvas := canvas a; start_btn := start_btn a; stop_btn := stop_btn a;
     destroyed := destroyed a |}.

Definition set_resolution_var (v : string) (a : RecorderApp) : RecorderApp :=
  {| CODEC := CODEC a; devices := devices a; device_menu := device_menu a;
     resolution_var := v; fps := fps a; duration := duration a;
     output := output a; quality := quality a; save_dir_var := save_dir_var a;
     toggles := toggles a; recording := recording a; previewing := previewing a;
     stream := stream a; writer := writer a; latest_frame := latest_frame a;
     canvas := canvas a; start_btn := start_btn a; stop_btn := stop_btn a;
     destroyed := destroyed a |}.

(** [RecorderApp.update_device_list]: the attribute [devices] is set, the
    list is given to the device box, and the first name is selected. *)
Definition update_device_list : Act unit :=
  found ← in_world detect_devices;
  _ ← update (set_devices (Some found));
  _ ← tk_call;
  match found with
  | first :: _ => _ ← tk_call; update (set_device_menu first)
  | [] => mret tt
  end.

(** [RecorderApp.update_resolution_list]. The application record holds
    neither the entries of the resolution box nor the state of the preview
    button: the method returns the entries it gives to the box and the
    state it gives to both buttons ([true]: enabled). *)
Definition update_resolution_list : Act (list string * bool) :=
  _ ← tk_call;
  a ← get_app;
  let selected_name := device_menu a in
  found ← in_world detect_devices;
  resolutions ← match index_of selected_name found with
                | None => _ ← messagebox ErrDeviceNotFound; mret []
                | Some idx => in_world (get_supported_resolutions idx)
                end;
  let values := map format_resolution resolutions in
  _ ← tk_call;
  _ ← match values with
      | first :: _ => _ ← tk_call; update (set_resolution_var first)
      | [] => mret tt
      end;
  let enabled := match resolutions with [] => false | _ :: _ => true end in
  _ ← tk_call;
  _ ← update (set_start_btn enabled);
  _ ← tk_call;
  mret (values, enabled).

(** The countdown of the window: the attribute [remaining] ([None]: not set
    yet) and the text of the timer label. *)
Record Timer : Type := {
  remaining : option Z;
  timer_label : string
}.

(** [RecorderApp.update_timer]; the boolean says that the method scheduled
    itself again, one second later. *)
Definition update_timer (is_recording : bool) (t : Timer) : Timer * bool :=
  match remaining t with
  | Some r =>
      if is_recording && (0 <=? r)
      then ({| remaining := Some (r - 1); timer_label := Py.str r |}, true)
      else ({| remaining := Some r; timer_label := EmptyString |}, false)
  | None => ({| remaining := None; timer_label := EmptyString |}, false)
  end.

(** The chain of calls of [update_timer] that [start_record] starts, while
    the recording stays on: the state after at most [n] calls, and whether
    the chain is still scheduled. *)
Fixpoint timer_chain (n : nat) (t : Timer) : Timer * bool :=
  match n with
  | O => (t, true)
  | S k =>
      match timer_chain k t with
      | (t', true) => update_timer true t'
      | (t', false) => (t', false)
      end
  end.

(** ** The log

    [print_color] writes one line to one of the two standard streams. *)
Inductive Channel : Type := Stdout | Stderr.

Definition ESC : ascii := "027"%char.

(** The colour codes of colorama the source uses. *)
Definition LIGHTWHITE_EX : string := String ESC "[97m".
Definition LIGHTYELLOW_EX : string := String ESC "[93m".
Definition LIGHTRED_EX : string := String ESC "[91m".
Definition LIGHTCYAN_EX : string := String ESC "[96m".
Definition RESET_COLOR : string := String ESC "[0m".

(** [COLOR_MAP], in the order of its entries. *)
Definition COLOR_MAP : list (string * string) :=
  [("[info]", LIGHTWHITE_EX); ("[warning]", LIGHTYELLOW_EX);
   ("[error]", LIGHTRED_EX); ("[debug]", LIGHTCYAN_EX)].

(** The loop of [print_color] over the entries that are left. *)
Fixpoint print_color_from (levels : list (string * string)) (msg : string)
  : Channel * string :=
  match levels with
  | [] => (Stdout, msg)
  | (level, color) :: rest =>
      if String.prefix level msg
      then (if String.eqb level "[error]" then Stderr else Stdout,
            color +:+ msg +:+ RESET_COLOR)
      else print_color_from rest msg
  end.

(** [print_color(msg)]: the stream written to and the text printed, the
    line end apart. *)
Definition print_color (msg : string) : Channel * string :=
  print_color_from COLOR_MAP msg.

(** ** The chain on contents

    What each filter computes from the content of its source, with no store
    of buffers. *)
Section Contents.
Context {cv : Cv2}.

Definition gray_content (src : Mat) : Mat :=
  let gray := cvtColor src COLOR_BGR2GRAY in
  cv_merge gray gray gray.

Definition clahe_rgb_content (src : Mat) : Mat :=
  let clip := 2%float in
  let '(b_chan, g_chan, r_chan) := cv_split src in
  cv_merge (clahe_apply clip grid_size b_chan) (clahe_apply clip grid_size g_chan)
           (clahe_apply clip grid_size r_chan).

Definition clahe_l_content (src : Mat) : Mat :=
  let clip := 2%float in
  let lab := cvtColor src COLOR_BGR2LAB in
  let '(l, a, b) := cv_split lab in
  cvtColor (cv_merge (clahe_apply clip grid_size l) a b) COLOR_LAB2BGR.

Definition vascular_content (src : Mat) : Mat :=
  let clahe_clip := 2%float in
  let a_boost := 1.2%float in
  let b_boost := 1.1%float in
  let multiscale_weight := 0.5%float in
  let vessel_extra_boost := 1.3%float in
  let lab := cvtColor src COLOR_BGR2LAB in
  let '(L, A, B) := cv_split lab in
  let L_blur := GaussianBlur L (5, 5) 0%float in
  let L_eq := clahe_apply clahe_clip grid_size L_blur in
  let L_large := clahe_apply clahe_clip (fst grid_size * 2, snd grid_size * 2) L in
  let L_combined := addWeighted L_eq (1 - multiscale_weight)%float
                                L_large multiscale_weight 0%float in
  let A_boosted := addWeighted A a_boost A 0%float (128 * (1 - a_boost))%float in
  let B_boosted := addWeighted B b_boost B 0%float (128 * (1 - b_boost))%float in
  let vessel_mask_lab :=
    bitwise_and (cv_compare A_boosted 135 CMP_GT) (cv_compare L_eq 120 CMP_LT) in
  let '(_, Cr, _) := cv_split (cvtColor src COLOR_BGR2YCrCb) in
  let vessel_mask_cr := cv_compare Cr 145 CMP_GT in
  let '(Hue, Sat, _) := cv_split (cvtColor src COLOR_BGR2HSV) in
  let mask_h := bitwise_or (cv_compare Hue 10 CMP_LT) (cv_compare Hue 170 CMP_GT) in
  let vessel_mask_hsv := bitwise_and mask_h (cv_compare Sat 70 CMP_GT) in
  let vessel_mask :=
    bitwise_or (bitwise_or vessel_mask_lab vessel_mask_cr) vessel_mask_hsv in
  let vessel_extra := addWeighted A_boosted vessel_extra_boost A_boosted 0%float
                                  (128 * (1 - vessel_extra_boost))%float in
  let A_masked := bitwise_or (bitwise_and vessel_mask vessel_extra)
                             (bitwise_and (bitwise_not vessel_mask) A_boosted) in
  let zero_u := full_like A_masked Byte.x00 in
  let full_u := full_like A_masked Byte.xff in
  let A_clipped := cv_min (cv_max A_masked zero_u) full_u in
  let B_clipped := cv_min (cv_max B_boosted zero_u) full_u in
  cvtColor (cv_merge L_combined A_clipped B_clipped) COLOR_LAB2BGR.

(** The chain: the vascular filter, the colour CLAHE, the CLAHE of the
    lightness and the gray filter, in this order, each when its flag is
    set. *)
Definition filters_content (fl : Flags) (image : Mat) : Mat :=
  let image := if vascular fl then vascular_content image else image in
  let image := if clahe_color fl then clahe_rgb_content image else image in
  let image := if clahe_l fl then clahe_l_content image else image in
  if gray fl then gray_content image else image.

End Contents.

(* ===================================================================== *)
(** * Notions used by the further statements                              *)
(* ===================================================================== *)

(** A text made of decimal digits and minus signs. *)
Fixpoint numeric (s : string) : bool :=
  match s with
  | EmptyString => true
  | String c rest => (Py.isdigit c || Ascii.eqb c "-"%char) && numeric rest
  end.

Fixpoint all_digits (s : string) : bool :=
  match s with
  | EmptyString => true
  | String c rest => Py.isdigit c && all_digits rest
  end.

(** The number a text of digits denotes. *)
Fixpoint digits_value (acc : Z) (s : string) : Z :=
  match s with
  | EmptyString => acc
  | String c rest => digits_value (10 * acc + Py.digit_value c) rest
  end.

(** A text in which the character [sep] does not occur. *)
Fixpoint avoids (sep : ascii) (s : string) : bool :=
  match s with
  | EmptyString => true
  | String c rest => negb (Ascii.eqb c sep) && avoids sep rest
  end.

(** The buffer at [l] is a [cv2.UMat] of content [m]. *)
Definition holds (h : gmap nat Obj) (l : nat) (m : Mat) : Prop :=
  h !! l = Some (UMat m).

(** A line of the option listing from which [get_supported_resolutions]
    takes a mode. *)
Definition mode_line_read (line : string) : bool :=
  Py.contains "vcodec=mjpeg" line && Py.contains "fps=" line
  && bool_decide (is_Some (Re.search line)).

(** While the recording flag is set, the writer exists and was never
    closed. *)
Definition open_while_recording (s : Sys) : Prop :=
  recording (app s) = true ->
  exists g, writer (app s) = Some g /\ w_closes g = 0%nat.

(** The commands of the device query in a log of commands. *)
Definition is_device_query (argv : list string) : bool :=
  match argv with
  | _ :: args => bool_decide (args = list_devices_args)
  | [] => false
  end.

(** The machine on which the search for ffmpeg answers [v] from now on. *)
Definition set_ffmpeg_lookup (v : option string) (w : World) : World :=
  {| ffmpeg_lookup := v; ffmpeg_path_attr := ffmpeg_path_attr w;
     backend := backend w; fs := fs w; ran := ran w |}.

(** The modes the resolution box is filled from: [None] when the selected
    name is not in the device list. *)
Definition modes_offered (s : Sys) : option (list (Z * Z * Z)) :=
  let '(found, w1) := detect_devices (world s) in
  match index_of (device_menu (app s)) found with
  | None => None
  | Some idx => Some (fst (get_supported_resolutions idx w1))
  end.

(** The device list [start_preview] looks the selected name up in: the
    attribute [devices] when it is set and not empty, the answer of a new
    device query otherwise. *)
Definition devices_seen (s : Sys) : list string :=
  match devices (app s) with
  | Some (d :: ds) => d :: ds
  | _ => fst (detect_devices (world s))
  end.

(** A machine like [dshow_machine] whose encoder listing offers the
    hardware encoder. *)
Definition hardware_machine : World :=
  dshow_machine " V..... h264_qsv  H.264 (Intel Quick Sync)" EmptyString 2048.

(** The window is destroyed and no loop is flagged as running. *)
Definition closed_quiet (s : Sys) : Prop :=
  destroyed (app s) = true /\ previewing (app s) = false /\ recording (app s) = false.

(** The program of [started], with a camera of two frames, after the
    start button was pressed: the preview and the recording both run. *)
Definition recording_state : Sys :=
  run (cv := plain_cv2) (studio [pixel Byte.x01; pixel Byte.x02]) [PressStart]
      (started "640x480" "30").

(** The same, one frame and sixty seconds later. *)
Definition recording_state_late : Sys :=
  run (cv := plain_cv2) (studio [pixel Byte.x01; pixel Byte.x02])
      [PressStart; Step 1; Tick 60000] (started "640x480" "30").

(** The program of [started] with the name of a camera that is not there
    typed into the device box. *)
Definition lost_device_state : Sys :=
  set_app (set_device_menu "Cam B" (app (started "640x480" "30")))
          (started "640x480" "30").

(** A machine on which ffmpeg is not found. *)
Definition bare_machine : World :=
  {| ffmpeg_lookup := None;
     ffmpeg_path_attr := None;
     backend := fun _ _ => NotStarted;
     fs := fun _ => {| mktemp := None; out_size := None; remove_ok := false |};
     ran := [] |}.

(** The program on a machine without ffmpeg, as [init] leaves it and as it
    stays: the placeholder device, no resolution, nothing running, nothing
    reported. *)
Definition idle_without_ffmpeg (ran0 : list (list string)) (s : Sys) : Prop :=
  ffmpeg_path_attr (world s) = Some None /\ ran (world s) = ran0 /\
  CODEC (app s) = fallback_codec /\
  devices (app s) = None /\ device_menu (app s) = default_camera /\
  resolution_var (app s) = EmptyString /\
  fps (app s) = 30 /\ duration (app s) = Some 60 /\
  previewing (app s) = false /\ recording (app s) = false /\
  stream (app s) = None /\ writer (app s) = None /\
  stop_btn (app s) = false /\ threads s = [] /\ trace s = [].

(** The lines of the option listing [get_supported_resolutions] reads for
    the device of index [device_index]; [None] when the index is out of
    range or [subprocess.run] raised. *)
Definition options_listing (device_index : nat) (w : World) : option (list string) :=
  let '(ffmpeg_cmd, w1) := get_ffmpeg_path w in
  let '(found, w2) := detect_devices w1 in
  match found !! device_index with
  | None => None
  | Some device_name =>
      match fst (subprocess_run false ffmpeg_cmd (list_options_args device_name) w2) with
      | None => None
      | Some result => Some (Py.splitlines (stderr result))
      end
  end.

Definition device_queries (w : World) : list (list string) :=
  List.filter is_device_query (ran w).

(** The program of [started] with the preview on and a camera that has no
    frame to deliver. *)
Definition dry_preview_state : Sys :=
  run (cv := plain_cv2) (studio []) [PressPreview] (started "640x480" "30").

(** Surroundings like [studio], in which no encoder can be opened. *)
Definition no_encoder (frames : list Mat) : Env :=
  {| camera := fun _ => Some frames;
     strftime := fun _ => "20250101_120000";
     abspath := fun d => "C:\clickrec\" +:+ d;
     makedirs_ok := fun _ => true;
     writegear_ok := fun _ => false;
     winfo := fun size => size |}.

(** The queries a function adds, when it runs the device query [n] times
    with the executable [get_ffmpeg_path] answers. *)
Definition queries_added (w : World) (n : nat) : list (list string) :=
  match fst (get_ffmpeg_path w) with
  | Some exe => replicate n (exe :: list_devices_args)
  | None => []
  end.

(** [w'] comes after [w]: the same path of ffmpeg, and [n] more device
    queries. *)
Definition queried (n : nat) (w w' : World) : Prop :=
  fst (get_ffmpeg_path w') = fst (get_ffmpeg_path w) /\
  device_queries w' = device_queries w ++ queries_added w n.

(** The calls of [filters] made by the loop of sink [k]: the input and the
    flags of each. *)
Definition filter_calls (k : Sink) (tr : list Event) : list (Mat * Flags) :=
  omap (fun ev => match ev with
                  | EvFilters k' f fl _ => if sink_eqb k k' then Some (f, fl) else None
                  | _ => None
                  end) tr.

(** The call of [filters] an event records returned the chain of its input
    under the flags that were passed. *)
Definition filtered_by_chain {cv : Cv2} (ev : Event) : Prop :=
  match ev with
  | EvFilters _ input fl result => result = filters_content fl input
  | _ => True
  end.

(** The trace grew by events whose calls of [filters] returned the chain. *)
Definition chain_only {cv : Cv2} : relation Sys :=
  fun s s' => exists tr, trace s' = trace s ++ tr /\ Forall filtered_by_chain tr.

(* ===================================================================== *)
(** * Theorems: the capability probe                                      *)
(* ===================================================================== *)

(** Case analysis on the comparisons of character codes. *)
Ltac code_cases :=
  repeat match goal with
         | |- context [(?a <=? ?b)%N] => destruct (N.leb_spec a b)
         | |- context [(?a =? ?b)%N] => destruct (N.eqb_spec a b)
         | H : context [(?a <=? ?b)%N] |- _ => destruct (N.leb_spec a b)
         | H : context [(?a =? ?b)%N] |- _ => destruct (N.eqb_spec a b)
         end; simpl in *; try discriminate; try reflexivity; try lia.

Lemma isdigit_code c :
  Py.isdigit c = true -> (48 <= N_of_ascii c <= 57)%N.
Proof. unfold Py.isdigit. intros H. code_cases. Qed.

Lemma isdigit_not_space c : Py.isdigit c = true -> Py.isspace c = false.
Proof.
  intros H%isdigit_code. unfold Py.isspace. code_cases.
Qed.

Lemma isdigit_not_char c d :
  Py.isdigit c = true -> (N_of_ascii d < 48)%N -> Ascii.eqb c d = false.
Proof.
  intros H%isdigit_code Hd. apply Ascii.eqb_neq. intros ->. lia.
Qed.

Lemma digit_value_nonneg c : Py.isdigit c = true -> 0 <= Py.digit_value c.
Proof. intros H%isdigit_code. unfold Py.digit_value. lia. Qed.

Lemma int_digits_nonneg s : forall acc seen z,
  0 <= acc -> Py.int_digits acc seen s = Some z -> 0 <= z.
Proof.
  induction s as [|c rest IH]; intros acc seen z Hacc Hz; simpl in Hz.
  - destruct seen; congruence.
  - destruct (Py.isdigit c) eqn:Hc.
    + apply IH in Hz; [done|]. pose proof (digit_value_nonneg c Hc). lia.
    + destruct (Ascii.eqb c "_"); [|discriminate].
      destruct seen; [|discriminate]. eauto.
Qed.

(** [int] of a text that starts with a digit reads no sign. *)
Lemma int_digit_led s z : digit_led s -> Py.int s = Some z -> 0 <= z.
Proof.
  intros (c & rest & -> & Hc) Hz. unfold Py.int, Py.strip in Hz.
  simpl in Hz. rewrite (isdigit_not_space c Hc) in Hz. simpl in Hz.
  rewrite (isdigit_not_space c Hc) in Hz. simpl in Hz.
  assert (Hm : Ascii.eqb c "-" = false) by (apply isdigit_not_char; [done|reflexivity]).
  assert (Hp : Ascii.eqb c "+" = false) by (apply isdigit_not_char; [done|reflexivity]).
  apply Ascii.eqb_neq in Hm, Hp.
  assert (Hz' : Py.int_digits 0 false (String c (Py.rstrip rest)) = Some z).
  { destruct c as [[] [] [] [] [] [] [] []]; try exact Hz; congruence. }
  eapply int_digits_nonneg; [|exact Hz']. lia.
Qed.

Lemma span_digit_led s a b :
  Py.span Py.isdigit s = (a, b) -> Py.is_empty a = false -> digit_led a.
Proof.
  destruct s as [|c rest]; simpl.
  - intros [= <- <-]. discriminate.
  - destruct (Py.isdigit c) eqn:Hc.
    + destruct (Py.span Py.isdigit rest) as [a' b']. intros [= <- <-] _.
      by exists c, a'.
    + intros [= <- <-]. discriminate.
Qed.

Lemma span_take_drop cls s run rem :
  Py.span cls s = (run, rem) ->
  Re.take (String.length run) s = run /\ Re.drop (String.length run) s = rem.
Proof.
  revert run rem. induction s as [|c rest IH]; intros run rem; cbn [Py.span].
  - intros [= <- <-]. done.
  - destruct (cls c).
    + destruct (Py.span cls rest) as [a b]. intros [= <- <-]. simpl.
      destruct (IH a b eq_refl) as [-> ->]. done.
    + intros [= <- <-]. done.
Qed.

(** Inside the run, what is left still starts with a character of the
    class. *)
Lemma span_inside cls s run rem k :
  Py.span cls s = (run, rem) -> (k < String.length run)%nat ->
  exists c rest, Re.drop k s = String c rest /\ cls c = true.
Proof.
  revert run rem k. induction s as [|c rest IH]; intros run rem k; cbn [Py.span].
  - intros [= <- <-]. simpl. lia.
  - destruct (cls c) eqn:Hc.
    + destruct (Py.span cls rest) as [a b]. intros [= <- <-]. simpl. intros Hk.
      destruct k as [|k]; simpl; [by eauto|]. eapply IH; [done|lia].
    + intros [= <- <-]. simpl. lia.
Qed.

Lemma backtrack_unfold k cont group s :
  Re.backtrack (S k) cont group s =
  match cont (Re.drop (S k) s) with
  | Some groups => Some (if group then Re.take (S k) s :: groups else groups)
  | None => Re.backtrack k cont group s
  end.
Proof. reflexivity. Qed.

Lemma backtrack_none k cont group s :
  (forall j, (1 <= j <= k)%nat -> cont (Re.drop j s) = None) ->
  Re.backtrack k cont group s = None.
Proof.
  induction k as [|k IH]; intros Hnone; [done|].
  rewrite backtrack_unfold, (Hnone (S k)) by lia.
  apply IH. intros j Hj. apply Hnone. lia.
Qed.

(** The longest run is tried first; when what follows fails there and
    rejects every text that starts with a character of the class, no
    shorter run can match. *)
Lemma backtrack_longest cls cont group s run rem :
  Py.span cls s = (run, rem) ->
  (cont rem = None -> forall c rest, cls c = true -> cont (String c rest) = None) ->
  Re.backtrack (String.length run) cont group s =
  if Py.is_empty run then None
  else match cont rem with
       | Some groups => Some (if group then run :: groups else groups)
       | None => None
       end.
Proof.
  intros Hspan Hrej. destruct (span_take_drop _ _ _ _ Hspan) as [Ht Hd].
  destruct run as [|c0 run0]; [done|].
  set (n := String.length run0).
  change (String.length (String c0 run0)) with (S n) in *.
  rewrite backtrack_unfold, Hd, Ht. cbn [Py.is_empty].
  destruct (cont rem) as [groups|]; [done|].
  specialize (Hrej eq_refl). apply backtrack_none. intros j Hj.
  destruct (span_inside cls s _ _ j Hspan) as (c & rest & -> & Hc); [simpl; lia|].
  by apply Hrej.
Qed.

Lemma isspace_code c :
  Py.isspace c = true -> (N_of_ascii c <= 32 \/ 133 <= N_of_ascii c)%N.
Proof. unfold Py.isspace. intros H. code_cases. Qed.

Lemma digit_not_x c : Py.isdigit c = true -> Ascii.eqb "x" c = false.
Proof.
  intros H%isdigit_code. apply Ascii.eqb_neq. intros <-. simpl in H. lia.
Qed.

Lemma space_not_f c : Py.isspace c = true -> Ascii.eqb "f" c = false.
Proof.
  intros H%isspace_code. apply Ascii.eqb_neq. intros <-. simpl in H. lia.
Qed.

(** A literal rejects a text whose first character is not its own, and a
    repetition one whose first character is not of its class. *)
Lemma lit_rejects a text rest c s :
  Ascii.eqb a c = false -> Re.match_at (Re.Lit (String a text) :: rest) (String c s) = None.
Proof. intros Hne. cbn [Re.match_at Py.strip_prefix]. by rewrite Hne. Qed.

Lemma plus_rejects cls group rest c s :
  cls c = false -> Re.match_at (Re.Plus cls group :: rest) (String c s) = None.
Proof. intros Hc. cbn [Re.match_at Py.span]. by rewrite Hc. Qed.

Lemma match_at_plus cls group rest s :
  Re.match_at (Re.Plus cls group :: rest) s =
  Re.backtrack (String.length (fst (Py.span cls s))) (Re.match_at rest) group s.
Proof. reflexivity. Qed.

Lemma match_at_lit text rest s :
  Re.match_at (Re.Lit text :: rest) s =
  match Py.strip_prefix text s with
  | Some s' => Re.match_at rest s'
  | None => None
  end.
Proof. reflexivity. Qed.

(** On the capability pattern the backtracking matcher finds what the
    greedy reading finds. *)
Lemma match_at_capability s :
  Re.match_at Re.capability_pattern s ≫= Re.groups3 = Re.match_here s.
Proof.
  unfold Re.capability_pattern, Re.match_here.
  rewrite match_at_lit.
  destruct (Py.strip_prefix "max s=" s) as [s1|]; [|reflexivity].
  cbn [mbind option_bind].
  rewrite match_at_plus.
  destruct (Py.span Py.isdigit s1) as [gw s2] eqn:E1. cbn [fst].
  rewrite (backtrack_longest _ _ _ _ _ _ E1)
    by (intros _ ? ? ?; apply lit_rejects; by apply digit_not_x).
  destruct (Py.is_empty gw); [reflexivity|].
  rewrite match_at_lit.
  destruct (Py.strip_prefix "x" s2) as [s3|]; [|reflexivity].
  cbn [mbind option_bind].
  rewrite match_at_plus.
  destruct (Py.span Py.isdigit s3) as [gh s4] eqn:E2. cbn [fst].
  rewrite (backtrack_longest _ _ _ _ _ _ E2)
    by (intros _ ? ? ?; apply plus_rejects; by apply isdigit_not_space).
  destruct (Py.is_empty gh); [reflexivity|].
  rewrite match_at_plus.
  destruct (Py.span Py.isspace s4) as [blank s5] eqn:E3. cbn [fst].
  rewrite (backtrack_longest _ _ _ _ _ _ E3)
    by (intros _ ? ? ?; apply lit_rejects; by apply space_not_f).
  destruct (Py.is_empty blank); [reflexivity|].
  rewrite match_at_lit.
  destruct (Py.strip_prefix "fps=" s5) as [s6|]; [|reflexivity].
  cbn [mbind option_bind].
  rewrite match_at_plus.
  destruct (Py.span Py.isdigit s6) as [gf s7] eqn:E4. cbn [fst].
  rewrite (backtrack_longest _ _ _ _ _ _ E4) by done.
  destruct (Py.is_empty gf); reflexivity.
Qed.

Lemma search_unfold s :
  Re.search s =
  match Re.match_here s with
  | Some groups => Some groups
  | None => match s with
            | EmptyString => None
            | String _ rest => Re.search rest
            end
  end.
Proof. rewrite <- match_at_capability. destruct s; reflexivity. Qed.

#[local] Arguments Py.strip_prefix : simpl never.
#[local] Arguments Py.span : simpl never.

(** Every group of a match starts with a digit. *)
Lemma match_here_digit_led s gw gh gf :
  Re.match_here s = Some (gw, gh, gf) -> digit_led gw /\ digit_led gh /\ digit_led gf.
Proof.
  unfold Re.match_here. intros H.
  destruct (Py.strip_prefix "max s=" s) as [s1|]; cbn in H; [|discriminate].
  destruct (Py.span Py.isdigit s1) as [a1 s2] eqn:E1.
  destruct (Py.is_empty a1) eqn:N1; [discriminate|].
  destruct (Py.strip_prefix "x" s2) as [s3|]; cbn in H; [|discriminate].
  destruct (Py.span Py.isdigit s3) as [a2 s4] eqn:E2.
  destruct (Py.is_empty a2) eqn:N2; [discriminate|].
  destruct (Py.span Py.isspace s4) as [blank s5].
  destruct (Py.is_empty blank); [discriminate|].
  destruct (Py.strip_prefix "fps=" s5) as [s6|]; cbn in H; [|discriminate].
  destruct (Py.span Py.isdigit s6) as [a3 s7] eqn:E3.
  destruct (Py.is_empty a3) eqn:N3; [discriminate|].
  injection H as <- <- <-.
  repeat split; eapply span_digit_led; eassumption.
Qed.

Lemma search_digit_led s gw gh gf :
  Re.search s = Some (gw, gh, gf) -> digit_led gw /\ digit_led gh /\ digit_led gf.
Proof.
  induction s as [|c rest IH]; rewrite search_unfold;
    destruct (Re.match_here _) as [g|] eqn:E; intros H; try discriminate.
  - injection H as ->. eauto using match_here_digit_led.
  - eauto.
Qed.

Lemma collect_modes_nonneg lines : forall acc supported,
  collect_modes lines acc = Some supported ->
  Forall nonneg_mode acc -> Forall nonneg_mode supported.
Proof.
  induction lines as [|line rest IH]; intros acc supported Hc Hacc; simpl in Hc.
  - congruence.
  - destruct (Py.contains "vcodec=mjpeg" line && Py.contains "fps=" line); [|eauto].
    destruct (Re.search line) as [[[gw gh] gf]|] eqn:Es; [|eauto].
    apply search_digit_led in Es as (Hw & Hh & Hf).
    destruct (Py.int gw) as [w|] eqn:Ew; [|discriminate].
    destruct (Py.int gh) as [h|] eqn:Eh; [|discriminate].
    destruct (Py.int gf) as [fps|] eqn:Ef; [|discriminate].
    apply (IH _ _ Hc). apply Forall_app. split; [done|].
    constructor; [|constructor]. simpl.
    pose proof (int_digit_led _ _ Hw Ew). pose proof (int_digit_led _ _ Hh Eh).
    pose proof (int_digit_led _ _ Hf Ef). auto.
Qed.

Lemma get_supported_resolutions_modes device_index w :
  Forall nonneg_mode (fst (get_supported_resolutions device_index w)).
Proof.
  unfold get_supported_resolutions, mbind, St_bind, mret, St_ret.
  destruct (get_ffmpeg_path w) as [cmd w1].
  destruct (detect_devices w1) as [devices w2].
  destruct (devices !! device_index) as [device_name|]; [|constructor].
  destruct (subprocess_run false cmd _ w2) as [[result|] w3]; simpl; [|constructor].
  destruct (existsb _ _); [|constructor].
  destruct (collect_modes _ _) as [supported|] eqn:Ec; [|constructor].
  eapply collect_modes_nonneg; [exact Ec|constructor].
Qed.

(** C4, as the code has it: every capability tuple the probe returns has a
    width, a height and a frame rate that are not negative (each is the value
    of a run of decimal digits of the backend's line). *)
Theorem capability_values_not_negative device_index w width height rate :
  In (width, height, rate) (fst (get_supported_resolutions device_index w)) ->
  0 <= width /\ 0 <= height /\ 0 <= rate.
Proof.
  intros Hin. pose proof (get_supported_resolutions_modes device_index w) as Hall.
  rewrite List.Forall_forall in Hall. exact (Hall _ Hin).
Qed.

Lemma capability_values_witness :
  In (640, 480, 30)
     (fst (get_supported_resolutions 0
             (dshow_machine EmptyString (mode_line "640x480" "30") 0))) /\
  (0 <= 640 /\ 0 <= 480 /\ 0 <= 30).
Proof.
  assert (Hin : In (640, 480, 30)
                   (fst (get_supported_resolutions 0
                           (dshow_machine EmptyString (mode_line "640x480" "30") 0)))).
  { vm_compute. left. reflexivity. }
  split; [exact Hin|].
  exact (capability_values_not_negative _ _ _ _ _ Hin).
Defined.

(** C4, as the claim states it, fails: a backend line that advertises
    [0x0] at 0 fps is matched by the pattern and returned as the tuple
    (0, 0, 0). *)
Lemma capability_zero_counterexample :
  fst (get_supported_resolutions 0
         (dshow_machine EmptyString (mode_line "0x0" "0") 0)) = [(0, 0, 0)]
  /\ ~ (0 < 0).
Proof. split; [vm_compute; reflexivity|lia]. Qed.

(* ===================================================================== *)
(** * Theorems: device enumeration                                        *)
(* ===================================================================== *)

Lemma detect_devices_unfold w :
  fst (detect_devices w) =
  match device_query w with
  | None => [default_camera]
  | Some result =>
      match device_names (Py.splitlines (stderr result)) [] with
      | None => [default_camera]
      | Some [] => [default_camera]
      | Some devices => devices
      end
  end.
Proof.
  unfold detect_devices, device_query, mbind, St_bind, mret, St_ret.
  destruct (get_ffmpeg_path w) as [cmd w1].
  destruct (subprocess_run true cmd list_devices_args w1) as [r w2].
  reflexivity.
Qed.

(** C7: device enumeration never returns an empty list; when the backend
    query fails, and when it succeeds but names no video device, the result
    is the one placeholder [Default Camera]. *)
Theorem detect_devices_never_empty w :
  fst (detect_devices w) <> [] /\
  (device_query w = None -> fst (detect_devices w) = [default_camera]) /\
  (forall result,
      device_query w = Some result ->
      device_names (Py.splitlines (stderr result)) [] = Some [] ->
      fst (detect_devices w) = [default_camera]).
Proof.
  rewrite detect_devices_unfold.
  split; [|split].
  - destruct (device_query w) as [result|]; [|discriminate].
    destruct (device_names _ _) as [[|d ds]|]; discriminate.
  - intros ->. reflexivity.
  - intros result -> ->. reflexivity.
Qed.

(** The three cases on a machine: a failing query, a listing without any
    video device, a listing with one camera. *)
Example detect_devices_cases :
  fst (detect_devices
         {| ffmpeg_lookup := None; ffmpeg_path_attr := None;
            backend := fun _ _ => NotStarted;
            fs := fs unplugged_machine; ran := [] |}) = ["Default Camera"]
  /\ fst (detect_devices unplugged_machine) = ["Default Camera"]
  /\ fst (detect_devices (dshow_machine EmptyString EmptyString 0)) = ["Cam A"].
Proof. repeat split; vm_compute; reflexivity. Qed.

(* ===================================================================== *)
(** * Theorems: the filter chain and the store of buffers                 *)
(* ===================================================================== *)

Section Store.
Implicit Types (h : gmap nat Obj) (l : nat) (m : Mat).

Lemma returns_ret {A} (a : A) h (Q : A -> gmap nat Obj -> Prop) :
  Q a h -> returns (mret a) h Q.
Proof. intros HQ. exists a, h. done. Qed.

Lemma returns_bind {A B} (m : Cv A) (f : A -> Cv B) h Q R :
  returns m h Q ->
  (forall a h1, h ⊆ h1 -> Q a h1 -> returns (f a) h1 R) ->
  returns (m ≫= f) h R.
Proof.
  intros (a & h1 & Hm & Hsub & HQ) Hf.
  destruct (Hf a h1 Hsub HQ) as (b & h2 & Hfa & Hsub2 & HR).
  exists b, h2. split; [|split]; [|by etrans|done].
  unfold mbind, Cv_bind. by rewrite Hm.
Qed.

Lemma returns_ret_bind {A B} (a : A) (f : A -> Cv B) h R :
  returns (f a) h R -> returns (mret a ≫= f) h R.
Proof. done. Qed.

Lemma returns_weaken {A} (m : Cv A) h (Q R : A -> gmap nat Obj -> Prop) :
  returns m h Q -> (forall a h', h ⊆ h' -> Q a h' -> R a h') -> returns m h R.
Proof. intros (a & h' & ? & ? & ?) HQR. exists a, h'. eauto. Qed.

Lemma returns_alloc o h :
  returns (alloc o) h (fun l h' => h !! l = None /\ h' !! l = Some o).
Proof.
  assert (Hfresh : h !! fresh (dom h) = None).
  { apply not_elem_of_dom. apply is_fresh. }
  exists (fresh (dom h)), (<[fresh (dom h) := o]> h). split; [done|].
  split; [by apply insert_subseteq|]. split; [done|]. apply lookup_insert_eq.
Qed.

Lemma returns_read_obj h l o :
  h !! l = Some o -> returns (read_obj l) h (fun r h' => r = o /\ h' = h).
Proof. intros Hl. exists o, h. unfold read_obj. by rewrite Hl. Qed.

Lemma returns_read_umat h l m :
  h !! l = Some (UMat m) -> returns (read_umat l) h (fun r h' => r = m /\ h' = h).
Proof. intros Hl. exists m, h. unfold read_umat. by rewrite Hl. Qed.

Lemma returns_read_ndarray h l m :
  h !! l = Some (NdArray m) -> returns (read_ndarray l) h (fun r h' => r = m /\ h' = h).
Proof. intros Hl. exists m, h. unfold read_ndarray. by rewrite Hl. Qed.

Lemma is_umat_mono h h' l : is_umat h l -> h ⊆ h' -> is_umat h' l.
Proof. intros [m Hm] Hsub. exists m. by eapply lookup_weaken. Qed.

Lemma fresh_mono h h' l : h' !! l = None -> h ⊆ h' -> h !! l = None.
Proof.
  intros Hl Hsub. destruct (h !! l) as [o|] eqn:E; [|done].
  rewrite (lookup_weaken _ _ _ _ E Hsub) in Hl. discriminate.
Qed.

(** [cv2.UMat(a)] copies: a new buffer with the content of the array. *)
Lemma returns_umat_of h l m :
  h !! l = Some (NdArray m) ->
  returns (umat_of l) h (fun u h' => h !! u = None /\ h' !! u = Some (UMat m)).
Proof.
  intros Hl. eapply returns_bind; [by apply returns_read_ndarray|].
  intros r h1 _ [-> ->]. apply returns_alloc.
Qed.

Lemma returns_umat_get h u m :
  h !! u = Some (UMat m) ->
  returns (umat_get u) h (fun l h' => h !! l = None /\ h' !! l = Some (NdArray m)).
Proof.
  intros Hu. eapply returns_bind; [by apply returns_read_umat|].
  intros r h1 _ [-> ->]. apply returns_alloc.
Qed.

Lemma returns_op1 f h a :
  is_umat h a -> returns (op1 f a) h (fun l h' => is_umat h' l).
Proof.
  intros [ma Ha]. eapply returns_bind; [by apply returns_read_umat|].
  intros r h1 _ [-> ->].
  eapply returns_weaken; [apply returns_alloc|]. intros l h' _ [_ Hl]. by eexists.
Qed.

Lemma returns_op2 f h a b :
  is_umat h a -> is_umat h b -> returns (op2 f a b) h (fun l h' => is_umat h' l).
Proof.
  intros [ma Ha] [mb Hb]. eapply returns_bind; [by apply returns_read_umat|].
  intros r h1 _ [-> ->]. eapply returns_bind; [by apply returns_read_umat|].
  intros r h1 _ [-> ->].
  eapply returns_weaken; [apply returns_alloc|]. intros l h' _ [_ Hl]. by eexists.
Qed.

Lemma returns_op3 f h a b c :
  is_umat h a -> is_umat h b -> is_umat h c ->
  returns (op3 f a b c) h (fun l h' => is_umat h' l).
Proof.
  intros [ma Ha] [mb Hb] [mc Hc]. eapply returns_bind; [by apply returns_read_umat|].
  intros r h1 _ [-> ->]. eapply returns_bind; [by apply returns_read_umat|].
  intros r h1 _ [-> ->]. eapply returns_bind; [by apply returns_read_umat|].
  intros r h1 _ [-> ->].
  eapply returns_weaken; [apply returns_alloc|]. intros l h' _ [_ Hl]. by eexists.
Qed.

Lemma returns_split3 {cv : Cv2} h src :
  is_umat h src ->
  returns (split3 src) h
          (fun r h' => let '(a, b, c) := r in is_umat h' a /\ is_umat h' b /\ is_umat h' c).
Proof.
  intros [m Hm]. unfold split3.
  eapply returns_bind; [by apply returns_read_umat|].
  intros r h1 _ [-> ->]. destruct (cv_split m) as [[x y] z].
  eapply returns_bind; [apply returns_alloc|]. intros a h2 _ [_ Ha].
  eapply returns_bind; [apply returns_alloc|]. intros b h3 H23 [_ Hb].
  eapply returns_bind; [apply returns_alloc|]. intros c h4 H34 [_ Hc].
  apply returns_ret. repeat split.
  - exists x. eapply lookup_weaken; [|exact H34]. by eapply lookup_weaken.
  - exists y. by eapply lookup_weaken.
  - by exists z.
Qed.

Lemma returns_umat_full_like h u v :
  is_umat h u -> returns (umat_full_like u v) h (fun l h' => is_umat h' l).
Proof.
  intros [m Hm]. unfold umat_full_like.
  eapply returns_bind; [by apply returns_umat_get|]. intros host h1 _ [_ Hhost].
  eapply returns_bind; [by apply returns_read_ndarray|]. intros r h2 _ [-> ->].
  eapply returns_bind; [apply returns_alloc|]. intros filled h3 _ [_ Hfilled].
  eapply returns_weaken; [by apply returns_umat_of|].
  intros l h' _ [_ Hl]. by eexists.
Qed.
End Store.

(** One call of the chain: the rule of the call is applied, and what is
    known of the buffers is carried to the new store. *)
Ltac carry Hsub :=
  repeat match goal with
         | F : is_umat ?h ?x |- _ =>
             lazymatch type of Hsub with
             | h ⊆ ?h' => apply (fun F => is_umat_mono h h' x F Hsub) in F
             end
         end.

Ltac call :=
  eapply returns_bind;
  [ first [ eapply returns_op1 | eapply returns_op2 | eapply returns_op3
          | eapply returns_split3 | eapply returns_umat_full_like ]; eassumption
  | let l := fresh "l" in let h := fresh "h" in
    let Hsub := fresh "Hsub" in let Hl := fresh "Hl" in
    intros l h Hsub Hl; carry Hsub; clear Hsub;
    first [ destruct l as [[? ?] ?]; cbv beta iota in Hl; destruct Hl as (? & ? & ?)
          | cbv beta in Hl ] ].

Ltac last_call :=
  first [ eapply returns_op1 | eapply returns_op2 | eapply returns_op3 ]; eassumption.

Section Chain.
Context {cv : Cv2}.
Implicit Types (h : gmap nat Obj).

Lemma returns_gray_filter h src :
  is_umat h src -> returns (gray_filter src) h (fun l h' => is_umat h' l).
Proof. intros Hsrc. unfold gray_filter. call. last_call. Qed.

Lemma returns_simple_CLAHE_RGB h src :
  is_umat h src -> returns (simple_CLAHE_RGB src) h (fun l h' => is_umat h' l).
Proof. intros Hsrc. unfold simple_CLAHE_RGB. do 4 call. last_call. Qed.

Lemma returns_simple_CLAHE_L h src :
  is_umat h src -> returns (simple_CLAHE_L src) h (fun l h' => is_umat h' l).
Proof. intros Hsrc. unfold simple_CLAHE_L. do 4 call. last_call. Qed.

Lemma returns_vascular h src :
  is_umat h src -> returns (vascular_enhance_filter_ocl src) h (fun l h' => is_umat h' l).
Proof. intros Hsrc. unfold vascular_enhance_filter_ocl. cbv zeta. repeat call. last_call. Qed.
End Chain.

Section FilterChain.
Context {cv : Cv2}.
Implicit Types (h : gmap nat Obj) (fl : Flags) (m : Mat).

Lemma returns_stage (on : bool) (stage : nat -> Cv nat) h u :
  (forall h u, is_umat h u -> returns (stage u) h (fun l h' => is_umat h' l)) ->
  is_umat h u ->
  returns (if on then stage u else mret u) h (fun l h' => is_umat h' l).
Proof. intros Hstage Hu. destruct on; [by apply Hstage|by apply returns_ret]. Qed.

(** The chain returns for every setting of the flags; the array it returns
    is a buffer that was free in the store of the call. *)
Lemma returns_filters fl h image m :
  h !! image = Some (NdArray m) ->
  returns (filters image fl) h
          (fun out h' => h !! out = None /\ exists r, h' !! out = Some (NdArray r)).
Proof.
  intros Himage. unfold filters.
  eapply returns_bind; [by apply returns_umat_of|]. intros u0 h0 S0 [_ Hu].
  assert (U0 : is_umat h0 u0) by by eexists.
  eapply returns_bind; [apply returns_stage; [apply returns_vascular|exact U0]|].
  intros u1 h1 S1 U1. cbv beta in U1.
  eapply returns_bind; [apply returns_stage; [apply returns_simple_CLAHE_RGB|exact U1]|].
  intros u2 h2 S2 U2. cbv beta in U2.
  eapply returns_bind; [apply returns_stage; [apply returns_simple_CLAHE_L|exact U2]|].
  intros u3 h3 S3 U3. cbv beta in U3.
  eapply returns_bind; [apply returns_stage; [apply returns_gray_filter|exact U3]|].
  intros u4 h4 S4 [r Hr].
  assert (S : h ⊆ h4) by (do 4 (etrans; [|eassumption]); done).
  eapply returns_bind; [by apply returns_read_obj|]. intros o h5 _ [-> ->].
  eapply returns_weaken; [apply returns_alloc|].
  intros out h' _ [Hfree Hout]. split; [by eapply fresh_mono|by exists r].
Qed.

(** With no flag set the returned array has the bytes of the input. *)
Lemma returns_filters_no_flags h image m :
  h !! image = Some (NdArray m) ->
  returns (filters image no_flags) h
          (fun out h' => h !! out = None /\ h' !! out = Some (NdArray m)).
Proof.
  intros Himage. unfold filters. simpl.
  eapply returns_bind; [by apply returns_umat_of|]. intros u0 h0 S0 [_ Hu].
  do 4 apply returns_ret_bind.
  eapply returns_bind; [by apply returns_read_obj|]. intros o h5 _ [-> ->].
  eapply returns_weaken; [apply returns_alloc|].
  intros out h' _ [Hfree Hout]. split; [by eapply fresh_mono|done].
Qed.


(** C6: with the four flags disabled the chain returns an array with the
    bytes of the input and leaves the input as it was; applied again to its
    own result it returns the same bytes once more, and the input and the
    first result are still what they were. *)
Theorem filters_disabled_is_identity h image m :
  h !! image = Some (NdArray m) ->
  exists out h' out2 h'',
    filters image no_flags h = Some (out, h') /\
    h' !! out = Some (NdArray m) /\
    h' !! image = Some (NdArray m) /\
    filters out no_flags h' = Some (out2, h'') /\
    h'' !! out2 = Some (NdArray m) /\
    h'' !! out = Some (NdArray m) /\
    h'' !! image = Some (NdArray m).
Proof.
  intros Himage.
  destruct (returns_filters_no_flags h image m Himage) as (out & h' & Hrun & Hsub & _ & Hout).
  destruct (returns_filters_no_flags h' out m Hout) as (out2 & h'' & Hrun2 & Hsub2 & _ & Hout2).
  exists out, h', out2, h''.
  assert (Himage' : h' !! image = Some (NdArray m)) by by eapply lookup_weaken.
  repeat split; try done; by eapply lookup_weaken.
Qed.

(** The chain on a frame held by value always returns, and returns the
    frame itself when no flag is set. *)
Lemma filters_frame_total frame fl : is_Some (filters_frame frame fl).
Proof.
  unfold filters_frame.
  destruct (returns_filters fl {[ 0%nat := NdArray frame ]} 0%nat frame)
    as (out & h' & -> & _ & _ & r & ->); [apply lookup_singleton_eq|done].
Qed.

Lemma filters_frame_no_flags frame : filters_frame frame no_flags = Some frame.
Proof.
  unfold filters_frame.
  destruct (returns_filters_no_flags {[ 0%nat := NdArray frame ]} 0%nat frame)
    as (out & h' & -> & _ & _ & ->); [apply lookup_singleton_eq|done].
Qed.
End FilterChain.

Lemma filters_disabled_witness :
  exists out h' out2 h'',
    filters (cv := plain_cv2) 0%nat no_flags {[ 0%nat := NdArray (pixel Byte.x2a) ]} = Some (out, h') /\
    h' !! out = Some (NdArray (pixel Byte.x2a)) /\
    h' !! 0%nat = Some (NdArray (pixel Byte.x2a)) /\
    filters (cv := plain_cv2) out no_flags h' = Some (out2, h'') /\
    h'' !! out2 = Some (NdArray (pixel Byte.x2a)) /\
    h'' !! out = Some (NdArray (pixel Byte.x2a)) /\
    h'' !! 0%nat = Some (NdArray (pixel Byte.x2a)).
Proof.
  apply (filters_disabled_is_identity (cv := plain_cv2)
           {[ 0%nat := NdArray (pixel Byte.x2a) ]} 0%nat (pixel Byte.x2a)).
  vm_compute. reflexivity.
Defined.


(* ===================================================================== *)
(** * Theorems: the encoder options *)
(* ===================================================================== *)

Lemma encoder_options_hardware quality f :
  encoder_options preferred_codec quality f =
  <["-global_quality" := VStr (Py.str quality)]>
    (<["-input_framerate" := VInt f]>
    (<["-movflags" := VStr "+faststart"]>
    (<["-pix_fmt" := VStr "yuv420p"]>
    (<["-preset" := VStr "medium"]>
    (<["-vcodec" := VStr "h264_qsv"]> ∅))))).
Proof. reflexivity. Qed.

Lemma encoder_options_software quality f :
  encoder_options fallback_codec quality f =
  <["-crf" := VStr (Py.str quality)]>
    (<["-input_framerate" := VInt f]>
    (<["-movflags" := VStr "+faststart"]>
    (<["-pix_fmt" := VStr "yuv420p"]>
    (<["-preset" := VStr "medium"]>
    (<["-vcodec" := VStr "libx264"]> ∅))))).
Proof. reflexivity. Qed.

Lemma dom_encoder_options_hardware quality f :
  dom (encoder_options preferred_codec quality f) = {[ "-global_quality" ]} ∪ base_keys.
Proof.
  rewrite encoder_options_hardware, !dom_insert_L, dom_empty_L.
  unfold base_keys. set_solver.
Qed.

Lemma dom_encoder_options_software quality f :
  dom (encoder_options fallback_codec quality f) = {[ "-crf" ]} ∪ base_keys.
Proof.
  rewrite encoder_options_software, !dom_insert_L, dom_empty_L.
  unfold base_keys. set_solver.
Qed.


(* ===================================================================== *)
(** * Theorems: relations kept by the methods *)
(* ===================================================================== *)

(** Unfolding of the monad of actions. *)
Ltac act_unfold :=
  unfold messagebox in *;
  unfold tk_call, update, emit, get_app, time_ms, spawn, raise,
    mbind, Act_bind, mret, Act_ret in *; simpl in *.

Section Keeps.
Context (R : relation Sys) `{!PreOrder R}.

Lemma keeps_ret {A} (a : A) : keeps R (mret a).
Proof. intros s. reflexivity. Qed.

Lemma keeps_raise {A} e : keeps R (raise (A := A) e).
Proof. intros s. reflexivity. Qed.

Lemma keeps_get_app : keeps R get_app.
Proof. intros s. reflexivity. Qed.

Lemma keeps_time_ms : keeps R time_ms.
Proof. intros s. reflexivity. Qed.

Lemma keeps_bind {A B} (m : Act A) (f : A -> Act B) :
  keeps R m -> (forall a, keeps R (f a)) -> keeps R (m ≫= f).
Proof.
  intros Hm Hf s. unfold mbind, Act_bind. specialize (Hm s).
  destruct (m s) as [[a|e] s1]; simpl in *; [|done].
  etrans; [exact Hm|apply Hf].
Qed.

Lemma keeps_try_except {A} (body : Act A) handler :
  keeps R body -> (forall e, keeps R (handler e)) -> keeps R (try_except body handler).
Proof.
  intros Hm Hf s. unfold try_except. specialize (Hm s).
  destruct (body s) as [[a|e] s1]; simpl in *; [done|].
  etrans; [exact Hm|apply Hf].
Qed.

Lemma keeps_tk_call : keeps R tk_call.
Proof.
  apply keeps_bind; [apply keeps_get_app|]. intros a.
  destruct (destroyed a); [apply keeps_raise|apply keeps_ret].
Qed.
End Keeps.

(** The rules of [keeps] are applied along the structure of the code; what
    a relation needs of the primitive writes is left to [prim]. *)
Ltac keeps_with R prim :=
  repeat first
    [ progress prim
    | apply (keeps_ret R) | apply (keeps_raise R) | apply (keeps_get_app R)
    | apply (keeps_time_ms R) | apply (keeps_tk_call R)
    | apply (keeps_bind R); [|intros ?]
    | apply (keeps_try_except R); [|intros ?]
    | match goal with
      | |- keeps _ (match ?x with _ => _ end) => destruct x
      | |- keeps _ (let '(_, _) := ?x in _) => destruct x
      end ].

Global Instance same_codec_preorder : PreOrder same_codec.
Proof. split; [done|]. intros x y z; unfold same_codec; congruence. Qed.

Lemma same_codec_update f :
  (forall a, CODEC (f a) = CODEC a) -> keeps same_codec (update f).
Proof. intros Hf s. apply Hf. Qed.

Lemma same_codec_emit ev : keeps same_codec (emit ev).
Proof. done. Qed.

Lemma same_codec_spawn t : keeps same_codec (spawn t).
Proof. done. Qed.

Lemma same_codec_in_world {A} (m : St World A) : keeps same_codec (in_world m).
Proof. intros s. unfold in_world. by destruct (m (world s)). Qed.

Ltac codec_prim :=
  first [ apply same_codec_update; intros ?; reflexivity | apply same_codec_emit
        | apply same_codec_spawn | apply same_codec_in_world ].

Section Codec.
Context {cv : Cv2} (env : Env).

Lemma start_preview_codec : keeps same_codec (start_preview env).
Proof. unfold start_preview, messagebox. keeps_with same_codec codec_prim. Qed.

Lemma stop_preview_codec : keeps same_codec stop_preview.
Proof. unfold stop_preview. keeps_with same_codec codec_prim. Qed.

Lemma stop_record_codec : keeps same_codec stop_record.
Proof. unfold stop_record, messagebox. keeps_with same_codec codec_prim. Qed.

Lemma start_record_codec : keeps same_codec (start_record env).
Proof.
  unfold start_record, check_parameters, begin_record, messagebox.
  keeps_with same_codec ltac:(first [codec_prim | apply start_preview_codec]).
Qed.

Lemma preview_loop_codec : keeps same_codec (preview_loop env).
Proof.
  unfold preview_loop, read_stream, apply_filters. keeps_with same_codec codec_prim.
Qed.

Lemma record_loop_codec st w h dur : keeps same_codec (record_loop st w h dur).
Proof.
  unfold record_loop, read_stream, apply_filters.
  keeps_with same_codec ltac:(first [codec_prim | apply stop_record_codec]).
Qed.

Lemma on_close_codec : keeps same_codec on_close.
Proof.
  unfold on_close.
  keeps_with same_codec ltac:(first [codec_prim | apply stop_record_codec | apply stop_preview_codec]).
Qed.
End Codec.

Global Instance same_probes_preorder : PreOrder same_probes.
Proof. split; [done|]. intros x y z; unfold same_probes; congruence. Qed.

Lemma codec_probes_log argv w :
  is_codec_probe argv = false -> codec_probes (log_run argv w) = codec_probes w.
Proof.
  intros Hno. unfold codec_probes, log_run. simpl.
  rewrite List.filter_app. simpl. rewrite Hno. apply app_nil_r.
Qed.

Lemma get_ffmpeg_path_ran w : ran (snd (get_ffmpeg_path w)) = ran w.
Proof. unfold get_ffmpeg_path. by destruct (ffmpeg_path_attr w). Qed.

Lemma subprocess_run_probes check cmd args w :
  (forall exe, is_codec_probe (exe :: args) = false) ->
  codec_probes (snd (subprocess_run check cmd args w)) = codec_probes w.
Proof.
  intros Hno. unfold subprocess_run. destruct cmd as [exe|]; [|done].
  destruct (backend w _ _) as [|rc out err]; [by apply codec_probes_log|].
  destruct (check && negb (rc =? 0)); by apply codec_probes_log.
Qed.

Lemma detect_devices_probes w :
  codec_probes (snd (detect_devices w)) = codec_probes w.
Proof.
  unfold detect_devices, mbind, St_bind, mret, St_ret.
  pose proof (get_ffmpeg_path_ran w) as Hp.
  destruct (get_ffmpeg_path w) as [cmd w1]. simpl in Hp.
  pose proof (subprocess_run_probes true cmd list_devices_args w1 (fun _ => eq_refl)) as Hr.
  destruct (subprocess_run true cmd list_devices_args w1) as [r w2]. simpl in *.
  rewrite Hr. unfold codec_probes. by rewrite Hp.
Qed.

Lemma get_supported_resolutions_probes idx w :
  codec_probes (snd (get_supported_resolutions idx w)) = codec_probes w.
Proof.
  unfold get_supported_resolutions, mbind, St_bind, mret, St_ret.
  pose proof (get_ffmpeg_path_ran w) as Hp.
  destruct (get_ffmpeg_path w) as [cmd w1]. simpl in Hp.
  pose proof (detect_devices_probes w1) as Hd.
  destruct (detect_devices w1) as [devices w2]. simpl in Hd.
  assert (Hw1 : codec_probes w1 = codec_probes w) by (unfold codec_probes; by rewrite Hp).
  destruct (devices !! idx) as [name|]; simpl; [|congruence].
  pose proof (subprocess_run_probes false cmd (list_options_args name) w2
                (fun _ => eq_refl)) as Hr.
  destruct (subprocess_run false cmd _ w2) as [r w3]. simpl in *. congruence.
Qed.

Lemma same_probes_update f : keeps same_probes (update f).
Proof. done. Qed.

Lemma same_probes_emit ev : keeps same_probes (emit ev).
Proof. done. Qed.

Lemma same_probes_spawn t : keeps same_probes (spawn t).
Proof. done. Qed.

Lemma same_probes_detect_devices : keeps same_probes (in_world detect_devices).
Proof.
  intros s. unfold in_world, same_probes.
  pose proof (detect_devices_probes (world s)) as Hd.
  by destruct (detect_devices (world s)).
Qed.

Ltac probes_prim :=
  first [ apply same_probes_update | apply same_probes_emit
        | apply same_probes_spawn | apply same_probes_detect_devices ].

Section Probes.
Context {cv : Cv2} (env : Env).

Lemma start_preview_probes : keeps same_probes (start_preview env).
Proof. unfold start_preview, messagebox. keeps_with same_probes probes_prim. Qed.

Lemma stop_preview_probes : keeps same_probes stop_preview.
Proof. unfold stop_preview. keeps_with same_probes probes_prim. Qed.

Lemma stop_record_probes : keeps same_probes stop_record.
Proof. unfold stop_record, messagebox. keeps_with same_probes probes_prim. Qed.

Lemma start_record_probes : keeps same_probes (start_record env).
Proof.
  unfold start_record, check_parameters, begin_record, messagebox.
  keeps_with same_probes ltac:(first [probes_prim | apply start_preview_probes]).
Qed.

Lemma preview_loop_probes : keeps same_probes (preview_loop env).
Proof.
  unfold preview_loop, read_stream, apply_filters. keeps_with same_probes probes_prim.
Qed.

Lemma record_loop_probes st w h dur : keeps same_probes (record_loop st w h dur).
Proof.
  unfold record_loop, read_stream, apply_filters.
  keeps_with same_probes ltac:(first [probes_prim | apply stop_record_probes]).
Qed.

Lemma on_close_probes : keeps same_probes on_close.
Proof.
  unfold on_close.
  keeps_with same_probes
    ltac:(first [probes_prim | apply stop_record_probes | apply stop_preview_probes]).
Qed.
End Probes.

(** A relation kept by every method, and by the bookkeeping of [exec], is
    kept by every step of the program. *)
Section Exec.
Context {cv : Cv2} (env : Env) (R : relation Sys) `{!PreOrder R}.
Hypothesis R_toggle_preview : keeps R (toggle_preview env).
Hypothesis R_start_record : keeps R (start_record env).
Hypothesis R_stop_record : keeps R stop_record.
Hypothesis R_on_close : keeps R on_close.
Hypothesis R_preview_loop : keeps R (preview_loop env).
Hypothesis R_record_loop : forall st w h dur, keeps R (record_loop st w h dur).
Hypothesis R_toggles : forall fl s, R s (set_app (set_toggles fl (app s)) s).
Hypothesis R_threads : forall ts s, R s (set_threads ts s).
Hypothesis R_clock : forall t s, R s (set_clock t s).

Lemma exec_keeps act s : R s (exec env act s).
Proof.
  destruct act; simpl; unfold callback;
    repeat match goal with
           | |- R _ (if ?b then _ else _) => destruct b
           end; try reflexivity.
  - apply R_toggle_preview.
  - apply R_start_record.
  - apply R_stop_record.
  - apply R_on_close.
  - apply R_toggles.
  - destruct (threads s !! i) as [t|]; [|reflexivity].
    assert (Ht : R s (snd (run_thread env t s))).
    { destruct t; [apply R_preview_loop|apply R_record_loop]. }
    destruct (run_thread env t s) as [[[t'|]|e] s']; simpl in Ht;
      (etrans; [exact Ht|apply R_threads]).
  - apply R_clock.
Qed.

Lemma run_keeps acts : forall s, R s (run env acts s).
Proof.
  induction acts as [|act acts IH]; intros s; simpl; [reflexivity|].
  etrans; [apply exec_keeps|apply IH].
Qed.
End Exec.

Section CodecOnce.
Context {cv : Cv2} (env : Env).

Lemma toggle_preview_codec : keeps same_codec (toggle_preview env).
Proof.
  unfold toggle_preview.
  keeps_with same_codec
    ltac:(first [apply stop_preview_codec | apply start_preview_codec]).
Qed.

Lemma toggle_preview_probes : keeps same_probes (toggle_preview env).
Proof.
  unfold toggle_preview.
  keeps_with same_probes
    ltac:(first [apply stop_preview_probes | apply start_preview_probes]).
Qed.

Lemma run_same_codec acts s : same_codec s (run env acts s).
Proof.
  apply run_keeps; try done;
    first [ apply toggle_preview_codec | apply start_record_codec
          | apply stop_record_codec | apply on_close_codec
          | apply preview_loop_codec | apply record_loop_codec | typeclasses eauto ].
Qed.

Lemma run_same_probes acts s : same_probes s (run env acts s).
Proof.
  apply run_keeps; try done;
    first [ apply toggle_preview_probes | apply start_record_probes
          | apply stop_record_probes | apply on_close_probes
          | apply preview_loop_probes | apply record_loop_probes | typeclasses eauto ].
Qed.
End CodecOnce.

Lemma select_codec_choice w :
  fst (select_codec w) = preferred_codec \/ fst (select_codec w) = fallback_codec.
Proof.
  unfold select_codec, smoke_test, fs_now, mbind, St_bind, mret, St_ret.
  destruct (get_ffmpeg_path w) as [cmd w1].
  destruct (subprocess_run true cmd encoders_args w1) as [[result|] w2]; [|by right].
  destruct (existsb _ _); [|by right].
  destruct (mktemp _); [|by right].
  destruct (subprocess_run true cmd _ w2) as [[r|] w3]; [|by right].
  destruct (out_size _); [|by right].
  destruct (_ && _); [by left|by right].
Qed.

Lemma init_codec w : CODEC (app (init w)) = fst (select_codec w).
Proof.
  unfold init. destruct (select_codec w) as [codec w1].
  destruct (detect_devices w1) as [d1 w2]. destruct (detect_devices w2) as [d2 w3].
  destruct (get_supported_resolutions 0 w3) as [r w4].
  by destruct (detect_devices w4) as [d3 w5].
Qed.

Lemma init_probes w :
  codec_probes (world (init w)) = codec_probes (snd (select_codec w)).
Proof.
  unfold init. destruct (select_codec w) as [codec w1]. simpl.
  pose proof (detect_devices_probes w1) as H1.
  destruct (detect_devices w1) as [d1 w2].
  pose proof (detect_devices_probes w2) as H2.
  destruct (detect_devices w2) as [d2 w3].
  pose proof (get_supported_resolutions_probes 0 w3) as H3.
  destruct (get_supported_resolutions 0 w3) as [r w4].
  pose proof (detect_devices_probes w4) as H4.
  destruct (detect_devices w4) as [d3 w5]. simpl in *. congruence.
Qed.

(** C3, as the code has it: the codec is resolved once per run of the
    program. The constructor calls [select_codec] once and keeps the result
    in [CODEC]; whatever happens afterwards, [CODEC] is that result, it is
    one of the two choices, and no further encoder listing or smoke encode
    is run. *)
Theorem codec_resolved_once_per_run {cv : Cv2} (env : Env) (w : World) (acts : list Action) :
  let s := run env acts (init w) in
  CODEC (app s) = fst (select_codec w) /\
  (CODEC (app s) = preferred_codec \/ CODEC (app s) = fallback_codec) /\
  codec_probes (world s) = codec_probes (snd (select_codec w)).
Proof.
  intros s.
  assert (Hc : CODEC (app s) = fst (select_codec w)).
  { unfold s. rewrite (run_same_codec env acts (init w)). apply init_codec. }
  split; [exact Hc|]. split.
  - rewrite Hc. apply select_codec_choice.
  - unfold s. rewrite (run_same_probes env acts (init w)). apply init_probes.
Qed.

(** C3, as the claim states it, fails: [select_codec] keeps no cache. A
    second call lists the encoders again, and on a machine whose hardware
    encoder has gone in between it returns the other choice. *)
Lemma select_codec_reprobes_counterexample :
  let '(first, w1) := select_codec unplugged_machine in
  let '(second, w2) := select_codec w1 in
  first = "h264_qsv" /\ second = "libx264" /\
  length (codec_probes w1) = 2%nat /\ length (codec_probes w2) = 3%nat.
Proof. vm_compute. repeat split; reflexivity. Qed.

(* ===================================================================== *)
(** * Theorems: traces and the invariant of the program *)
(* ===================================================================== *)

(** ** Traces *)

Lemma balanced_nil : balanced [].
Proof. intros k. by destruct k. Qed.

Lemma balanced_app tr1 tr2 : balanced tr1 -> balanced tr2 -> balanced (tr1 ++ tr2).
Proof.
  intros H1 H2 k. destruct (H1 k) as [A1 B1], (H2 k) as [A2 B2].
  unfold pulled_by, filter_inputs, filter_results, delivered, shown, written in *.
  destruct k; rewrite !omap_app; split; congruence.
Qed.

Lemma balanced_control tr : Forall is_control tr -> balanced tr.
Proof.
  induction 1 as [|ev tr Hev _ IH]; [apply balanced_nil|].
  change (ev :: tr) with ([ev] ++ tr). apply balanced_app; [|exact IH].
  intros k. destruct ev as [k' [f|]| | | | | |]; try done; by destruct k.
Qed.

(** One frame through one loop: pulled, filtered once, handed to the sink
    of the loop. *)
Lemma balanced_preview_turn f fl r image :
  balanced [EvRead Preview (Some f); EvFilters Preview f fl r; EvShow r image].
Proof. intros k. by destruct k. Qed.

Lemma balanced_record_turn f fl r :
  balanced [EvRead Recording (Some f); EvFilters Recording f fl r; EvWrite r].
Proof. intros k. by destruct k. Qed.

(** ** The relations are preorders *)

Global Instance control_only_preorder : PreOrder control_only.
Proof.
  split.
  - intros s. exists []. by rewrite app_nil_r.
  - intros x y z (t1 & E1 & F1) (t2 & E2 & F2). exists (t1 ++ t2).
    split; [by rewrite E2, E1, app_assoc|by apply Forall_app].
Qed.

Global Instance settles_preorder : PreOrder settles.
Proof.
  split; [done|]. intros x y z (A1 & B1 & C1) (A2 & B2 & C2).
  repeat split; auto.
Qed.

Global Instance same_window_preorder : PreOrder same_window.
Proof. split; [done|]. intros x y z; unfold same_window; congruence. Qed.

Global Instance same_session_preorder : PreOrder same_session.
Proof.
  split; [done|]. intros x y z (A1 & B1 & C1) (A2 & B2 & C2).
  repeat split; congruence.
Qed.

(** ** What the primitive writes keep *)

Lemma control_only_quiet s s' : trace s' = trace s -> control_only s s'.
Proof. intros E. exists []. by rewrite app_nil_r. Qed.

Lemma control_only_update f : keeps control_only (update f).
Proof. intros s. by apply control_only_quiet. Qed.

Lemma control_only_spawn t : keeps control_only (spawn t).
Proof. intros s. by apply control_only_quiet. Qed.

Lemma control_only_in_world {A} (m : St World A) : keeps control_only (in_world m).
Proof. intros s. apply control_only_quiet. unfold in_world. by destruct (m (world s)). Qed.

Lemma control_only_emit ev : is_control ev -> keeps control_only (emit ev).
Proof. intros Hev s. exists [ev]. split; [done|by constructor]. Qed.

Ltac control_prim :=
  first [ apply control_only_update | apply control_only_spawn
        | apply control_only_in_world | apply control_only_emit; exact I ].

Lemma settles_update f :
  (forall a, (previewing (f a) = true -> previewing a = true) /\
             (recording (f a) = true -> recording a = true) /\
             (is_Some (writer a) -> is_Some (writer (f a)))) ->
  keeps settles (update f).
Proof. intros Hf s. apply Hf. Qed.

Lemma settles_emit ev : keeps settles (emit ev).
Proof. done. Qed.

Ltac settles_prim :=
  first [ apply settles_emit
        | apply settles_update; intros ?; simpl; repeat split; (done || eauto) ].

Lemma same_window_update f :
  (forall a, destroyed (f a) = destroyed a) -> keeps same_window (update f).
Proof. intros Hf s. apply Hf. Qed.

Lemma same_window_emit ev : keeps same_window (emit ev).
Proof. done. Qed.

Lemma same_window_spawn t : keeps same_window (spawn t).
Proof. done. Qed.

Lemma same_window_in_world {A} (m : St World A) : keeps same_window (in_world m).
Proof. intros s. unfold in_world, same_window. by destruct (m (world s)). Qed.

Ltac window_prim :=
  first [ apply same_window_update; intros ?; reflexivity | apply same_window_emit
        | apply same_window_spawn | apply same_window_in_world ].

Lemma same_session_update f :
  (forall a, recording (f a) = recording a /\ writer (f a) = writer a /\
             destroyed (f a) = destroyed a) ->
  keeps same_session (update f).
Proof. intros Hf s. apply Hf. Qed.

Lemma same_session_emit ev : keeps same_session (emit ev).
Proof. done. Qed.

Lemma same_session_spawn t : keeps same_session (spawn t).
Proof. done. Qed.

Lemma same_session_in_world {A} (m : St World A) : keeps same_session (in_world m).
Proof. intros s. unfold in_world, same_session. by destruct (m (world s)). Qed.

Ltac session_prim :=
  first [ apply same_session_update; intros ?; done | apply same_session_emit
        | apply same_session_spawn | apply same_session_in_world ].

Section Methods.
Context {cv : Cv2} (env : Env).

Lemma start_preview_control : keeps control_only (start_preview env).
Proof. unfold start_preview, messagebox. keeps_with control_only control_prim. Qed.

Lemma stop_preview_control : keeps control_only stop_preview.
Proof. unfold stop_preview. keeps_with control_only control_prim. Qed.

Lemma toggle_preview_control : keeps control_only (toggle_preview env).
Proof.
  unfold toggle_preview.
  keeps_with control_only
    ltac:(first [apply stop_preview_control | apply start_preview_control]).
Qed.

Lemma stop_record_control : keeps control_only stop_record.
Proof. unfold stop_record, messagebox. keeps_with control_only control_prim. Qed.

Lemma start_record_control : keeps control_only (start_record env).
Proof.
  unfold start_record, check_parameters, begin_record, messagebox.
  keeps_with control_only ltac:(first [apply start_preview_control | control_prim]).
Qed.

Lemma on_close_control : keeps control_only on_close.
Proof.
  unfold on_close.
  keeps_with control_only
    ltac:(first [apply stop_record_control | apply stop_preview_control | control_prim]).
Qed.

Lemma start_preview_session : keeps same_session (start_preview env).
Proof. unfold start_preview, messagebox. keeps_with same_session session_prim. Qed.

Lemma stop_preview_session : keeps same_session stop_preview.
Proof. unfold stop_preview. keeps_with same_session session_prim. Qed.

Lemma toggle_preview_session : keeps same_session (toggle_preview env).
Proof.
  unfold toggle_preview.
  keeps_with same_session
    ltac:(first [apply stop_preview_session | apply start_preview_session]).
Qed.

Lemma stop_preview_settles : keeps settles stop_preview.
Proof. unfold stop_preview. keeps_with settles settles_prim. Qed.

Lemma stop_record_settles : keeps settles stop_record.
Proof. unfold stop_record, messagebox. keeps_with settles settles_prim. Qed.

Lemma on_close_settles : keeps settles on_close.
Proof.
  unfold on_close.
  keeps_with settles
    ltac:(first [apply stop_record_settles | apply stop_preview_settles | settles_prim]).
Qed.

Lemma preview_loop_settles : keeps settles (preview_loop env).
Proof.
  unfold preview_loop, read_stream, apply_filters. keeps_with settles settles_prim.
Qed.

Lemma record_loop_settles st w h dur : keeps settles (record_loop st w h dur).
Proof.
  unfold record_loop, read_stream, apply_filters.
  keeps_with settles ltac:(first [apply stop_record_settles | settles_prim]).
Qed.

Lemma stop_record_window : keeps same_window stop_record.
Proof. unfold stop_record, messagebox. keeps_with same_window window_prim. Qed.

Lemma start_preview_window : keeps same_window (start_preview env).
Proof. unfold start_preview, messagebox. keeps_with same_window window_prim. Qed.

Lemma stop_preview_window : keeps same_window stop_preview.
Proof. unfold stop_preview. keeps_with same_window window_prim. Qed.

Lemma toggle_preview_window : keeps same_window (toggle_preview env).
Proof.
  unfold toggle_preview.
  keeps_with same_window
    ltac:(first [apply stop_preview_window | apply start_preview_window]).
Qed.

Lemma start_record_window : keeps same_window (start_record env).
Proof.
  unfold start_record, check_parameters, begin_record, messagebox.
  keeps_with same_window ltac:(first [apply start_preview_window | window_prim]).
Qed.

Lemma preview_loop_window : keeps same_window (preview_loop env).
Proof.
  unfold preview_loop, read_stream, apply_filters. keeps_with same_window window_prim.
Qed.

Lemma record_loop_window st w h dur : keeps same_window (record_loop st w h dur).
Proof.
  unfold record_loop, read_stream, apply_filters.
  keeps_with same_window ltac:(first [apply stop_record_window | window_prim]).
Qed.
End Methods.

Section Loops.
Context {cv : Cv2} (env : Env).


Ltac grown tr :=
  exists tr; split; [simpl; rewrite <- ?app_assoc, ?app_nil_r; reflexivity|].

Lemma control_only_balanced s s' :
  control_only s s' -> exists tr, trace s' = trace s ++ tr /\ balanced tr.
Proof. intros (tr & E & F). exists tr. split; [done|by apply balanced_control]. Qed.

Lemma preview_loop_balanced s :
  quiet_when_destroyed s ->
  exists tr, trace (snd (preview_loop env s)) = trace s ++ tr /\ balanced tr.
Proof.
  intros Hq. unfold preview_loop, read_stream, apply_filters. act_unfold.
  destruct (previewing (app s)) eqn:Hp; simpl.
  2:{ grown (@nil Event). apply balanced_nil. }
  assert (Hd : destroyed (app s) = false).
  { destruct (destroyed (app s)) eqn:E; [|done]. destruct (Hq E). congruence. }
  destruct (stream (app s)) as [cam|]; simpl.
  2:{ grown (@nil Event). apply balanced_nil. }
  destruct (pending cam) as [|f rest]; simpl.
  { grown [EvRead Preview None]. apply balanced_control. by repeat constructor. }
  rewrite Hd. simpl.
  destruct (filters_frame_total f (toggles (app s))) as [r Hr]. rewrite Hr. simpl.
  rewrite Hd. simpl. rewrite Hd. simpl.
  eexists. split; [by rewrite <- !app_assoc|]. apply balanced_preview_turn.
Qed.

#[local] Arguments stop_record : simpl never.

Lemma stop_record_balanced s tr0 :
  Forall is_control tr0 ->
  forall s1, trace s1 = trace s ++ tr0 ->
  exists tr, trace (snd (stop_record s1)) = trace s ++ tr /\ balanced tr.
Proof.
  intros H0 s1 E1. destruct (stop_record_control s1) as (tr & E & F).
  exists (tr0 ++ tr). split; [by rewrite E, E1, app_assoc|].
  apply balanced_control. by apply Forall_app.
Qed.

Lemma record_loop_balanced st w h dur s :
  quiet_when_destroyed s -> writer_ready s ->
  exists tr, trace (snd (record_loop st w h dur s)) = trace s ++ tr /\ balanced tr.
Proof.
  intros Hq Hw. unfold record_loop, read_stream, apply_filters. act_unfold.
  destruct (recording (app s) && _) eqn:Hc; simpl.
  2:{ destruct (stop_record_balanced s [] ltac:(constructor) s) as (tr & E & B);
        [by rewrite app_nil_r|].
      exists tr. split; [|done]. by destruct (stop_record s) as [[[]|e] s1]. }
  apply andb_true_iff in Hc as [Hrec _].
  assert (Hd : destroyed (app s) = false).
  { destruct (destroyed (app s)) eqn:E; [|done]. destruct (Hq E). congruence. }
  destruct (Hw Hrec) as [g Hg].
  destruct (stream (app s)) as [cam|]; simpl.
  2:{ grown (@nil Event). apply balanced_nil. }
  destruct (pending cam) as [|f rest]; simpl.
  { match goal with
    | |- context [stop_record ?s1] =>
        destruct (stop_record_balanced s [EvRead Recording None]
                    ltac:(by repeat constructor) s1) as (tr & E & B); [done|];
        exists tr; split; [|done]; by destruct (stop_record s1) as [[[]|e] s2]
    end. }
  rewrite Hd. simpl.
  destruct (filters_frame_total f (toggles (app s))) as [r Hr]. rewrite Hr. simpl.
  rewrite Hg. simpl.
  eexists. split; [by rewrite <- !app_assoc|]. apply balanced_record_turn.
Qed.
End Loops.

Section Preserves.
Context (I : Sys -> Prop).

Lemma preserves_bind {A B} (m : Act A) (f : A -> Act B) :
  preserves I m -> (forall a, preserves I (f a)) -> preserves I (m ≫= f).
Proof.
  intros Hm Hf s Hs. unfold mbind, Act_bind. specialize (Hm s Hs).
  destruct (m s) as [[a|e] s1]; simpl in *; [by apply Hf|done].
Qed.

Lemma preserves_keeps {A} (R : relation Sys) (m : Act A) :
  (forall s s', R s s' -> I s -> I s') -> keeps R m -> preserves I m.
Proof. intros HR Hm s Hs. exact (HR _ _ (Hm s) Hs). Qed.

Lemma preserves_pure {A} (m : Act A) :
  (forall s, snd (m s) = s) -> preserves I m.
Proof. intros Hm s Hs. by rewrite Hm. Qed.
End Preserves.

Lemma quiet_settles s s' :
  settles s s' -> same_window s s' -> quiet_when_destroyed s -> quiet_when_destroyed s'.
Proof.
  intros (Hp & Hr & _) Hw Hq Hd. unfold same_window in Hw. rewrite Hw in Hd.
  destruct (Hq Hd) as [Ep Er]. split.
  - destruct (previewing (app s')); [|done]. rewrite Hp in Ep; done.
  - destruct (recording (app s')); [|done]. rewrite Hr in Er; done.
Qed.

Lemma quiet_alive s : destroyed (app s) = false -> quiet_when_destroyed s.
Proof. intros Hd Hd'. congruence. Qed.

Lemma ready_settles s s' : settles s s' -> writer_ready s -> writer_ready s'.
Proof. intros (_ & Hr & Hw) Hready Hrec. auto. Qed.

Lemma ready_session s s' : same_session s s' -> writer_ready s -> writer_ready s'.
Proof. intros (Hr & Hw & _) Hready. unfold writer_ready. by rewrite Hr, Hw. Qed.

Section Start.
Context {cv : Cv2} (env : Env).

Lemma check_parameters_session : keeps same_session check_parameters.
Proof. unfold check_parameters. keeps_with same_session session_prim. Qed.

Lemma begin_record_ready p : preserves writer_ready (begin_record env p).
Proof.
  destruct p as [[[[[w h] f] dur] out] q]. unfold begin_record.
  apply preserves_bind; [by apply preserves_pure|]. intros a.
  apply preserves_bind.
  { apply (preserves_keeps _ same_session); [apply ready_session|].
    destruct (previewing a); [apply (keeps_ret same_session)|apply start_preview_session]. }
  intros []. intros s Hs. unfold try_except. act_unfold.
  destruct (writegear_ok env out); simpl.
  - intros _. by eexists.
  - destruct (destroyed (app s)); simpl; exact Hs.
Qed.

Lemma start_record_ready : preserves writer_ready (start_record env).
Proof.
  unfold start_record.
  apply preserves_bind; [by apply preserves_pure|]. intros t.
  apply preserves_bind; [by apply preserves_pure|]. intros a.
  apply preserves_bind.
  { destruct (makedirs_ok env _); by apply preserves_pure. }
  intros [].
  apply preserves_bind.
  { apply (preserves_keeps _ same_session); [apply ready_session|]. by apply same_session_update. }
  intros [].
  apply preserves_bind.
  { apply (preserves_keeps _ same_session); [apply ready_session|].
    unfold messagebox.
    keeps_with same_session ltac:(first [apply check_parameters_session | session_prim]). }
  intros [p|]; [apply begin_record_ready|by apply preserves_pure].
Qed.

Lemma stop_record_alive s :
  destroyed (app s) = false ->
  exists s1, stop_record s = (Ok tt, s1) /\
    recording (app s1) = false /\
    previewing (app s1) = previewing (app s) /\
    destroyed (app s1) = false.
Proof.
  intros Hd. unfold stop_record. act_unfold. rewrite Hd. simpl.
  destruct (writer (app s)); simpl; rewrite Hd; eauto.
Qed.

Lemma stop_preview_alive s :
  destroyed (app s) = false ->
  exists s1, stop_preview s = (Ok tt, s1) /\
    previewing (app s1) = false /\
    recording (app s1) = recording (app s) /\
    destroyed (app s1) = false.
Proof.
  intros Hd. unfold stop_preview. act_unfold. rewrite Hd. simpl. rewrite Hd. eauto.
Qed.

Lemma on_close_quiet s :
  destroyed (app s) = false -> quiet_when_destroyed (snd (on_close s)).
Proof.
  intros Hd _.
  assert (Hrec : exists s1, (if recording (app s) then stop_record else mret ()) s = (Ok tt, s1)
                            /\ recording (app s1) = false
                            /\ previewing (app s1) = previewing (app s)
                            /\ destroyed (app s1) = false).
  { destruct (recording (app s)) eqn:Er; [by apply stop_record_alive|by exists s]. }
  destruct Hrec as (s1 & E1 & R1 & P1 & D1).
  assert (Hpre : exists s2, (if previewing (app s1) then stop_preview else mret ()) s1 = (Ok tt, s2)
                            /\ previewing (app s2) = false
                            /\ recording (app s2) = false).
  { destruct (previewing (app s1)) eqn:Ep.
    - destruct (stop_preview_alive s1 D1) as (s2 & A & B & C & D).
      exists s2. split; [done|]. split; [done|congruence].
    - by exists s1. }
  destruct Hpre as (s2 & E2 & P2 & R2).
  unfold on_close, mbind, Act_bind, get_app. rewrite E1, E2. done.
Qed.

(** Every step of the program keeps the invariant. *)
Lemma exec_inv act s : Inv s -> Inv (exec env act s).
Proof.
  intros (Hq & Hr & Hb). destruct act; simpl; unfold callback.
  - (* PressPreview *)
    destruct (destroyed (app s)) eqn:Hd; [done|].
    pose proof (toggle_preview_session env s) as Hs.
    pose proof (toggle_preview_control env s) as (tr & E & F).
    split; [|split].
    + apply quiet_alive. destruct Hs as (_ & _ & ->). done.
    + by eapply ready_session.
    + rewrite E. apply balanced_app; [done|by apply balanced_control].
  - (* PressStart *)
    destruct (destroyed (app s) || negb (start_btn (app s))) eqn:Hg; [done|].
    apply orb_false_iff in Hg as [Hd _].
    pose proof (start_record_window env s) as Hw.
    pose proof (start_record_control env s) as (tr & E & F).
    split; [|split].
    + apply quiet_alive. unfold same_window in Hw. congruence.
    + by apply start_record_ready.
    + rewrite E. apply balanced_app; [done|by apply balanced_control].
  - (* PressStop *)
    destruct (destroyed (app s) || negb (stop_btn (app s))) eqn:Hg; [done|].
    apply orb_false_iff in Hg as [Hd _].
    pose proof (stop_record_window s) as Hw.
    pose proof (stop_record_settles s) as Hs.
    pose proof (stop_record_control s) as (tr & E & F).
    split; [|split].
    + by eapply quiet_settles.
    + by eapply ready_settles.
    + rewrite E. apply balanced_app; [done|by apply balanced_control].
  - (* CloseWindow *)
    destruct (destroyed (app s)) eqn:Hd; [done|].
    pose proof (on_close_settles s) as Hs.
    pose proof (on_close_control s) as (tr & E & F).
    split; [|split].
    + by apply on_close_quiet.
    + by eapply ready_settles.
    + rewrite E. apply balanced_app; [done|by apply balanced_control].
  - (* SetToggles *)
    destruct (destroyed (app s)); done.
  - (* Step *)
    destruct (threads s !! i) as [t|]; [|done].
    assert (Ht : Inv (snd (run_thread env t s))).
    { destruct t as [|st w h dur]; simpl.
      - pose proof (preview_loop_settles env s). pose proof (preview_loop_window env s).
        destruct (preview_loop_balanced env s Hq) as (tr & E & B).
        split; [by eapply quiet_settles|]. split; [by eapply ready_settles|].
        rewrite E. by apply balanced_app.
      - pose proof (record_loop_settles st w h dur s).
        pose proof (record_loop_window st w h dur s).
        destruct (record_loop_balanced st w h dur s Hq Hr) as (tr & E & B).
        split; [by eapply quiet_settles|]. split; [by eapply ready_settles|].
        rewrite E. by apply balanced_app. }
    destruct (run_thread env t s) as [[[t'|]|e] s']; exact Ht.
  - (* Tick *)
    done.
Qed.

Lemma run_inv acts : forall s, Inv s -> Inv (run env acts s).
Proof.
  induction acts as [|act acts IH]; intros s Hs; simpl; [done|].
  apply IH. by apply exec_inv.
Qed.
End Start.

Lemma init_inv w : Inv (init w).
Proof.
  unfold init. destruct (select_codec w) as [codec w1].
  destruct (detect_devices w1) as [d1 w2]. destruct (detect_devices w2) as [d2 w3].
  destruct (get_supported_resolutions 0 w3) as [r w4].
  destruct (detect_devices w4) as [d3 w5].
  split; [|split]; [done|done|apply balanced_nil].
Qed.


(* ===================================================================== *)
(** * Theorems: starting a recording *)
(* ===================================================================== *)

Lemma bad_parameters_spec w h f dur out :
  bad_parameters w h f dur out = true <->
  w <= 0 \/ h <= 0 \/ f <= 0 \/ dur <= 0 \/ Py.endswith (Py.lower out) ".mp4" = false.
Proof.
  unfold bad_parameters, EXT. rewrite !orb_true_iff, !Z.leb_le, negb_true_iff. tauto.
Qed.

Section StartRecord.
Context (env : Env).

End StartRecord.


Section Begin.
Context (env : Env).

(** When [start_record] turns the recording on, the writer it has just
    constructed carries the options dictionary of the resolved codec. *)
Lemma begin_record_options w h f dur out q s :
  recording (app s) = false ->
  recording (app (snd (begin_record env (w, h, f, dur, out, q) s))) = true ->
  writer (app (snd (begin_record env (w, h, f, dur, out, q) s)))
  = Some {| w_output := out;
            w_options := encoder_options (CODEC (app s)) q f;
            w_frames := []; w_closes := 0 |}.
Proof.
  intros Hrec.
  destruct (begin_record env (w, h, f, dur, out, q) s) as [r s'] eqn:E. simpl.
  revert E. unfold begin_record.
  unfold mbind at 1, Act_bind at 1, get_app at 1.
  unfold mbind at 1, Act_bind at 1.
  assert (Hs : same_session s
                 (snd ((if previewing (app s) then mret () else start_preview env) s))).
  { destruct (previewing (app s)); [reflexivity|apply start_preview_session]. }
  destruct ((if previewing (app s) then mret () else start_preview env) s)
    as [[[]|e] s1]; simpl in Hs; destruct Hs as (Hr1 & _ & _).
  2:{ intros [= <- <-]. congruence. }
  unfold try_except. act_unfold.
  destruct (writegear_ok env out); simpl; [by intros [= <- <-]|].
  destruct (destroyed (app s1)); simpl; intros [= <- <-]; simpl; congruence.
Qed.
End Begin.

(* ===================================================================== *)
(** * Theorems: the preview canvas, and the end of a recording *)
(* ===================================================================== *)

(** For the usual camera modes the height of the canvas comes out exact. *)
Lemma standard_modes_exact w h :
  In (w, h) standard_modes ->
  exists canvas_height,
    preview_canvas_size w h = Some (PREVIEW_WIDTH, canvas_height) /\
    PREVIEW_WIDTH * h = canvas_height * w.
Proof.
  unfold standard_modes. simpl.
  intros H; repeat (destruct H as [H|H]; [injection H as <- <-|]); try done;
    eexists; (split; [vm_compute; reflexivity|reflexivity]).
Qed.

Section Preview.
Context (env : Env).

#[local] Arguments index_of : simpl never.

End Preview.



(** C2: the failing run. The recording is started, one frame is recorded,
    the user presses the stop button, and the record loop, finding the flag
    cleared, leaves its loop and calls [stop_record] once more: the writer
    is closed twice and the completion dialog is shown twice. *)
Theorem stop_button_closes_writer_twice :
  let s := run (cv := plain_cv2) (studio [pixel Byte.x01; pixel Byte.x02])
               [PressStart; Step 1; PressStop; Step 1] (started "640x480" "30") in
  closes (trace s) = 2%nat /\
  (w_closes <$> writer (app s)) = Some 2%nat /\
  dialogs (trace s) = [InfoRecordStopped; InfoRecordStopped] /\
  recording (app s) = false.
Proof. vm_compute. repeat split; reflexivity. Qed.

(** The other ways a recording ends close the writer once: the duration
    elapses, the stream is exhausted, the window is closed. *)
Example other_endings_close_once :
  closes (trace (run (cv := plain_cv2) (studio [pixel Byte.x01; pixel Byte.x02])
                     [PressStart; Step 1; Tick 60000; Step 1]
                     (started "640x480" "30"))) = 1%nat
  /\ closes (trace (run (cv := plain_cv2) (studio [pixel Byte.x01])
                        [PressStart; Step 1; Step 1]
                        (started "640x480" "30"))) = 1%nat
  /\ closes (trace (run (cv := plain_cv2) (studio [pixel Byte.x01; pixel Byte.x02])
                        [PressStart; Step 1; CloseWindow; Step 1]
                        (started "640x480" "30"))) = 1%nat.
Proof. vm_compute. repeat split; reflexivity. Qed.

(** Calling [stop_record] again closes the writer again: the method keeps
    no record of having closed it. *)
Lemma stop_record_closes_each_time s g :
  destroyed (app s) = false ->
  writer (app s) = Some g ->
  writer (app (snd (stop_record s))) = Some (wg_close g) /\
  writer (app (snd (stop_record (snd (stop_record s))))) = Some (wg_close (wg_close g)).
Proof.
  intros Hd Hg.
  assert (Hone : forall s0 g0, destroyed (app s0) = false -> writer (app s0) = Some g0 ->
            writer (app (snd (stop_record s0))) = Some (wg_close g0) /\
            destroyed (app (snd (stop_record s0))) = false).
  { intros s0 g0 Hd0 Hg0. unfold stop_record. act_unfold.
    rewrite Hd0. simpl. rewrite Hg0. simpl. rewrite Hd0. done. }
  destruct (Hone s g Hd Hg) as [H1 D1]. split; [exact H1|].
  by destruct (Hone _ _ D1 H1).
Qed.


(* ===================================================================== *)
(** * Theorems: reading numbers and resolutions back *)
(* ===================================================================== *)

Lemma pretty_N_char_digit x : Py.isdigit (pretty_N_char x) = true.
Proof. unfold pretty_N_char. by repeat case_match. Qed.

Lemma pretty_N_char_value x : (x < 10)%N -> Py.digit_value (pretty_N_char x) = Z.of_N x.
Proof.
  intros Hx.
  assert (x = 0 \/ x = 1 \/ x = 2 \/ x = 3 \/ x = 4 \/ x = 5 \/ x = 6 \/ x = 7
          \/ x = 8 \/ x = 9)%N as Hc by lia.
  repeat (destruct Hc as [->|Hc]; [reflexivity|]). by subst.
Qed.

Lemma pretty_N_go_digits x : forall s, all_digits s = true -> all_digits (pretty_N_go x s) = true.
Proof.
  induction (N.lt_wf_0 x) as [x _ IH]; intros s Hs.
  destruct (decide (x = 0%N)) as [->|Hx]; [done|].
  rewrite pretty_N_go_step by lia. apply IH.
  - apply N.div_lt; lia.
  - simpl. by rewrite pretty_N_char_digit.
Qed.

Lemma digits_value_app acc s :
  digits_value acc s = acc * 10 ^ Z.of_nat (String.length s) + digits_value 0 s.
Proof.
  revert acc. induction s as [|c rest IH]; intros acc; simpl String.length.
  - simpl. lia.
  - cbn [digits_value]. rewrite (IH (10 * acc + _)), (IH (10 * 0 + _)).
    rewrite Nat2Z.inj_succ, Z.pow_succ_r by lia. lia.
Qed.

Lemma pretty_N_go_value x : forall s,
  digits_value 0 (pretty_N_go x s)
  = Z.of_N x * 10 ^ Z.of_nat (String.length s) + digits_value 0 s.
Proof.
  induction (N.lt_wf_0 x) as [x _ IH]; intros s.
  destruct (decide (x = 0%N)) as [->|Hx]; [rewrite pretty_N_go_0; lia|].
  rewrite pretty_N_go_step by lia. rewrite IH by (apply N.div_lt; lia).
  cbn [digits_value String.length]. rewrite (digits_value_app (10 * 0 + _)).
  rewrite pretty_N_char_value by (apply N.mod_lt; lia).
  rewrite Nat2Z.inj_succ, Z.pow_succ_r by lia.
  assert (Hx' : Z.of_N x = 10 * Z.of_N (x `div` 10) + Z.of_N (x `mod` 10)).
  { rewrite <- (N2Z.inj_mul 10), <- N2Z.inj_add. f_equal. apply N.div_mod. lia. }
  rewrite Hx'. ring.
Qed.

Lemma pretty_N_go_nonempty x s : (0 < x)%N -> Py.is_empty (pretty_N_go x s) = false.
Proof.
  revert s. induction (N.lt_wf_0 x) as [x _ IH]; intros s Hx.
  rewrite pretty_N_go_step by done.
  destruct (decide (x `div` 10 = 0)%N) as [->|Hq]; [done|].
  apply IH; [apply N.div_lt; lia|by apply N.neq_0_lt_0].
Qed.

Lemma int_digits_all_digits s : forall acc seen,
  all_digits s = true -> (Py.is_empty s = false \/ seen = true) ->
  Py.int_digits acc seen s = Some (digits_value acc s).
Proof.
  induction s as [|c rest IH]; intros acc seen Hs Hne; simpl in *.
  - destruct Hne as [H| ->]; done.
  - apply andb_true_iff in Hs as [Hc Hrest]. rewrite Hc. apply IH; auto.
Qed.

Lemma all_digits_lstrip s : all_digits s = true -> Py.lstrip s = s.
Proof.
  destruct s as [|c rest]; [done|]. simpl. intros [Hc _]%andb_true_iff.
  by rewrite (isdigit_not_space c Hc).
Qed.

Lemma all_digits_rstrip s : all_digits s = true -> Py.rstrip s = s.
Proof.
  induction s as [|c rest IH]; [done|]. simpl. intros [Hc Hrest]%andb_true_iff.
  by rewrite (IH Hrest), (isdigit_not_space c Hc).
Qed.

(** [int] reads back a text of digits. *)
Lemma int_all_digits s :
  all_digits s = true -> Py.is_empty s = false -> Py.int s = Some (digits_value 0 s).
Proof.
  intros Hs Hne. unfold Py.int, Py.strip.
  rewrite (all_digits_lstrip s Hs), (all_digits_rstrip s Hs).
  destruct s as [|c rest]; [done|].
  pose proof Hs as [Hc _]%andb_true_iff.
  assert (Hm : Ascii.eqb c "-" = false) by (apply isdigit_not_char; [done|reflexivity]).
  assert (Hp : Ascii.eqb c "+" = false) by (apply isdigit_not_char; [done|reflexivity]).
  apply Ascii.eqb_neq in Hm, Hp.
  transitivity (Py.int_digits 0 false (String c rest)).
  { destruct c as [[] [] [] [] [] [] [] []]; try reflexivity; congruence. }
  apply int_digits_all_digits; auto.
Qed.

Lemma pretty_positive_digits p :
  all_digits (pretty (N.pos p)) = true /\ Py.is_empty (pretty (N.pos p)) = false /\
  digits_value 0 (pretty (N.pos p)) = Z.pos p.
Proof.
  unfold pretty, pretty_N. rewrite decide_False by done.
  split; [by apply pretty_N_go_digits|]. split; [by apply pretty_N_go_nonempty|].
  rewrite pretty_N_go_value. simpl. lia.
Qed.

Lemma int_minus s :
  all_digits s = true -> Py.is_empty s = false ->
  Py.int (String "-" s) = Some (- digits_value 0 s).
Proof.
  intros Hd Hne.
  assert (Hs : Py.strip (String "-" s) = String "-" s).
  { unfold Py.strip. change (Py.lstrip (String "-" s)) with (String "-" s).
    cbn [Py.rstrip]. by rewrite (all_digits_rstrip s Hd). }
  unfold Py.int. rewrite Hs. by rewrite int_digits_all_digits by auto.
Qed.

(** [int(str(n))] is [n]. *)
Lemma int_str n : Py.int (Py.str n) = Some n.
Proof.
  unfold Py.str, pretty, pretty_Z. destruct n as [|p|p]; [reflexivity| |].
  - unfold pretty, pretty_positive.
    destruct (pretty_positive_digits p) as (Hd & Hne & Hv).
    by rewrite int_all_digits, Hv.
  - unfold pretty at 1, pretty_positive.
    destruct (pretty_positive_digits p) as (Hd & Hne & Hv).
    change ("-" +:+ pretty (N.pos p)) with (String "-" (pretty (N.pos p))).
    by rewrite int_minus, Hv.
Qed.

Lemma append_nil s : "" +:+ s = s.
Proof. reflexivity. Qed.

Lemma append_cons c a b : String c a +:+ b = String c (a +:+ b).
Proof. reflexivity. Qed.

Lemma append_empty_r s : s +:+ "" = s.
Proof. induction s as [|c s IH]; [done|]. by rewrite append_cons, IH. Qed.

Lemma append_assoc a b c : (a +:+ b) +:+ c = a +:+ (b +:+ c).
Proof. induction a as [|d a IH]; [done|]. by rewrite !append_cons, IH. Qed.

Lemma snoc_app cur c rest : Py.snoc cur c +:+ rest = cur +:+ String c rest.
Proof. unfold Py.snoc. by rewrite append_assoc. Qed.

#[local] Arguments Py.snoc : simpl never.

Lemma avoids_app sep a b : avoids sep (a +:+ b) = avoids sep a && avoids sep b.
Proof.
  induction a as [|c a IH]; [done|]. rewrite append_cons. simpl.
  by rewrite IH, andb_assoc.
Qed.

Lemma numeric_avoids sep s :
  Py.isdigit sep = false -> Ascii.eqb sep "-" = false -> numeric s = true ->
  avoids sep s = true.
Proof.
  intros Hd Hm. induction s as [|c rest IH]; simpl; [done|].
  intros [Hc Hrest]%andb_true_iff. rewrite (IH Hrest), andb_true_r.
  apply negb_true_iff, Ascii.eqb_neq. intros ->.
  rewrite Hd, Hm in Hc. done.
Qed.

Lemma all_digits_numeric s : all_digits s = true -> numeric s = true.
Proof.
  induction s as [|c rest IH]; simpl; [done|].
  intros [-> Hrest]%andb_true_iff. by rewrite IH.
Qed.

Lemma numeric_str n : numeric (Py.str n) = true.
Proof.
  unfold Py.str, pretty, pretty_Z. destruct n as [|p|p]; [reflexivity| |].
  - apply all_digits_numeric, pretty_positive_digits.
  - change ("-" +:+ pretty p) with (String "-" (pretty (N.pos p))).
    simpl. apply all_digits_numeric, pretty_positive_digits.
Qed.

(** [split] on a text without the separator gives the text itself. *)
Lemma split_from_avoids sep a : forall cur,
  avoids sep a = true -> Py.split_from sep cur a = [cur +:+ a].
Proof.
  induction a as [|c a IH]; intros cur; simpl.
  - by rewrite append_empty_r.
  - intros [Hc Ha]%andb_true_iff. apply negb_true_iff in Hc. rewrite Hc.
    rewrite IH by done. by rewrite snoc_app.
Qed.

Lemma split_from_sep sep a b : forall cur,
  avoids sep a = true ->
  Py.split_from sep cur (a +:+ String sep b) = (cur +:+ a) :: Py.split_from sep "" b.
Proof.
  induction a as [|c a IH]; intros cur.
  - intros _. rewrite append_nil. simpl. by rewrite Ascii.eqb_refl, append_empty_r.
  - simpl. intros [Hc Ha]%andb_true_iff. apply negb_true_iff in Hc.
    rewrite ?append_cons. simpl. rewrite Hc.
    rewrite IH by done. by rewrite snoc_app.
Qed.

Lemma remove_from_cons old c rest :
  Py.remove_from old 0 (String c rest) =
  if String.prefix old (String c rest)
  then Py.remove_from old (Nat.pred (String.length old)) rest
  else String c (Py.remove_from old 0 rest).
Proof. reflexivity. Qed.

Lemma prefix_fps_numeric c rest :
  Py.isdigit c || Ascii.eqb c "-" = true -> String.prefix "fps" (String c rest) = false.
Proof.
  intros Hc. cbn [String.prefix]. destruct (ascii_dec "f" c) as [<-|Hne]; [done|reflexivity].
Qed.

(** [replace] takes the unit [fps] off a numeric text. *)
Lemma remove_fps s : numeric s = true -> Py.remove "fps" (s +:+ "fps") = s.
Proof.
  unfold Py.remove. induction s as [|c rest IH]; [reflexivity|].
  intros Hn. cbn [numeric] in Hn. apply andb_true_iff in Hn as [Hc Hrest].
  change (String c rest +:+ "fps") with (String c (rest +:+ "fps")).
  by rewrite remove_from_cons, prefix_fps_numeric, IH.
Qed.

(** An entry of the resolution list, read back as [start_preview] and
    [start_record] read the resolution box, gives the mode it was printed
    from. *)
Lemma parse_format_resolution w h fps :
  parse_resolution (format_resolution (w, h, fps)) = Some (w, h, fps).
Proof.
  unfold parse_resolution, format_resolution, Py.split.
  pose proof (numeric_str w) as Hw. pose proof (numeric_str h) as Hh.
  pose proof (numeric_str fps) as Hf.
  set (W := Py.str w) in *. set (H := Py.str h) in *. set (F := Py.str fps) in *.
  replace (W +:+ "x" +:+ H +:+ "@" +:+ F +:+ "fps")
    with ((W +:+ "x" +:+ H) +:+ String "@" (F +:+ "fps"))
    by (by rewrite !append_assoc).
  rewrite split_from_sep.
  2:{ rewrite !avoids_app, (numeric_avoids "@" W), (numeric_avoids "@" H) by done. done. }
  rewrite split_from_avoids.
  2:{ rewrite avoids_app, (numeric_avoids "@" F) by done. done. }
  rewrite !append_nil.
  change ("x" +:+ H) with (String "x" H).
  rewrite split_from_sep by (by apply numeric_avoids).
  rewrite split_from_avoids by (by apply numeric_avoids).
  rewrite !append_nil. rewrite remove_fps by done.
  subst W H F. by rewrite !int_str.
Qed.

#[local] Arguments index_of : simpl never.
#[local] Arguments get_supported_resolutions : simpl never.
#[local] Arguments detect_devices : simpl never.

(** X1: [update_resolution_list] fills the resolution box from the modes of
    the selected device and sets the buttons from that list alone. With at
    least one mode the first entry is selected and the start button is
    enabled, also while a recording runs; with none (no mode, or a device
    name that is not in the list, which is reported) the button is disabled
    and the box keeps the text it had. The flag [recording] is not
    consulted and not changed. *)
Theorem resolution_box_follows_modes s :
  destroyed (app s) = false ->
  let modes := default [] (modes_offered s) in
  let enabled := match modes with [] => false | _ :: _ => true end in
  exists s', update_resolution_list s = (Ok (map format_resolution modes, enabled), s') /\
    start_btn (app s') = enabled /\
    resolution_var (app s') = match modes with
                              | first :: _ => format_resolution first
                              | [] => resolution_var (app s)
                              end /\
    recording (app s') = recording (app s) /\
    dialogs (trace s') = dialogs (trace s) ++
      match modes_offered s with None => [ErrDeviceNotFound] | Some _ => [] end.
Proof.
  intros Hd. unfold modes_offered, update_resolution_list, in_world. act_unfold.
  rewrite Hd. simpl.
  destruct (detect_devices (world s)) as [found w1]. simpl.
  destruct (index_of (device_menu (app s)) found) as [idx|]; simpl.
  - destruct (get_supported_resolutions idx w1) as [modes w2]. simpl. rewrite Hd. simpl.
    destruct modes as [|first rest]; simpl; repeat (rewrite Hd; simpl);
      eexists; (split; [reflexivity|]); simpl; rewrite ?app_nil_r; done.
  - repeat (rewrite Hd; simpl).
    eexists; (split; [reflexivity|]); simpl. repeat split.
    unfold dialogs. by rewrite omap_app.
Qed.

Lemma resolution_box_witness :
  exists s', update_resolution_list (started "640x480" "30")
             = (Ok (["640x480@30fps"], true), s') /\
    start_btn (app s') = true /\
    resolution_var (app s') = "640x480@30fps" /\
    recording (app s') = recording (app (started "640x480" "30")) /\
    dialogs (trace s') = dialogs (trace (started "640x480" "30")) ++ [].
Proof.
  apply (resolution_box_follows_modes (started "640x480" "30")).
  vm_compute. reflexivity.
Defined.

(** X2: every entry of the resolution box reads back as the mode it was
    printed from: [WxH@Ffps], split at [@] and [x] and freed of [fps] as
    [start_preview] and [start_record] do, gives the three numbers again,
    for any integers (a sign included). *)
Theorem resolution_entries_read_back (modes : list (Z * Z * Z)) :
  Forall2 (fun entry mode => parse_resolution entry = Some mode)
          (map format_resolution modes) modes.
Proof.
  induction modes as [|[[w h] fps] modes IH]; simpl; constructor; [|done].
  apply parse_format_resolution.
Qed.

(* ===================================================================== *)
(** * Theorems: the probes of the machine *)
(* ===================================================================== *)

Lemma span_nil p : Py.span p "" = ("", "").
Proof. reflexivity. Qed.

Lemma span_cons p c rest :
  Py.span p (String c rest)
  = if p c then let '(a, b) := Py.span p rest in (String c a, b)
    else ("", String c rest).
Proof. reflexivity. Qed.

Lemma span_all_digits s : forall a b,
  Py.span Py.isdigit s = (a, b) -> all_digits a = true.
Proof.
  induction s as [|c rest IH]; intros a b.
  - rewrite span_nil. by intros [= <- <-].
  - rewrite span_cons. destruct (Py.isdigit c) eqn:Hc.
    + destruct (Py.span Py.isdigit rest) as [a' b']. intros [= <- <-]. simpl.
      rewrite Hc. by eapply IH.
    + by intros [= <- <-].
Qed.

(** The groups of a match are texts of digits, and not empty. *)
Lemma match_here_groups s gw gh gf :
  Re.match_here s = Some (gw, gh, gf) ->
  (all_digits gw = true /\ Py.is_empty gw = false) /\
  (all_digits gh = true /\ Py.is_empty gh = false) /\
  (all_digits gf = true /\ Py.is_empty gf = false).
Proof.
  unfold Re.match_here. intros H.
  destruct (Py.strip_prefix "max s=" s) as [s1|]; cbn in H; [|discriminate].
  destruct (Py.span Py.isdigit s1) as [a1 s2] eqn:E1.
  destruct (Py.is_empty a1) eqn:N1; [discriminate|].
  destruct (Py.strip_prefix "x" s2) as [s3|]; cbn in H; [|discriminate].
  destruct (Py.span Py.isdigit s3) as [a2 s4] eqn:E2.
  destruct (Py.is_empty a2) eqn:N2; [discriminate|].
  destruct (Py.span Py.isspace s4) as [blank s5].
  destruct (Py.is_empty blank); [discriminate|].
  destruct (Py.strip_prefix "fps=" s5) as [s6|]; cbn in H; [|discriminate].
  destruct (Py.span Py.isdigit s6) as [a3 s7] eqn:E3.
  destruct (Py.is_empty a3) eqn:N3; [discriminate|].
  injection H as <- <- <-.
  repeat split; try done; eapply span_all_digits; eassumption.
Qed.

Lemma search_groups s gw gh gf :
  Re.search s = Some (gw, gh, gf) ->
  (all_digits gw = true /\ Py.is_empty gw = false) /\
  (all_digits gh = true /\ Py.is_empty gh = false) /\
  (all_digits gf = true /\ Py.is_empty gf = false).
Proof.
  induction s as [|c rest IH]; rewrite search_unfold;
    destruct (Re.match_here _) as [g|] eqn:E; intros H; try discriminate.
  - injection H as ->. eauto using match_here_groups.
  - eauto.
Qed.

(** The loop of [get_supported_resolutions] never fails on a number: every
    group of a match is read by [int]. It appends one mode for each line
    that is read, and nothing for any other line. *)
Lemma collect_modes_appends lines acc :
  exists modes,
    collect_modes lines acc = Some (acc ++ modes) /\
    length modes = length (List.filter mode_line_read lines).
Proof.
  revert acc. induction lines as [|line rest IH]; intros acc.
  - exists []. by rewrite app_nil_r.
  - cbn [collect_modes List.filter].
    destruct (mode_line_read line) eqn:Hread; unfold mode_line_read in Hread.
    + apply andb_true_iff in Hread as [-> Hs%bool_decide_eq_true].
      destruct Hs as [[[gw gh] gf] Es]. rewrite Es.
      apply search_groups in Es as ((Dw & Nw) & (Dh & Nh) & (Df & Nf)).
      rewrite !int_all_digits by done.
      destruct (IH (acc ++ [(digits_value 0 gw, digits_value 0 gh, digits_value 0 gf)]))
        as (modes & -> & Hlen).
      eexists (_ :: modes). rewrite <- app_assoc. split; [reflexivity|].
      simpl. by rewrite Hlen.
    + destruct (Py.contains "vcodec=mjpeg" line && Py.contains "fps=" line);
        [|apply IH].
      apply bool_decide_eq_false in Hread.
      destruct (Re.search line) as [g|]; [|apply IH].
      destruct Hread. by eexists.
Qed.

Lemma no_mjpeg_no_mode lines :
  existsb (Py.contains "vcodec=mjpeg") lines = false ->
  List.filter mode_line_read lines = [].
Proof.
  induction lines as [|line rest IH]; [done|]. cbn [existsb List.filter].
  intros [Hline Hrest]%orb_false_iff. unfold mode_line_read at 1. rewrite Hline.
  cbn [andb]. by apply IH.
Qed.


(** X4: [get_ffmpeg_path] keeps what its first call found. A later call
    returns the same answer and changes nothing, whatever the search would
    find by then; this holds as well when the first search found nothing. *)
Theorem ffmpeg_path_is_cached w later :
  let '(first, w1) := get_ffmpeg_path w in
  get_ffmpeg_path (set_ffmpeg_lookup later w1) = (first, set_ffmpeg_lookup later w1).
Proof. unfold get_ffmpeg_path. by destruct (ffmpeg_path_attr w) eqn:E; simpl; rewrite ?E. Qed.

Lemma get_ffmpeg_path_world w :
  backend (snd (get_ffmpeg_path w)) = backend w /\
  fs (snd (get_ffmpeg_path w)) = fs w /\
  ran (snd (get_ffmpeg_path w)) = ran w.
Proof. unfold get_ffmpeg_path. by destruct (ffmpeg_path_attr w). Qed.

(** What a checked [subprocess.run] that returned tells. *)
Lemma subprocess_run_checked cmd args w result w' :
  subprocess_run true cmd args w = (Some result, w') ->
  exists exe,
    cmd = Some exe /\
    backend w (length (ran w)) (exe :: args) = Exited 0 (stdout result) (stderr result) /\
    w' = log_run (exe :: args) w.
Proof.
  unfold subprocess_run. destruct cmd as [exe|]; [|discriminate].
  destruct (backend w (length (ran w)) (exe :: args)) as [|rc out err] eqn:B; [discriminate|].
  simpl. destruct (rc =? 0) eqn:Hrc; [|discriminate]. apply Z.eqb_eq in Hrc as ->.
  simpl. intros [= <- <-]. by exists exe.
Qed.

Section SelectCodec.
#[local] Arguments subprocess_run : simpl never.
#[local] Arguments log_run : simpl never.

Lemma log_run_world argv w :
  backend (log_run argv w) = backend w /\ fs (log_run argv w) = fs w /\
  ran (log_run argv w) = ran w ++ [argv].
Proof. done. Qed.

(** X5: [select_codec] answers with the hardware encoder only on evidence:
    ffmpeg was found, the encoder listing ended with return code 0 and
    mentions [h264_qsv], the trial encode into a temporary file ended with
    return code 0, and the file was there, not empty, and could be removed.
    Exactly these two commands were run. *)
Theorem hardware_codec_needs_trial_encode w :
  fst (select_codec w) = preferred_codec ->
  let n := length (ran w) in
  exists exe listing err tmp out2 err2 size,
    fst (get_ffmpeg_path w) = Some exe /\
    backend w n (exe :: encoders_args) = Exited 0 listing err /\
    existsb (Py.contains preferred_codec) (Py.splitlines listing) = true /\
    mktemp (fs w (S n)) = Some tmp /\
    backend w (S n) (exe :: smoke_args tmp) = Exited 0 out2 err2 /\
    out_size (fs w (S (S n))) = Some size /\ 0 < size /\
    remove_ok (fs w (S (S n))) = true /\
    ran (snd (select_codec w)) = ran w ++ [exe :: encoders_args; exe :: smoke_args tmp].
Proof.
  intros Hsel n. subst n. revert Hsel.
  unfold select_codec, smoke_test, fs_now, mbind, St_bind, mret, St_ret.
  destruct (get_ffmpeg_path_world w) as (Hb & Hf & Hr).
  destruct (get_ffmpeg_path w) as [cmd w1]. cbn [fst snd] in *.
  destruct (subprocess_run true cmd encoders_args w1) as [[result|] w2] eqn:E1;
    [|discriminate].
  apply subprocess_run_checked in E1 as (exe & -> & B1 & ->).
  destruct (existsb _ _) eqn:Hlist; [|discriminate].
  destruct (log_run_world (exe :: encoders_args) w1) as (Hb1 & Hf1 & Hr1).
  set (w2 := log_run (exe :: encoders_args) w1) in *.
  destruct (mktemp (fs w2 (length (ran w2)))) as [tmp|] eqn:Htmp; [|discriminate].
  destruct (subprocess_run true (Some exe) (smoke_args tmp) w2) as [[r|] w3] eqn:E2;
    [|discriminate].
  apply subprocess_run_checked in E2 as (exe' & [= <-] & B2 & ->).
  destruct (log_run_world (exe :: smoke_args tmp) w2) as (Hb2 & Hf2 & Hr2).
  set (w3 := log_run (exe :: smoke_args tmp) w2) in *.
  destruct (out_size (fs w3 (length (ran w3)))) as [size|] eqn:Hsize; [|discriminate].
  destruct (0 <? size) eqn:Hpos; [|discriminate].
  destruct (remove_ok (fs w3 (length (ran w3)))) eqn:Hrm; [|discriminate].
  cbn [andb fst snd]. intros _.
  assert (L2 : length (ran w2) = S (length (ran w))).
  { rewrite Hr1, Hr, length_app. simpl. lia. }
  assert (L3 : length (ran w3) = S (S (length (ran w)))).
  { rewrite Hr2, length_app, L2. simpl. lia. }
  rewrite L3, Hf2, Hf1, Hf in Hsize, Hrm.
  rewrite L2, Hf1, Hf in Htmp. rewrite L2, Hb1, Hb in B2. rewrite Hr, Hb in B1.
  exists exe, (stdout result), (stderr result), tmp, (stdout r), (stderr r), size.
  repeat split; try done.
  - by apply Z.ltb_lt.
  - by rewrite Hr2, Hr1, Hr, <- app_assoc.
Qed.
End SelectCodec.

Lemma hardware_codec_witness :
  let n := length (ran hardware_machine) in
  exists exe listing err tmp out2 err2 size,
    fst (get_ffmpeg_path hardware_machine) = Some exe /\
    backend hardware_machine n (exe :: encoders_args) = Exited 0 listing err /\
    existsb (Py.contains preferred_codec) (Py.splitlines listing) = true /\
    mktemp (fs hardware_machine (S n)) = Some tmp /\
    backend hardware_machine (S n) (exe :: smoke_args tmp) = Exited 0 out2 err2 /\
    out_size (fs hardware_machine (S (S n))) = Some size /\ 0 < size /\
    remove_ok (fs hardware_machine (S (S n))) = true /\
    ran (snd (select_codec hardware_machine))
    = ran hardware_machine ++ [exe :: encoders_args; exe :: smoke_args tmp].
Proof.
  apply (hardware_codec_needs_trial_encode hardware_machine). vm_compute. reflexivity.
Defined.

(** ** How often the device query runs *)

Lemma queries_added_0 w : queries_added w 0 = [].
Proof. unfold queries_added. by destruct (fst (get_ffmpeg_path w)). Qed.

Lemma queried_refl w : queried 0 w w.
Proof. split; [done|]. by rewrite queries_added_0, app_nil_r. Qed.

Lemma queried_trans n m w1 w2 w3 :
  queried n w1 w2 -> queried m w2 w3 -> queried (n + m) w1 w3.
Proof.
  intros [P1 Q1] [P2 Q2]. split; [congruence|].
  rewrite Q2, Q1. unfold queries_added. rewrite P1.
  destruct (fst (get_ffmpeg_path w1)); rewrite <- app_assoc; [|done].
  by rewrite replicate_add.
Qed.

Lemma queried_get_ffmpeg_path w : queried 0 w (snd (get_ffmpeg_path w)).
Proof.
  split; [|rewrite queries_added_0, app_nil_r].
  - unfold get_ffmpeg_path. by destruct (ffmpeg_path_attr w) eqn:E; simpl; rewrite ?E.
  - unfold device_queries. by rewrite get_ffmpeg_path_ran.
Qed.

Lemma get_ffmpeg_path_log argv w :
  fst (get_ffmpeg_path (log_run argv w)) = fst (get_ffmpeg_path w).
Proof. unfold get_ffmpeg_path. simpl. by destruct (ffmpeg_path_attr w). Qed.

Lemma device_queries_log argv w :
  device_queries (log_run argv w)
  = device_queries w ++ (if is_device_query argv then [argv] else []).
Proof.
  unfold device_queries, log_run. simpl. rewrite List.filter_app. simpl.
  by destruct (is_device_query argv).
Qed.

Lemma is_device_query_own exe : is_device_query (exe :: list_devices_args) = true.
Proof. unfold is_device_query. by rewrite bool_decide_eq_true_2. Qed.

Lemma is_device_query_other exe args :
  args <> list_devices_args -> is_device_query (exe :: args) = false.
Proof. intros Hargs. unfold is_device_query. by rewrite bool_decide_eq_false_2. Qed.

(** A command that is not the device query adds none. *)
Lemma queried_other_command check args w :
  args <> list_devices_args ->
  queried 0 w (snd (subprocess_run check (fst (get_ffmpeg_path w)) args w)).
Proof.
  intros Hargs. unfold subprocess_run.
  destruct (fst (get_ffmpeg_path w)) as [exe|] eqn:Hexe; [|apply queried_refl].
  assert (Hlog : queried 0 w (log_run (exe :: args) w)).
  { split; [apply get_ffmpeg_path_log|].
    by rewrite device_queries_log, queries_added_0, is_device_query_other. }
  destruct (backend _ _ _) as [|rc out err]; [done|]. by destruct (_ && _).
Qed.

(** The device query adds itself, once. *)
Lemma queried_device_query check w :
  queried 1 w (snd (subprocess_run check (fst (get_ffmpeg_path w)) list_devices_args w)).
Proof.
  unfold subprocess_run.
  destruct (fst (get_ffmpeg_path w)) as [exe|] eqn:Hexe.
  - assert (Hlog : queried 1 w (log_run (exe :: list_devices_args) w)).
    { split; [apply get_ffmpeg_path_log|].
      rewrite device_queries_log, is_device_query_own. unfold queries_added.
      by rewrite Hexe. }
    destruct (backend _ _ _) as [|rc out err]; [done|]. by destruct (_ && _).
  - split; [done|]. unfold queries_added. by rewrite Hexe, app_nil_r.
Qed.

Lemma get_ffmpeg_path_twice w :
  fst (get_ffmpeg_path (snd (get_ffmpeg_path w))) = fst (get_ffmpeg_path w).
Proof. apply queried_get_ffmpeg_path. Qed.

Lemma queried_path n w w' : queried n w w' -> fst (get_ffmpeg_path w') = fst (get_ffmpeg_path w).
Proof. by intros [P _]. Qed.

Lemma queried_detect_devices w : queried 1 w (snd (detect_devices w)).
Proof.
  unfold detect_devices, mbind, St_bind, mret, St_ret.
  pose proof (queried_get_ffmpeg_path w) as H0.
  pose proof (queried_device_query true (snd (get_ffmpeg_path w))) as H1.
  rewrite get_ffmpeg_path_twice in H1.
  destruct (get_ffmpeg_path w) as [cmd w1] eqn:E. simpl in *.
  destruct (subprocess_run true cmd list_devices_args w1) as [r w2]. simpl in *.
  apply (queried_trans 0 1 w w1 w2); done.
Qed.

Lemma queried_select_codec w : queried 0 w (snd (select_codec w)).
Proof.
  unfold select_codec, smoke_test, fs_now, mbind, St_bind, mret, St_ret.
  pose proof (queried_get_ffmpeg_path w) as H0.
  pose proof (queried_other_command true encoders_args (snd (get_ffmpeg_path w))
                ltac:(discriminate)) as H1.
  rewrite get_ffmpeg_path_twice in H1.
  destruct (get_ffmpeg_path w) as [cmd w1] eqn:E. simpl in *.
  destruct (subprocess_run true cmd encoders_args w1) as [[result|] w2]; simpl in *.
  2:{ apply (queried_trans 0 0 w w1 w2); done. }
  pose proof (queried_trans 0 0 w w1 w2 H0 H1) as H2.
  destruct (existsb _ _); [|done].
  destruct (mktemp _) as [tmp|]; [|done].
  assert (Hcmd2 : fst (get_ffmpeg_path w2) = cmd).
  { rewrite (queried_path _ _ _ H2). by rewrite E. }
  pose proof (queried_other_command true (smoke_args tmp) w2 ltac:(discriminate)) as H3.
  rewrite Hcmd2 in H3.
  destruct (subprocess_run true cmd (smoke_args tmp) w2) as [[r|] w3]; simpl in *.
  2:{ apply (queried_trans 0 0 w w2 w3); done. }
  pose proof (queried_trans 0 0 w w2 w3 H2 H3) as H4.
  destruct (out_size _); [|done]. by destruct (_ && _).
Qed.

Lemma queried_get_supported_resolutions idx w :
  queried 1 w (snd (get_supported_resolutions idx w)).
Proof.
  unfold get_supported_resolutions, mbind, St_bind, mret, St_ret.
  pose proof (queried_get_ffmpeg_path w) as H0.
  pose proof (queried_detect_devices (snd (get_ffmpeg_path w))) as H1.
  destruct (get_ffmpeg_path w) as [cmd w1] eqn:E. simpl in *.
  destruct (detect_devices w1) as [found w2]. simpl in *.
  pose proof (queried_trans 0 1 w w1 w2 H0 H1) as H2.
  destruct (found !! idx) as [name|]; [|done].
  assert (Hcmd2 : fst (get_ffmpeg_path w2) = cmd).
  { rewrite (queried_path _ _ _ H2). by rewrite E. }
  pose proof (queried_other_command false (list_options_args name) w2
                ltac:(discriminate)) as H3.
  rewrite Hcmd2 in H3.
  destruct (subprocess_run false cmd (list_options_args name) w2) as [r w3]. simpl in *.
  apply (queried_trans 1 0 w w2 w3); done.
Qed.

(** X6: [detect_devices] keeps no cache, and the constructor calls it four
    times: once itself, and three times while the widgets are built (for
    the device box, inside [get_supported_resolutions], and for the device
    status). When ffmpeg was found, the device query has run four times by
    the time the window is up; without ffmpeg no command is run. *)
Theorem construction_queries_devices_four_times w :
  device_queries (world (init w))
  = device_queries w ++
    match fst (get_ffmpeg_path w) with
    | Some exe => replicate 4 (exe :: list_devices_args)
    | None => []
    end.
Proof.
  unfold init.
  pose proof (queried_select_codec w) as H0.
  destruct (select_codec w) as [codec w1]. simpl in H0.
  pose proof (queried_detect_devices w1) as H1.
  destruct (detect_devices w1) as [d1 w2]. simpl in H1.
  pose proof (queried_detect_devices w2) as H2.
  destruct (detect_devices w2) as [d2 w3]. simpl in H2.
  pose proof (queried_get_supported_resolutions 0 w3) as H3.
  destruct (get_supported_resolutions 0 w3) as [r w4]. simpl in H3.
  pose proof (queried_detect_devices w4) as H4.
  destruct (detect_devices w4) as [d3 w5]. simpl in H4.
  pose proof (queried_trans _ _ _ _ _ H0 H1) as A.
  pose proof (queried_trans _ _ _ _ _ A H2) as B.
  pose proof (queried_trans _ _ _ _ _ B H3) as C.
  pose proof (queried_trans _ _ _ _ _ C H4) as [_ D].
  exact D.
Qed.

(* ===================================================================== *)
(** * Theorems: the filter chain on contents *)
(* ===================================================================== *)

Section ContentRules.
Implicit Types (h : gmap nat Obj) (l : nat) (m : Mat).

Lemma holds_mono h h' l m : holds h l m -> h ⊆ h' -> holds h' l m.
Proof. intros Hl Hsub. by eapply lookup_weaken. Qed.

Lemma yields_op1 f h a ma :
  holds h a ma -> returns (op1 f a) h (fun l h' => holds h' l (f ma)).
Proof.
  intros Ha. eapply returns_bind; [by apply returns_read_umat|].
  intros r h1 _ [-> ->].
  eapply returns_weaken; [apply returns_alloc|]. by intros l h' _ [_ Hl].
Qed.

Lemma yields_op2 f h a b ma mb :
  holds h a ma -> holds h b mb ->
  returns (op2 f a b) h (fun l h' => holds h' l (f ma mb)).
Proof.
  intros Ha Hb. eapply returns_bind; [by apply returns_read_umat|].
  intros r h1 _ [-> ->]. eapply returns_bind; [by apply returns_read_umat|].
  intros r h1 _ [-> ->].
  eapply returns_weaken; [apply returns_alloc|]. by intros l h' _ [_ Hl].
Qed.

Lemma yields_op3 f h a b c ma mb mc :
  holds h a ma -> holds h b mb -> holds h c mc ->
  returns (op3 f a b c) h (fun l h' => holds h' l (f ma mb mc)).
Proof.
  intros Ha Hb Hc. eapply returns_bind; [by apply returns_read_umat|].
  intros r h1 _ [-> ->]. eapply returns_bind; [by apply returns_read_umat|].
  intros r h1 _ [-> ->]. eapply returns_bind; [by apply returns_read_umat|].
  intros r h1 _ [-> ->].
  eapply returns_weaken; [apply returns_alloc|]. by intros l h' _ [_ Hl].
Qed.

Lemma yields_split3 {cv : Cv2} h src m :
  holds h src m ->
  returns (split3 src) h
          (fun r h' => holds h' (fst (fst r)) (fst (fst (cv_split m))) /\
                       holds h' (snd (fst r)) (snd (fst (cv_split m))) /\
                       holds h' (snd r) (snd (cv_split m))).
Proof.
  intros Hm. unfold split3.
  eapply returns_bind; [by apply returns_read_umat|].
  intros r h1 _ [-> ->]. destruct (cv_split m) as [[x y] z].
  eapply returns_bind; [apply returns_alloc|]. intros a h2 _ [_ Ha].
  eapply returns_bind; [apply returns_alloc|]. intros b h3 H23 [_ Hb].
  eapply returns_bind; [apply returns_alloc|]. intros c h4 H34 [_ Hc].
  apply returns_ret. simpl. repeat split.
  - eapply holds_mono; [|exact H34]. by eapply holds_mono.
  - by eapply holds_mono.
  - done.
Qed.

Lemma yields_umat_full_like h u m v :
  holds h u m ->
  returns (umat_full_like u v) h (fun l h' => holds h' l (full_like m v)).
Proof.
  intros Hm. unfold umat_full_like.
  eapply returns_bind; [by apply returns_umat_get|]. intros host h1 _ [_ Hhost].
  eapply returns_bind; [by apply returns_read_ndarray|]. intros r h2 _ [-> ->].
  eapply returns_bind; [apply returns_alloc|]. intros filled h3 _ [_ Hfilled].
  eapply returns_weaken; [by apply returns_umat_of|].
  by intros l h' _ [_ Hl].
Qed.
End ContentRules.

Ltac carry_contents Hsub :=
  repeat match goal with
         | F : holds ?h ?x ?m |- _ =>
             lazymatch type of Hsub with
             | h ⊆ ?h' => apply (fun F => holds_mono h h' x m F Hsub) in F
             end
         end.

(** One call of the chain, with the content of its result. *)
Ltac content_call :=
  eapply returns_bind;
  [ first [ eapply yields_op1 | eapply yields_op2 | eapply yields_op3
          | eapply yields_split3 | eapply yields_umat_full_like ]; eassumption
  | let l := fresh "l" in let h := fresh "h" in
    let Hsub := fresh "Hsub" in let Hl := fresh "Hl" in
    intros l h Hsub Hl; carry_contents Hsub; clear Hsub;
    first [ destruct l as [[? ?] ?]; cbn [fst snd] in Hl; destruct Hl as (? & ? & ?)
          | cbv beta in Hl ] ].

(** The three planes of a split are named. *)
Ltac name_planes :=
  cbv beta in *;
  match goal with
  | H : holds _ _ (fst (fst (cv_split ?x))) |- _ =>
      let t := fresh "planes" in
      set (t := cv_split x) in *; clearbody t; destruct t as [[? ?] ?];
      cbn [fst snd] in *
  end.

Ltac last_content_call :=
  eapply returns_weaken;
  [ first [ eapply yields_op1 | eapply yields_op2 | eapply yields_op3 ]; eassumption
  | let Hl := fresh "Hl" in intros ? ? _ Hl; exact Hl ].

Section ChainContents.
Context {cv : Cv2}.
Implicit Types (h : gmap nat Obj) (m : Mat).

Lemma yields_gray_filter h src m :
  holds h src m -> returns (gray_filter src) h (fun l h' => holds h' l (gray_content m)).
Proof. intros Hsrc. unfold gray_filter, gray_content. content_call. last_content_call. Qed.

Lemma yields_simple_CLAHE_RGB h src m :
  holds h src m ->
  returns (simple_CLAHE_RGB src) h (fun l h' => holds h' l (clahe_rgb_content m)).
Proof.
  intros Hsrc. unfold simple_CLAHE_RGB, clahe_rgb_content. cbv zeta.
  content_call. name_planes. do 3 content_call. last_content_call.
Qed.

Lemma yields_simple_CLAHE_L h src m :
  holds h src m ->
  returns (simple_CLAHE_L src) h (fun l h' => holds h' l (clahe_l_content m)).
Proof.
  intros Hsrc. unfold simple_CLAHE_L, clahe_l_content. cbv zeta.
  do 2 content_call. name_planes. do 2 content_call. last_content_call.
Qed.

Lemma yields_vascular h src m :
  holds h src m ->
  returns (vascular_enhance_filter_ocl src) h (fun l h' => holds h' l (vascular_content m)).
Proof.
  intros Hsrc. unfold vascular_enhance_filter_ocl, vascular_content. cbv zeta.
  do 2 content_call. name_planes.
  do 11 content_call. name_planes.
  do 3 content_call. name_planes.
  repeat content_call. last_content_call.
Qed.
End ChainContents.

Section FilterContents.
Context {cv : Cv2}.
Implicit Types (h : gmap nat Obj) (fl : Flags) (m : Mat).

Lemma yields_stage (on : bool) (stage : nat -> Cv nat) (content : Mat -> Mat) h u m :
  (forall h u m, holds h u m -> returns (stage u) h (fun l h' => holds h' l (content m))) ->
  holds h u m ->
  returns (if on then stage u else mret u) h
          (fun l h' => holds h' l (if on then content m else m)).
Proof. intros Hstage Hu. destruct on; [by apply Hstage|by apply returns_ret]. Qed.

Lemma yields_filters fl h image m :
  h !! image = Some (NdArray m) ->
  returns (filters image fl) h
          (fun out h' => h' !! out = Some (NdArray (filters_content fl m))).
Proof.
  intros Himage. unfold filters, filters_content.
  eapply returns_bind; [by apply returns_umat_of|]. intros u0 h0 S0 [_ Hu].
  eapply returns_bind; [apply yields_stage; [apply yields_vascular|exact Hu]|].
  intros u1 h1 S1 U1. cbv beta in U1.
  eapply returns_bind; [apply yields_stage; [apply yields_simple_CLAHE_RGB|exact U1]|].
  intros u2 h2 S2 U2. cbv beta in U2.
  eapply returns_bind; [apply yields_stage; [apply yields_simple_CLAHE_L|exact U2]|].
  intros u3 h3 S3 U3. cbv beta in U3.
  eapply returns_bind; [apply yields_stage; [apply yields_gray_filter|exact U3]|].
  intros u4 h4 S4 U4. cbv beta in U4.
  eapply returns_bind; [by apply returns_read_obj|]. intros o h5 _ [-> ->].
  eapply returns_weaken; [apply returns_alloc|].
  by intros out h' _ [_ Hout].
Qed.


(** The chain on a frame held by value. *)
Lemma filters_frame_content frame fl :
  filters_frame frame fl = Some (filters_content fl frame).
Proof.
  unfold filters_frame.
  destruct (yields_filters fl {[ 0%nat := NdArray frame ]} 0%nat frame)
    as (out & h' & -> & _ & ->); [apply lookup_singleton_eq|done].
Qed.
End FilterContents.


Section ChainInRuns.
Context {cv : Cv2} (env : Env).

Global Instance chain_only_preorder : PreOrder chain_only.
Proof.
  split.
  - intros s. exists []. by rewrite app_nil_r.
  - intros x y z (t1 & E1 & F1) (t2 & E2 & F2). exists (t1 ++ t2).
    split; [by rewrite E2, E1, app_assoc|by apply Forall_app].
Qed.

Lemma control_is_chain s s' : control_only s s' -> chain_only s s'.
Proof.
  intros (tr & E & F). exists tr. split; [done|].
  eapply Forall_impl; [exact F|]. by intros [].
Qed.

Lemma keeps_control_chain {A} (m : Act A) : keeps control_only m -> keeps chain_only m.
Proof. intros Hm s. apply control_is_chain, Hm. Qed.

Lemma chain_only_quiet s s' : trace s' = trace s -> chain_only s s'.
Proof. intros E. exists []. by rewrite app_nil_r. Qed.

Lemma chain_only_emit ev : filtered_by_chain ev -> keeps chain_only (emit ev).
Proof. intros Hev s. exists [ev]. split; [done|by constructor]. Qed.

Lemma chain_only_update f : keeps chain_only (update f).
Proof. intros s. by apply chain_only_quiet. Qed.

Lemma apply_filters_chain k frame : keeps chain_only (apply_filters k frame).
Proof.
  unfold apply_filters.
  apply (keeps_bind chain_only); [apply (keeps_tk_call chain_only)|]. intros [].
  apply (keeps_bind chain_only); [apply (keeps_get_app chain_only)|]. intros a.
  rewrite filters_frame_content.
  apply (keeps_bind chain_only); [by apply chain_only_emit|]. intros [].
  apply (keeps_ret chain_only).
Qed.

Lemma chain_only_spawn t : keeps chain_only (spawn t).
Proof. intros s. by apply chain_only_quiet. Qed.

Lemma preview_loop_chain : keeps chain_only (preview_loop env).
Proof.
  unfold preview_loop, read_stream.
  keeps_with chain_only
    ltac:(first [ apply apply_filters_chain | apply chain_only_update
                | apply chain_only_emit; exact I ]).
Qed.

Lemma record_loop_chain st w h dur : keeps chain_only (record_loop st w h dur).
Proof.
  unfold record_loop, read_stream.
  keeps_with chain_only
    ltac:(first [ apply apply_filters_chain | apply chain_only_update
                | apply chain_only_emit; exact I
                | apply keeps_control_chain, stop_record_control ]).
Qed.

Lemma run_chain acts s : chain_only s (run env acts s).
Proof.
  apply run_keeps; try (intros; by apply chain_only_quiet);
    first [ apply keeps_control_chain, toggle_preview_control
          | apply keeps_control_chain, start_record_control
          | apply keeps_control_chain, stop_record_control
          | apply keeps_control_chain, on_close_control
          | apply preview_loop_chain | apply record_loop_chain
          | typeclasses eauto ].
Qed.

Lemma filter_inputs_calls k tr : filter_inputs k tr = map fst (filter_calls k tr).
Proof.
  unfold filter_inputs, filter_calls. induction tr as [|ev tr IH]; [done|].
  change (ev :: tr) with ([ev] ++ tr). rewrite !omap_app, map_app, IH. f_equal.
  destruct ev as [? ?|k' f fl r| | | | |]; try done.
  simpl. by destruct (sink_eqb k k').
Qed.

Lemma filter_results_calls k tr :
  Forall filtered_by_chain tr ->
  filter_results k tr
  = map (fun call => filters_content (snd call) (fst call)) (filter_calls k tr).
Proof.
  unfold filter_results, filter_calls. induction 1 as [|ev tr Hev _ IH]; [done|].
  change (ev :: tr) with ([ev] ++ tr). rewrite !omap_app, map_app, IH. f_equal.
  destruct ev as [? ?|k' f fl r| | | | |]; try done.
  simpl in *. subst r. by destruct (sink_eqb k k').
Qed.

Lemma init_trace w : trace (init w) = [].
Proof.
  unfold init. destruct (select_codec w) as [codec w1].
  destruct (detect_devices w1) as [d1 w2]. destruct (detect_devices w2) as [d2 w3].
  destruct (get_supported_resolutions 0 w3) as [r w4].
  by destruct (detect_devices w4) as [d3 w5].
Qed.

(** X8: in every run of the program, what a sink receives is the chain of
    what its loop pulled. The frames shown by the preview, and likewise the
    frames written to the encoder, are, one for one and in order,
    [filters_content] of the frames the loop of that sink read from the
    stream, each under the flags that were set when the frame passed. *)
Theorem sinks_receive_the_chain (w : World) (acts : list Action) (k : Sink) :
  let tr := trace (run env acts (init w)) in
  delivered k tr
  = map (fun call => filters_content (snd call) (fst call)) (filter_calls k tr) /\
  pulled_by k tr = map fst (filter_calls k tr).
Proof.
  intros tr.
  destruct (run_inv env acts (init w) (init_inv w)) as (_ & _ & Hb).
  destruct (Hb k) as [Hpull Hres]. fold tr in Hpull, Hres.
  destruct (run_chain acts (init w)) as (tr' & E & F).
  rewrite init_trace in E. simpl in E. fold tr in E. subst tr'.
  split.
  - rewrite <- Hres. by apply filter_results_calls.
  - rewrite Hpull. apply filter_inputs_calls.
Qed.
End ChainInRuns.

(* ===================================================================== *)
(** * Theorems: the output path and the preview canvas *)
(* ===================================================================== *)

Lemma endswith_unfold s suffix :
  Py.endswith s suffix =
  String.eqb s suffix ||
  match s with
  | EmptyString => false
  | String _ rest => Py.endswith rest suffix
  end.
Proof. by destruct s. Qed.

Lemma endswith_app a b : Py.endswith (a +:+ b) b = true.
Proof.
  induction a as [|c a IH]; rewrite endswith_unfold.
  - by rewrite append_nil, String.eqb_refl.
  - by rewrite append_cons, IH, orb_true_r.
Qed.

Lemma lower_app a b : Py.lower (a +:+ b) = Py.lower a +:+ Py.lower b.
Proof. induction a as [|c a IH]; [done|]. rewrite !append_cons. simpl. by rewrite IH. Qed.

Lemma is_empty_app_ext a : Py.is_empty (a +:+ EXT) = false.
Proof. by destruct a. Qed.

Lemma lstrip_ext a : exists a', Py.lstrip (a +:+ EXT) = a' +:+ EXT.
Proof.
  induction a as [|c a IH]; [by exists ""|].
  rewrite append_cons. cbn [Py.lstrip].
  destruct (Py.isspace c); [exact IH|]. by exists (String c a).
Qed.

Lemma rstrip_ext a : Py.rstrip (a +:+ EXT) = a +:+ EXT.
Proof.
  induction a as [|c a IH]; [reflexivity|].
  rewrite append_cons. cbn [Py.rstrip]. by rewrite IH, is_empty_app_ext, andb_false_r.
Qed.

Lemma strip_ext a : exists a', Py.strip (a +:+ EXT) = a' +:+ EXT.
Proof.
  unfold Py.strip. destruct (lstrip_ext a) as [a' ->]. exists a'. apply rstrip_ext.
Qed.

Lemma path_join_suffix target name : exists pre, path_join target name = pre +:+ name.
Proof.
  unfold path_join. destruct (String.get _ _) as [c|]; [|by exists ""].
  destruct (_ || _); [by exists target|].
  exists (target +:+ "\"). by rewrite append_assoc.
Qed.

(** The path [start_record] generates, stripped and lowered, ends with the
    extension. *)
Lemma output_path_extension env s :
  Py.endswith (Py.lower (Py.strip (output_path env s))) EXT = true.
Proof.
  unfold output_path.
  destruct (path_join_suffix (abspath env (save_dir_var (app s)))
                             (strftime env (clock s) +:+ EXT)) as [pre ->].
  rewrite <- append_assoc. destruct (strip_ext (pre +:+ strftime env (clock s))) as [a' ->].
  rewrite lower_app. apply endswith_app.
Qed.

(** X9: the file name [start_record] generates always passes the extension
    test of [start_record]: with the output path the method has just set,
    the parameters are refused exactly when the width, the height, the
    frame rate or the duration is not strictly positive. *)
Theorem generated_name_passes_extension_test env s w h f dur :
  bad_parameters w h f dur (Py.strip (output_path env s)) = true
  <-> w <= 0 \/ h <= 0 \/ f <= 0 \/ dur <= 0.
Proof.
  unfold bad_parameters. rewrite output_path_extension. simpl. rewrite orb_false_r.
  rewrite !orb_true_iff, !Z.leb_le. tauto.
Qed.

(** ** A capture size with a zero side *)

Lemma zero_over x :
  Prim2SF (0 / x) = S754_nan \/ exists sign, Prim2SF (0 / x) = S754_zero sign.
Proof.
  rewrite div_spec. change (Prim2SF 0) with (S754_zero false).
  destruct (Prim2SF x) as [sx|sx| |sx mx ex]; cbn; eauto.
Qed.

Lemma canvas_of_zero_ratio q :
  Prim2SF q = S754_nan \/ (exists sign, Prim2SF q = S754_zero sign) ->
  (q' ← truediv_float (float_of_int PREVIEW_WIDTH) q; int_of_float q') = None.
Proof.
  intros Hq. unfold truediv_float. rewrite FloatAxioms.eqb_spec.
  change (Prim2SF 0) with (S754_zero false).
  destruct Hq as [Hq|[sign Hq]]; rewrite Hq; simpl; [|done].
  unfold int_of_float. rewrite div_spec, Hq. by destruct (Prim2SF _).
Qed.

(** No canvas size comes out of a capture size with a zero side. *)
Lemma canvas_zero_side w h : w = 0 \/ h = 0 -> preview_canvas_size w h = None.
Proof.
  unfold preview_canvas_size, truediv_int. intros Hz.
  destruct (h =? 0) eqn:Hh; [done|]. destruct Hz as [-> | ->]; [|done].
  cbn [mbind option_bind]. change (float_of_int 0) with 0%float.
  pose proof (canvas_of_zero_ratio (0 / float_of_int h) (zero_over _)) as Hc.
  unfold mbind in Hc. destruct (truediv_float _ _); simpl in *; [|done].
  by rewrite Hc.
Qed.

Section StartPreview.
Context (env : Env).

#[local] Arguments index_of : simpl never.
#[local] Arguments detect_devices : simpl never.

(** X10: a capture size with a zero side stops [start_preview] half way. The
    camera is opened and the preview is flagged as running, then the
    division for the canvas height raises [ZeroDivisionError]: no preview
    thread is started and the canvas keeps its size. *)
Theorem preview_with_zero_side_stops_half_way s idx w h fps frames :
  destroyed (app s) = false ->
  index_of (device_menu (app s)) (devices_seen s) = Some idx ->
  parse_resolution (resolution_var (app s)) = Some (w, h, fps) ->
  w = 0 \/ h = 0 ->
  camera env idx = Some frames ->
  exists s', start_preview env s = (Raised ZeroDivisionError, s') /\
    previewing (app s') = true /\
    stream (app s') = Some {| source := idx; cam_size := (w, h); cam_fps := fps;
                              pending := frames |} /\
    threads s' = threads s /\
    canvas (app s') = canvas (app s).
Proof.
  intros Hd Hidx Hparse Hzero Hcam. unfold devices_seen in Hidx.
  unfold start_preview, in_world. act_unfold.
  rewrite Hparse, (canvas_zero_side w h Hzero). simpl.
  destruct (devices (app s)) as [[|d ds]|]; simpl;
    try (destruct (detect_devices (world s)) as [l w1]; simpl in * );
    rewrite Hidx; simpl; rewrite Hcam; simpl; rewrite Hd; simpl;
    eexists; (split; [reflexivity|]); done.
Qed.

(** X11: when the text of the resolution box can not be read, the fallback
    size of [start_preview] is of no use: the frame rate was never assigned,
    and the method raises [UnboundLocalError] before the camera is opened.
    Nothing of the application has changed. *)
Theorem preview_without_resolution_raises s idx :
  index_of (device_menu (app s)) (devices_seen s) = Some idx ->
  parse_resolution (resolution_var (app s)) = None ->
  exists s', start_preview env s = (Raised UnboundLocalError, s') /\
    app s' = app s /\ threads s' = threads s /\ trace s' = trace s.
Proof.
  intros Hidx Hparse. unfold devices_seen in Hidx.
  unfold start_preview, in_world. act_unfold. rewrite Hparse. simpl.
  destruct (devices (app s)) as [[|d ds]|]; simpl;
    try (destruct (detect_devices (world s)) as [l w1]; simpl in * );
    rewrite Hidx; simpl; eexists; (split; [reflexivity|]); done.
Qed.
End StartPreview.

Lemma preview_with_zero_side_witness :
  exists s', start_preview (studio []) (started "0x0" "0") = (Raised ZeroDivisionError, s') /\
    previewing (app s') = true /\
    stream (app s') = Some {| source := 0; cam_size := (0, 0); cam_fps := 0;
                              pending := [] |} /\
    threads s' = threads (started "0x0" "0") /\
    canvas (app s') = canvas (app (started "0x0" "0")).
Proof.
  apply (preview_with_zero_side_stops_half_way (studio []) (started "0x0" "0") 0%nat 0 0 0 []);
    try (vm_compute; reflexivity).
  by left.
Defined.

Lemma preview_without_resolution_witness :
  exists s', start_preview (studio []) (started "" "") = (Raised UnboundLocalError, s') /\
    app s' = app (started "" "") /\ threads s' = threads (started "" "") /\
    trace s' = trace (started "" "").
Proof.
  apply (preview_without_resolution_raises (studio []) (started "" "") 0%nat);
    vm_compute; reflexivity.
Defined.

Lemma detect_devices_filled w : exists first rest, fst (detect_devices w) = first :: rest.
Proof.
  rewrite detect_devices_unfold.
  destruct (device_query w) as [result|]; [|by eexists _, _].
  destruct (device_names _ _) as [[|d ds]|]; by eexists _, _.
Qed.

Section DeviceList.
Context (env : Env).

#[local] Arguments detect_devices : simpl never.
#[local] Arguments index_of : simpl never.

Lemma index_of_head first rest : index_of first (first :: rest) = Some 0%nat.
Proof. unfold index_of. by rewrite String.eqb_refl. Qed.

(** X12: after [update_device_list] the attribute [devices] holds the answer
    of the device query, which is never empty, and the box shows its first
    name. A [start_preview] that follows looks the name up in that list: it
    runs no device query of its own, and when it returns normally the
    camera it has opened is the one of index 0. *)
Theorem refreshed_device_list_is_reused s :
  destroyed (app s) = false ->
  let s1 := snd (update_device_list s) in
  let s2 := snd (start_preview env s1) in
  devices (app s1) = Some (fst (detect_devices (world s))) /\
  Some (device_menu (app s1)) = head (fst (detect_devices (world s))) /\
  world s2 = world s1 /\
  (fst (start_preview env s1) = Ok tt -> source <$> stream (app s2) = Some 0%nat).
Proof.
  intros Hd s1 s2.
  destruct (detect_devices_filled (world s)) as (first & rest & Hfound).
  assert (E1 : devices (app s1) = Some (first :: rest) /\
               device_menu (app s1) = first /\ destroyed (app s1) = false).
  { unfold s1, update_device_list, in_world. act_unfold.
    destruct (detect_devices (world s)) as [found w1]. simpl in *. subst found.
    rewrite Hd. simpl. rewrite Hd. simpl. done. }
  destruct E1 as (Hdev & Hmenu & Hd1). rewrite Hfound. simpl.
  split; [done|]. split; [by rewrite Hmenu|].
  unfold s2, start_preview. act_unfold. rewrite Hdev, Hmenu, index_of_head. simpl.
  destruct (parse_resolution (resolution_var (app s1))) as [[[w h] fps]|]; simpl; [|done].
  destruct (camera env 0) as [frames|]; simpl; [|done].
  rewrite Hd1. simpl.
  destruct (preview_canvas_size w h) as [size|]; simpl; [|done].
  rewrite Hd1. simpl. done.
Qed.
End DeviceList.

Lemma refreshed_device_list_witness :
  let s1 := snd (update_device_list (started "640x480" "30")) in
  let s2 := snd (start_preview (studio []) s1) in
  devices (app s1) = Some (fst (detect_devices (world (started "640x480" "30")))) /\
  Some (device_menu (app s1)) = head (fst (detect_devices (world (started "640x480" "30")))) /\
  world s2 = world s1 /\
  (fst (start_preview (studio []) s1) = Ok tt -> source <$> stream (app s2) = Some 0%nat).
Proof.
  apply (refreshed_device_list_is_reused (studio []) (started "640x480" "30")).
  vm_compute. reflexivity.
Defined.

(* ===================================================================== *)
(** * Theorems: the life of a recording *)
(* ===================================================================== *)

Section AfterClose.
Context {cv : Cv2} (env : Env).

Lemma on_close_alive s :
  destroyed (app s) = false ->
  exists s', on_close s = (Ok tt, s') /\ closed_quiet s' /\ threads s' = threads s.
Proof.
  intros Hd.
  assert (Hrec : exists s1, (if recording (app s) then stop_record else mret ()) s = (Ok tt, s1)
                            /\ recording (app s1) = false
                            /\ previewing (app s1) = previewing (app s)
                            /\ destroyed (app s1) = false
                            /\ threads s1 = threads s).
  { destruct (recording (app s)) eqn:Er; [|by exists s].
    unfold stop_record. act_unfold. rewrite Hd. simpl.
    destruct (writer (app s)); simpl; rewrite Hd; eauto 10. }
  destruct Hrec as (s1 & E1 & R1 & P1 & D1 & T1).
  assert (Hpre : exists s2, (if previewing (app s1) then stop_preview else mret ()) s1 = (Ok tt, s2)
                            /\ previewing (app s2) = false
                            /\ recording (app s2) = false
                            /\ threads s2 = threads s).
  { destruct (previewing (app s1)) eqn:Ep; [|by exists s1].
    unfold stop_preview. act_unfold. rewrite D1. simpl. rewrite D1. eauto 10. }
  destruct Hpre as (s2 & E2 & P2 & R2 & T2).
  unfold on_close, mbind, Act_bind, get_app. rewrite E1, E2.
  eexists. split; [reflexivity|]. done.
Qed.

(** Once the window is destroyed and the flags are down, a step of the
    program shows nothing, moves no frame and leaves the writer alone. *)
Lemma exec_closed_quiet act s :
  closed_quiet s ->
  closed_quiet (exec env act s) /\
  trace (exec env act s) = trace s /\
  writer (app (exec env act s)) = writer (app s).
Proof.
  intros (Hd & Hp & Hr). destruct act; simpl; rewrite ?Hd; simpl; try done.
  destruct (threads s !! i) as [[|st w h dur]|]; [| |done]; simpl.
  - unfold preview_loop. act_unfold. rewrite Hp. simpl. done.
  - unfold record_loop, stop_record. act_unfold. rewrite Hr. simpl. rewrite Hd. simpl. done.
Qed.

Lemma run_closed_quiet acts : forall s,
  closed_quiet s ->
  closed_quiet (run env acts s) /\
  trace (run env acts s) = trace s /\
  writer (app (run env acts s)) = writer (app s).
Proof.
  induction acts as [|act acts IH]; intros s Hs; simpl; [done|].
  destruct (exec_closed_quiet act s Hs) as (Hq & Ht & Hw).
  destruct (IH _ Hq) as (Hq' & Ht' & Hw'). split; [done|]. split; congruence.
Qed.

Lemma run_app acts1 acts2 s : run env (acts1 ++ acts2) s = run env acts2 (run env acts1 s).
Proof. unfold run. apply fold_left_app. Qed.

(** X13: once the window has been closed, nothing happens any more. Whatever
    the user did before, after [on_close] the window is destroyed, and
    whatever runs afterwards (a loop that is still alive, a late click) adds
    no event to the trace: no frame is read, filtered, shown or written, no
    dialog appears, and the writer is not closed again. *)
Theorem nothing_happens_once_closed (w : World) (before after : list Action) :
  let s := run env (before ++ [CloseWindow]) (init w) in
  destroyed (app s) = true /\
  trace (run env after s) = trace s /\
  writer (app (run env after s)) = writer (app s).
Proof.
  intros s.
  assert (Hq : closed_quiet s).
  { unfold s. rewrite run_app. simpl.
    destruct (run_inv env before (init w) (init_inv w)) as (Hquiet & _ & _).
    destruct (destroyed (app (run env before (init w)))) eqn:Hd.
    - split; [done|]. by apply Hquiet.
    - unfold callback. destruct (on_close_alive _ Hd) as (s' & -> & Hs' & _). done. }
  destruct (run_closed_quiet after s Hq) as (_ & Ht & Hw). by destruct Hq.
Qed.
End AfterClose.

Lemma open_session s s' :
  same_session s s' -> open_while_recording s -> open_while_recording s'.
Proof. intros (Hr & Hw & _) Hopen. unfold open_while_recording. by rewrite Hr, Hw. Qed.

Lemma open_not_recording s : recording (app s) = false -> open_while_recording s.
Proof. intros Hr Hr'. congruence. Qed.

Lemma stop_record_lowers_flag s : recording (app (snd (stop_record s))) = false.
Proof.
  unfold stop_record. act_unfold.
  destruct (destroyed (app s)) eqn:Hd; simpl; [done|].
  destruct (writer (app s)); simpl; rewrite Hd; done.
Qed.

Section OpenWriter.
Context {cv : Cv2} (env : Env).

Lemma preview_loop_session : keeps same_session (preview_loop env).
Proof.
  unfold preview_loop, read_stream, apply_filters.
  keeps_with same_session session_prim.
Qed.

Lemma begin_record_open p : preserves open_while_recording (begin_record env p).
Proof.
  destruct p as [[[[[w h] f] dur] out] q]. unfold begin_record.
  apply preserves_bind; [by apply preserves_pure|]. intros a.
  apply preserves_bind.
  { apply (preserves_keeps _ same_session); [apply open_session|].
    destruct (previewing a); [apply (keeps_ret same_session)|apply start_preview_session]. }
  intros []. intros s Hs. unfold try_except. act_unfold.
  destruct (writegear_ok env out); simpl.
  - intros _. by eexists.
  - destruct (destroyed (app s)); simpl; exact Hs.
Qed.

Lemma start_record_open : preserves open_while_recording (start_record env).
Proof.
  unfold start_record.
  apply preserves_bind; [by apply preserves_pure|]. intros t.
  apply preserves_bind; [by apply preserves_pure|]. intros a.
  apply preserves_bind.
  { destruct (makedirs_ok env _); by apply preserves_pure. }
  intros [].
  apply preserves_bind.
  { apply (preserves_keeps _ same_session); [apply open_session|]. by apply same_session_update. }
  intros [].
  apply preserves_bind.
  { apply (preserves_keeps _ same_session); [apply open_session|].
    unfold messagebox.
    keeps_with same_session ltac:(first [apply check_parameters_session | session_prim]). }
  intros [p|]; [apply begin_record_open|by apply preserves_pure].
Qed.

Lemma record_loop_open st w h dur : preserves open_while_recording (record_loop st w h dur).
Proof.
  intros s Hopen. unfold record_loop, read_stream, apply_filters. act_unfold.
  destruct (recording (app s) && _) eqn:Hc; simpl.
  2:{ apply open_not_recording.
      pose proof (stop_record_lowers_flag s) as Hlow.
      by destruct (stop_record s) as [[[]|e] s1]. }
  apply andb_true_iff in Hc as [Hrec _].
  destruct (Hopen Hrec) as (g & Hg & Hc).
  destruct (stream (app s)) as [cam|]; simpl; [|done].
  destruct (pending cam) as [|f rest]; simpl.
  { apply open_not_recording.
    match goal with
    | |- context [stop_record ?s1] =>
        pose proof (stop_record_lowers_flag s1) as Hlow;
        by destruct (stop_record s1) as [[[]|e] s2]
    end. }
  destruct (destroyed (app s)); simpl; [by intros _; eexists|].
  destruct (filters_frame f (toggles (app s))) as [r|]; simpl; [|by intros _; eexists].
  rewrite Hg. simpl. intros _. by eexists.
Qed.

Lemma exec_open act s : open_while_recording s -> open_while_recording (exec env act s).
Proof.
  intros Hopen. destruct act; simpl; unfold callback.
  - destruct (destroyed (app s)); [done|].
    eapply open_session; [apply toggle_preview_session|done].
  - destruct (_ || _); [done|]. by apply start_record_open.
  - destruct (_ || _); [done|]. apply open_not_recording, stop_record_lowers_flag.
  - destruct (destroyed (app s)) eqn:Hd; [done|].
    destruct (on_close_alive s Hd) as (s' & -> & (_ & _ & Hr) & _).
    by apply open_not_recording.
  - destruct (destroyed (app s)); done.
  - destruct (threads s !! i) as [t|]; [|done].
    assert (Ht : open_while_recording (snd (run_thread env t s))).
    { destruct t as [|st w h dur]; simpl.
      - eapply open_session; [apply preview_loop_session|done].
      - by apply record_loop_open. }
    destruct (run_thread env t s) as [[[t'|]|e] s']; exact Ht.
  - done.
Qed.

Lemma run_open acts : forall s, open_while_recording s -> open_while_recording (run env acts s).
Proof.
  induction acts as [|act acts IH]; intros s Hs; simpl; [done|].
  apply IH. by apply exec_open.
Qed.

Lemma init_not_recording w : recording (app (init w)) = false.
Proof.
  unfold init. destruct (select_codec w) as [codec w1].
  destruct (detect_devices w1) as [d1 w2]. destruct (detect_devices w2) as [d2 w3].
  destruct (get_supported_resolutions 0 w3) as [r w4].
  by destruct (detect_devices w4) as [d3 w5].
Qed.

(** X14: in every state the program reaches, a recording in progress has a
    writer that was never closed: [close] is only called once the flag
    [recording] is down, and the flag is only raised with a writer just
    constructed. The record loop writes only while the flag is up, so no
    frame is written to a writer that was closed. *)
Theorem recording_writer_is_open (w : World) (acts : list Action) :
  let s := run env acts (init w) in
  recording (app s) = true ->
  exists g, writer (app s) = Some g /\ w_closes g = 0%nat.
Proof.
  intros s. apply (run_open acts (init w)). apply open_not_recording, init_not_recording.
Qed.
End OpenWriter.

Lemma recording_writer_is_open_witness :
  exists g,
    writer (app (run (cv := plain_cv2) (studio [pixel Byte.x01]) [PressStart; Step 1]
                     (started "640x480" "30"))) = Some g /\
    w_closes g = 0%nat.
Proof.
  apply (recording_writer_is_open (cv := plain_cv2) (studio [pixel Byte.x01])
           (dshow_machine " V..... libx264  H.264" (mode_line "640x480" "30") 0)
           [PressStart; Step 1]).
  vm_compute. reflexivity.
Defined.

Section Endings.
Context {cv : Cv2} (env : Env).

Lemma press_preview_stops s :
  destroyed (app s) = false ->
  previewing (app s) = true ->
  let s1 := exec env PressPreview s in
  stream (app s1) = None /\ previewing (app s1) = false /\
  recording (app s1) = recording (app s) /\ writer (app s1) = writer (app s) /\
  threads s1 = threads s /\ trace s1 = trace s /\ clock s1 = clock s.
Proof.
  intros Hd Hp. simpl. rewrite Hd. unfold callback, toggle_preview, stop_preview.
  act_unfold. rewrite Hp. simpl. rewrite Hd. simpl. rewrite Hd. simpl. done.
Qed.

Lemma record_turn_without_stream s i st w h dur :
  stream (app s) = None ->
  recording (app s) = true ->
  threads s !! i = Some (RecordLoop st w h dur) ->
  clock s - default (clock s) st < dur * 1000 ->
  exec env (Step i) s = set_threads (delete i (threads s)) s.
Proof.
  intros Hs Hr Ht Hclock. simpl. rewrite Ht.
  unfold run_thread, record_loop, read_stream. act_unfold. rewrite Hr. simpl.
  apply Z.ltb_lt in Hclock. rewrite Hclock. simpl. by rewrite Hs.
Qed.

(** X15: stopping the preview while a recording runs takes the stream away
    from the record loop. [stop_preview] sets [stream] to [None]; at its next
    turn the record loop, still within its duration, calls [read] on it and
    dies of the exception. [stop_record] is not called: the writer is not
    closed, the flag [recording] stays up and nothing is reported. *)
Theorem stopping_preview_kills_record_loop s i st w h dur :
  destroyed (app s) = false ->
  previewing (app s) = true ->
  recording (app s) = true ->
  threads s !! i = Some (RecordLoop st w h dur) ->
  clock s - default (clock s) st < dur * 1000 ->
  let s1 := exec env PressPreview s in
  let s2 := exec env (Step i) s1 in
  stream (app s1) = None /\
  threads s2 = delete i (threads s) /\
  recording (app s2) = true /\
  writer (app s2) = writer (app s) /\
  trace s2 = trace s.
Proof.
  intros Hd Hp Hr Ht Hclock s1 s2.
  destruct (press_preview_stops s Hd Hp) as (Hs1 & _ & Hr1 & Hw1 & Ht1 & Htr1 & Hc1).
  fold s1 in Hs1, Hr1, Hw1, Ht1, Htr1, Hc1.
  assert (E2 : s2 = set_threads (delete i (threads s1)) s1).
  { apply (record_turn_without_stream s1 i st w h dur); congruence. }
  rewrite E2. simpl. rewrite Ht1. repeat split; congruence.
Qed.

(** X16: a record loop that ends by itself, because its duration has elapsed
    or because the stream has no frame left, ends the recording once: the
    flag goes down, [close] is called once on the writer, the buttons go
    back, the thread is gone, and the one dialog is shown. No frame is
    written in that turn. *)
Theorem record_loop_ends_recording_once s i st w h dur g :
  destroyed (app s) = false ->
  recording (app s) = true ->
  writer (app s) = Some g ->
  threads s !! i = Some (RecordLoop st w h dur) ->
  dur * 1000 <= clock s - default (clock s) st
  \/ (exists cam, stream (app s) = Some cam /\ pending cam = []) ->
  let s' := exec env (Step i) s in
  recording (app s') = false /\
  writer (app s') = Some (wg_close g) /\
  closes (trace s') = S (closes (trace s)) /\
  written (trace s') = written (trace s) /\
  dialogs (trace s') = dialogs (trace s) ++ [InfoRecordStopped] /\
  start_btn (app s') = true /\ stop_btn (app s') = false /\
  threads s' = delete i (threads s).
Proof.
  intros Hd Hr Hg Ht Hend s'. subst s'.
  unfold exec. rewrite Ht. unfold run_thread, record_loop, read_stream, stop_record.
  act_unfold. rewrite Hr. simpl.
  destruct (clock s - default (clock s) st <? dur * 1000) eqn:Hclock; simpl.
  - destruct Hend as [Hup|(cam & Hcam & Hpend)]; [apply Z.ltb_lt in Hclock; lia|].
    rewrite Hcam, Hpend. simpl. rewrite Hd. simpl. rewrite Hg. simpl. rewrite Hd. simpl.
    unfold closes, written, dialogs. rewrite !omap_app, !length_app. simpl.
    rewrite !app_nil_r. repeat split; try done. lia.
  - rewrite Hd. simpl. rewrite Hg. simpl. rewrite Hd. simpl.
    unfold closes, written, dialogs. rewrite !omap_app, !length_app. simpl.
    rewrite !app_nil_r. repeat split; try done. lia.
Qed.


#[local] Arguments index_of : simpl never.
#[local] Arguments detect_devices : simpl never.

(** X18: [start_record] does not look at what [start_preview] achieved. When
    no preview runs and the selected device is not in the device list,
    [start_preview] reports the error and returns; [start_record] goes on,
    opens the writer, raises the flag and starts the record loop, although
    there is no stream to read from. *)
Theorem record_starts_without_preview s w h f dur out q :
  destroyed (app s) = false ->
  makedirs_ok env (abspath env (save_dir_var (app s))) = true ->
  parameters_read (app s) (output_path env s) = Some (w, h, f, dur, out, q) ->
  bad_parameters w h f dur out = false ->
  previewing (app s) = false ->
  index_of (device_menu (app s)) (devices_seen s) = None ->
  writegear_ok env out = true ->
  exists s', start_record env s = (Ok tt, s') /\
    dialogs (trace s') = dialogs (trace s) ++ [ErrDeviceNotFound] /\
    previewing (app s') = false /\
    stream (app s') = stream (app s) /\
    recording (app s') = true /\
    writer (app s') = Some {| w_output := out;
                              w_options := encoder_options (CODEC (app s)) q f;
                              w_frames := []; w_closes := 0 |} /\
    threads s' = threads s ++ [RecordLoop None w h dur].
Proof.
  intros Hd Hmk Hpar Hok Hprev Hidx Hwg.
  unfold parameters_read, output_path in Hpar. unfold devices_seen in Hidx.
  unfold start_record, check_parameters, begin_record, start_preview, try_except, in_world.
  act_unfold. rewrite Hmk. simpl.
  destruct (parse_resolution (resolution_var (app s))) as [[[w0 h0] fps0]|];
    simpl in *; (destruct (duration (app s)) as [dur0|]; [|discriminate]);
    simpl in *; injection Hpar as <- <- <- <- <- <-;
    rewrite Hok; simpl; rewrite Hprev; simpl;
    (destruct (devices (app s)) as [[|d ds]|]; simpl;
     try (destruct (detect_devices (world s)) as [l w1]; simpl in * );
     rewrite Hidx; simpl; rewrite Hd; simpl; rewrite Hwg; simpl;
     eexists; (split; [reflexivity|]); simpl;
     unfold dialogs; rewrite !omap_app; simpl; rewrite ?app_nil_r; done).
Qed.
End Endings.

Lemma stopping_preview_witness :
  let s1 := exec (cv := plain_cv2) (studio []) PressPreview recording_state in
  let s2 := exec (cv := plain_cv2) (studio []) (Step 1) s1 in
  stream (app s1) = None /\
  threads s2 = delete 1%nat (threads recording_state) /\
  recording (app s2) = true /\
  writer (app s2) = writer (app recording_state) /\
  trace s2 = trace recording_state.
Proof.
  apply (stopping_preview_kills_record_loop (cv := plain_cv2) (studio [])
           recording_state 1 None 640 480 60); vm_compute; reflexivity.
Defined.

Lemma record_loop_ends_witness :
  exists g, writer (app recording_state_late) = Some g /\
    let s' := exec (cv := plain_cv2) (studio []) (Step 1) recording_state_late in
    recording (app s') = false /\
    writer (app s') = Some (wg_close g) /\
    closes (trace s') = S (closes (trace recording_state_late)) /\
    written (trace s') = written (trace recording_state_late) /\
    dialogs (trace s') = dialogs (trace recording_state_late) ++ [InfoRecordStopped] /\
    start_btn (app s') = true /\ stop_btn (app s') = false /\
    threads s' = delete 1%nat (threads recording_state_late).
Proof.
  eexists. split; [vm_compute; reflexivity|].
  apply (record_loop_ends_recording_once (cv := plain_cv2) (studio [])
           recording_state_late 1 (Some 0) 640 480 60);
    try (vm_compute; reflexivity).
  left. vm_compute. discriminate.
Defined.


Lemma record_starts_without_preview_witness :
  exists s', start_record (studio []) lost_device_state = (Ok tt, s') /\
    dialogs (trace s') = dialogs (trace lost_device_state) ++ [ErrDeviceNotFound] /\
    previewing (app s') = false /\
    stream (app s') = stream (app lost_device_state) /\
    recording (app s') = true /\
    writer (app s') = Some {| w_output := "C:\clickrec\recordings\20250101_120000.mp4";
                              w_options := encoder_options (CODEC (app lost_device_state)) 23 30;
                              w_frames := []; w_closes := 0 |} /\
    threads s' = threads lost_device_state ++ [RecordLoop None 640 480 60].
Proof.
  apply (record_starts_without_preview (studio []) lost_device_state 640 480 30 60
           "C:\clickrec\recordings\20250101_120000.mp4" 23);
    vm_compute; reflexivity.
Defined.

Section LooseEnds.
Context {cv : Cv2} (env : Env).

(** X19: when the camera delivers no more frames the preview loop ends, but
    nothing lowers the flag: [previewing] stays up and the stream stays in
    place, with no thread left to show anything. *)
Theorem exhausted_preview_keeps_flag s i cam :
  previewing (app s) = true ->
  stream (app s) = Some cam ->
  pending cam = [] ->
  threads s !! i = Some PreviewLoop ->
  let s' := exec env (Step i) s in
  threads s' = delete i (threads s) /\
  previewing (app s') = true /\
  stream (app s') = Some cam /\
  trace s' = trace s ++ [EvRead Preview None].
Proof.
  intros Hp Hs Hpend Ht s'. subst s'. simpl. rewrite Ht.
  unfold run_thread, preview_loop, read_stream. act_unfold.
  rewrite Hp. simpl. rewrite Hs, Hpend. simpl. done.
Qed.

#[local] Arguments index_of : simpl never.
#[local] Arguments detect_devices : simpl never.

(** X20: a recording that can not be opened leaves the preview it started
    running. With no preview on, [start_record] starts one; when the
    construction of the writer then fails, the error is reported and the
    method returns: the flag [recording] and the writer are as before, but
    the camera stays open and the preview loop runs. *)
Theorem failed_writer_leaves_preview_on s w h f dur out q idx frames size :
  destroyed (app s) = false ->
  makedirs_ok env (abspath env (save_dir_var (app s))) = true ->
  parameters_read (app s) (output_path env s) = Some (w, h, f, dur, out, q) ->
  bad_parameters w h f dur out = false ->
  previewing (app s) = false ->
  index_of (device_menu (app s)) (devices_seen s) = Some idx ->
  parse_resolution (resolution_var (app s)) = Some (w, h, f) ->
  camera env idx = Some frames ->
  preview_canvas_size w h = Some size ->
  writegear_ok env out = false ->
  exists s', start_record env s = (Ok tt, s') /\
    dialogs (trace s') = dialogs (trace s) ++ [ErrRecordStart] /\
    recording (app s') = recording (app s) /\
    writer (app s') = writer (app s) /\
    previewing (app s') = true /\
    stream (app s') = Some {| source := idx; cam_size := (w, h); cam_fps := f;
                              pending := frames |} /\
    threads s' = threads s ++ [PreviewLoop].
Proof.
  intros Hd Hmk Hpar Hok Hprev Hidx Hparse Hcam Hsize Hwg.
  unfold parameters_read, output_path in Hpar. unfold devices_seen in Hidx.
  unfold start_record, check_parameters, begin_record, start_preview, try_except, in_world.
  act_unfold. rewrite Hmk. simpl. rewrite Hparse in *. simpl in *.
  destruct (duration (app s)) as [dur0|]; [|discriminate].
  simpl in *. injection Hpar as <- <- <-.
  rewrite Hok. simpl. rewrite Hprev. simpl.
  destruct (devices (app s)) as [[|d ds]|]; simpl;
    try (destruct (detect_devices (world s)) as [l w1]; simpl in * );
    rewrite Hidx; simpl;
    repeat (first [rewrite Hparse | rewrite Hcam | rewrite Hd | rewrite Hsize | rewrite Hwg];
            simpl);
    eexists; (split; [reflexivity|]); simpl;
    unfold dialogs; rewrite !omap_app; simpl; rewrite ?app_nil_r; done.
Qed.
End LooseEnds.

Lemma exhausted_preview_witness :
  let s' := exec (cv := plain_cv2) (studio []) (Step 0) dry_preview_state in
  threads s' = delete 0%nat (threads dry_preview_state) /\
  previewing (app s') = true /\
  stream (app s') = Some {| source := 0; cam_size := (640, 480); cam_fps := 30;
                            pending := [] |} /\
  trace s' = trace dry_preview_state ++ [EvRead Preview None].
Proof.
  apply (exhausted_preview_keeps_flag (cv := plain_cv2) (studio []) dry_preview_state 0
           {| source := 0; cam_size := (640, 480); cam_fps := 30; pending := [] |});
    vm_compute; reflexivity.
Defined.

Lemma failed_writer_witness :
  exists s', start_record (no_encoder []) (started "640x480" "30") = (Ok tt, s') /\
    dialogs (trace s') = dialogs (trace (started "640x480" "30")) ++ [ErrRecordStart] /\
    recording (app s') = recording (app (started "640x480" "30")) /\
    writer (app s') = writer (app (started "640x480" "30")) /\
    previewing (app s') = true /\
    stream (app s') = Some {| source := 0; cam_size := (640, 480); cam_fps := 30;
                              pending := [] |} /\
    threads s' = threads (started "640x480" "30") ++ [PreviewLoop].
Proof.
  apply (failed_writer_leaves_preview_on (no_encoder []) (started "640x480" "30")
           640 480 30 60 "C:\clickrec\recordings\20250101_120000.mp4" 23 0 [] (1280, 960));
    vm_compute; reflexivity.
Defined.

Lemma detect_devices_without_ffmpeg w :
  ffmpeg_path_attr w = Some None -> detect_devices w = ([default_camera], w).
Proof.
  intros Hattr.
  unfold detect_devices, get_ffmpeg_path, mbind, St_bind, mret, St_ret.
  by rewrite Hattr.
Qed.

Lemma get_supported_resolutions_without_ffmpeg idx w :
  ffmpeg_path_attr w = Some None -> get_supported_resolutions idx w = ([], w).
Proof.
  intros Hattr.
  unfold get_supported_resolutions, mbind, St_bind, mret, St_ret.
  unfold get_ffmpeg_path at 1. rewrite Hattr.
  rewrite (detect_devices_without_ffmpeg w Hattr).
  by destruct ([default_camera] !! idx).
Qed.

Lemma init_without_ffmpeg w :
  ffmpeg_lookup w = None -> ffmpeg_path_attr w = None ->
  idle_without_ffmpeg (ran w) (init w).
Proof.
  intros Hlook Hattr. unfold init.
  assert (Hsel : select_codec w = (fallback_codec, set_ffmpeg_path_attr None w)).
  { unfold select_codec, get_ffmpeg_path, mbind, St_bind. by rewrite Hattr, Hlook. }
  rewrite Hsel.
  set (w1 := set_ffmpeg_path_attr None w).
  assert (H1 : ffmpeg_path_attr w1 = Some None) by done.
  rewrite !(detect_devices_without_ffmpeg w1 H1).
  rewrite (get_supported_resolutions_without_ffmpeg 0 w1 H1).
  rewrite (detect_devices_without_ffmpeg w1 H1).
  repeat split.
Qed.

Section WithoutFfmpeg.
Context {cv : Cv2} (env : Env).

#[local] Arguments detect_devices : simpl never.
#[local] Arguments parse_resolution : simpl never.

Lemma parse_resolution_empty : parse_resolution "" = None.
Proof. reflexivity. Qed.

Lemma start_preview_without_ffmpeg ran0 s :
  idle_without_ffmpeg ran0 s ->
  exists e, start_preview env s = (Raised e, s).
Proof.
  intros (Hattr & Hran & Hcodec & Hdev & Hmenu & Hres & _).
  unfold start_preview, in_world. act_unfold.
  rewrite Hdev, (detect_devices_without_ffmpeg _ Hattr), Hmenu, Hres, parse_resolution_empty.
  simpl. exists UnboundLocalError. by destruct s.
Qed.

Lemma exec_without_ffmpeg ran0 act s :
  idle_without_ffmpeg ran0 s -> idle_without_ffmpeg ran0 (exec env act s).
Proof.
  intros Hidle. pose proof Hidle as
    (Hattr & Hran & Hcodec & Hdev & Hmenu & Hres & Hfps & Hdur & Hprev & Hrec &
     Hstream & Hwriter & Hstop & Hthreads & Htrace).
  destruct act; simpl; unfold callback.
  - destruct (destroyed (app s)); [done|].
    unfold toggle_preview, mbind, Act_bind, get_app. rewrite Hprev.
    by destruct (start_preview_without_ffmpeg ran0 s Hidle) as [e ->].
  - destruct (_ || _); [done|].
    unfold start_record, mbind at 1 2 3 4, Act_bind at 1 2 3 4, time_ms, get_app.
    destruct (makedirs_ok env _); simpl; [|done].
    set (s1 := set_app (set_output _ (app s)) s).
    assert (Hidle1 : idle_without_ffmpeg ran0 s1) by done.
    unfold try_except, check_parameters. act_unfold. rewrite Hres, parse_resolution_empty.
    simpl. rewrite Hfps, Hdur. simpl.
    assert (Hok : bad_parameters 640 480 30 60 (Py.strip (output_path env s)) = false).
    { unfold bad_parameters. by rewrite output_path_extension. }
    unfold output_path in Hok. rewrite Hok. simpl.
    unfold begin_record, mbind at 1 2, Act_bind at 1 2, get_app. simpl. rewrite Hprev.
    by destruct (start_preview_without_ffmpeg ran0 s1 Hidle1) as [e ->].
  - by rewrite Hstop, orb_true_r.
  - destruct (destroyed (app s)); [done|].
    unfold on_close. act_unfold. rewrite Hrec. simpl. rewrite Hprev. simpl. done.
  - by destruct (destroyed (app s)).
  - by rewrite Hthreads.
  - done.
Qed.

Lemma run_without_ffmpeg ran0 acts : forall s,
  idle_without_ffmpeg ran0 s -> idle_without_ffmpeg ran0 (run env acts s).
Proof.
  induction acts as [|act acts IH]; intros s Hs; simpl; [done|].
  apply IH. by apply exec_without_ffmpeg.
Qed.

End WithoutFfmpeg.


(* ===================================================================== *)
(** * Theorems: the countdown and the log *)
(* ===================================================================== *)

(** ** The countdown *)

Lemma timer_chain_step n t :
  timer_chain (S n) t =
  match timer_chain n t with
  | (t', true) => update_timer true t'
  | (t', false) => (t', false)
  end.
Proof. reflexivity. Qed.

Lemma update_timer_counts r :
  0 <= r ->
  forall label, update_timer true {| remaining := Some r; timer_label := label |}
  = ({| remaining := Some (r - 1); timer_label := Py.str r |}, true).
Proof.
  intros Hr label. unfold update_timer. cbn [remaining].
  by rewrite (proj2 (Z.leb_le 0 r) Hr).
Qed.

Lemma timer_chain_counts dur n :
  Z.of_nat n <= dur ->
  timer_chain (S n) {| remaining := Some dur; timer_label := "" |}
  = ({| remaining := Some (dur - Z.of_nat n - 1);
        timer_label := Py.str (dur - Z.of_nat n) |}, true).
Proof.
  induction n as [|n IH]; intros Hn; rewrite timer_chain_step.
  - cbn [timer_chain]. rewrite update_timer_counts by lia.
    by replace (dur - Z.of_nat 0) with dur by lia.
  - rewrite IH by lia. rewrite update_timer_counts by lia.
    by replace (dur - Z.of_nat (S n)) with (dur - Z.of_nat n - 1) by lia.
Qed.

(** X22: the countdown that [start_record] starts shows the remaining seconds
    and stops by itself. While the recording stays on, the call number
    [k + 1] of [update_timer] (the first is made by [start_record], the
    others follow one second apart) shows [dur - k], down to 0; the call
    after that clears the label and does not schedule another. *)
Theorem timer_counts_down_and_stops dur k :
  0 <= k <= dur ->
  timer_chain (S (Z.to_nat k)) {| remaining := Some dur; timer_label := "" |}
  = ({| remaining := Some (dur - k - 1); timer_label := Py.str (dur - k) |}, true) /\
  timer_chain (S (S (Z.to_nat dur))) {| remaining := Some dur; timer_label := "" |}
  = ({| remaining := Some (-1); timer_label := "" |}, false).
Proof.
  intros Hk. split.
  - rewrite timer_chain_counts by lia. by rewrite Z2Nat.id by lia.
  - rewrite timer_chain_step, timer_chain_counts by lia. rewrite Z2Nat.id by lia.
    unfold update_timer. cbn [remaining].
    replace (dur - dur - 1) with (-1) by lia. reflexivity.
Qed.

Lemma timer_witness :
  timer_chain (S (Z.to_nat 2)) {| remaining := Some 3; timer_label := "" |}
  = ({| remaining := Some (3 - 2 - 1); timer_label := Py.str (3 - 2) |}, true) /\
  timer_chain (S (S (Z.to_nat 3))) {| remaining := Some 3; timer_label := "" |}
  = ({| remaining := Some (-1); timer_label := "" |}, false).
Proof. apply (timer_counts_down_and_stops 3 2). lia. Defined.

(** ** The log *)

(** Two texts that differ in a character both texts have can not both start
    a message. *)
Lemma prefix_head a l1 b l2 msg :
  a <> b ->
  String.prefix (String "[" (String a l1)) msg = true ->
  String.prefix (String "[" (String b l2)) msg = false.
Proof.
  intros Hab. destruct msg as [|c0 [|c1 rest]]; [done| |]; cbn [String.prefix].
  - destruct (ascii_dec "[" c0); done.
  - destruct (ascii_dec "[" c0); [|done].
    destruct (ascii_dec a c1) as [<-|]; [|done].
    destruct (ascii_dec b a) as [->|]; done.
Qed.

